(** * Best-Papers-Top-Venues: the paper downloader

    A shallow embedding of
    [automation-tool/paper_downloader_enhanced.py]: the README parser
    ([parse_papers_from_main_readme] with [is_paper_title_line] and
    [extract_title_from_line]), the file-name sanitiser and the
    deduplication fingerprint, together with the pieces of the Python
    runtime they call ([str] methods, the [re] module, [hashlib.md5]);
    and the run of [process_papers], with [fetch_main_readme] and
    [search_arxiv], over a world that answers the requests, the search
    on Semantic Scholar and the downloads.

    The parser is given twice: as the function from the document to the
    value it returns, and with the lines it prints, the standard output
    being a part of the state; the second is shown to return the value of
    the first.  The run of [process_papers] can raise: its result says
    whether it returned.

    A Python [str] is modelled as a [string] whose characters are code
    points below 256 (an [ascii] value is read as the code point of that
    number); the character tables are those of Python 3 on that range.
    On that range [re.IGNORECASE] is the comparison of the lower-case
    forms.  Python folds three characters outside the range onto letters
    of it (U+0130 and U+0131 onto [i], U+017F onto [s]); a text with such
    a character is not a [string] of this model, and what is proved here
    about matching in any case is about the texts that are. *)

From Stdlib Require Import String Ascii List NArith Arith Bool Lia.
From Stdlib Require Import Permutation OrderedTypeEx.
Import ListNotations.

Local Open Scope string_scope.
Local Open Scope bool_scope.

(** ** Characters *)

Module Chr.

Definition code (c : ascii) : N := N_of_ascii c.

Definition between (lo hi : N) (c : ascii) : bool :=
  ((lo <=? code c) && (code c <=? hi))%N.

(** [str.isspace] on one character, which is also [\s] of [re]. *)
Definition isspace (c : ascii) : bool :=
  between 9 13 c || between 28 32 c || (code c =? 133)%N || (code c =? 160)%N.

(** [\d] of [re]: the decimal digits. *)
Definition isdecimal (c : ascii) : bool := between 48 57 c.

(** [str.isalnum] on one character. *)
Definition isalnum (c : ascii) : bool :=
  between 48 57 c || between 65 90 c || between 97 122 c
  || (code c =? 170)%N || between 178 179 c || (code c =? 181)%N
  || between 185 186 c || between 188 190 c
  || between 192 214 c || between 216 246 c || between 248 255 c.

(** [\w] of [re]: alphanumerics and the underscore. *)
Definition isword (c : ascii) : bool := isalnum c || (code c =? 95)%N.

(** [str.lower] on one character. *)
Definition lower (c : ascii) : ascii :=
  if between 65 90 c || between 192 214 c || between 216 222 c
  then ascii_of_N (code c + 32)
  else c.

Definition nl : ascii := "010"%char.
Definition cr : ascii := "013"%char.
Definition dquote : ascii := "034"%char.

End Chr.

(** ** The [str] methods the program calls *)

Module Str.

Fixpoint lower (s : string) : string :=
  match s with
  | EmptyString => EmptyString
  | String c s' => String (Chr.lower c) (lower s')
  end.

Fixpoint lstrip (s : string) : string :=
  match s with
  | EmptyString => EmptyString
  | String c s' => if Chr.isspace c then lstrip s' else s
  end.

Fixpoint rstrip (s : string) : string :=
  match s with
  | EmptyString => EmptyString
  | String c s' =>
      match rstrip s' with
      | EmptyString => if Chr.isspace c then EmptyString else String c EmptyString
      | r => String c r
      end
  end.

(** [s.strip()] *)
Definition strip (s : string) : string := rstrip (lstrip s).

(** [s.split(sep)] for a one-character separator. *)
Fixpoint split_on (sep : ascii) (s : string) : list string :=
  match s with
  | EmptyString => [EmptyString]
  | String c s' =>
      if Ascii.eqb c sep then EmptyString :: split_on sep s'
      else match split_on sep s' with
           | [] => [String c EmptyString]
           | f :: fs => String c f :: fs
           end
  end.

(** [s.replace(old, new)] for one-character [old] and [new]. *)
Fixpoint replace_char (old new : ascii) (s : string) : string :=
  match s with
  | EmptyString => EmptyString
  | String c s' =>
      String (if Ascii.eqb c old then new else c) (replace_char old new s')
  end.

(** [s.startswith(p)] *)
Definition startswith (p s : string) : bool := String.prefix p s.

(** [sub in s] *)
Fixpoint contains (sub s : string) : bool :=
  String.prefix sub s ||
  match s with
  | EmptyString => false
  | String _ s' => contains sub s'
  end.

(** [s[:n]] *)
Definition take (n : nat) (s : string) : string := String.substring 0 n s.

(** [s[n:]] *)
Fixpoint drop (n : nat) (s : string) : string :=
  match n, s with
  | O, _ => s
  | S _, EmptyString => EmptyString
  | S n', String _ s' => drop n' s'
  end.

(** [s[i:j]] for [i <= j] *)
Definition slice (i j : nat) (s : string) : string := take (j - i) (drop i s).

(** [''.join(l)] *)
Fixpoint join (l : list string) : string :=
  match l with
  | [] => EmptyString
  | s :: l' => s ++ join l'
  end.

(** [all(p(c) for c in s)] *)
Fixpoint all (p : ascii -> bool) (s : string) : bool :=
  match s with
  | EmptyString => true
  | String c s' => p c && all p s'
  end.

(** [bool(s)]: a string is true when it is not empty. *)
Definition truthy (s : string) : bool :=
  match s with
  | EmptyString => false
  | String _ _ => true
  end.

End Str.

(** ** The fragment of [re] the program uses

    Every quantifier of the program's patterns applies to a single
    character or character class, so a repetition carries a class.
    The matcher is the backtracking one of [re]: alternatives are tried
    from left to right, a greedy repetition tries the longest run first
    and a lazy one the shortest, and the first complete match wins. *)

Module Re.

(** What a set may list: a character or one of the escapes. *)
Inductive citem : Type :=
| Lit (c : ascii)                (* the character itself *)
| Space                          (* [\s] *)
| Digit                          (* [\d] *)
| Word.                          (* [\w] *)

(** What matches one character. *)
Inductive cclass : Type :=
| Is (i : citem)
| Dot                            (* [.]: anything but a newline *)
| OneOf (l : list citem)         (* a set [[...]] *)
| NoneOf (l : list citem).       (* a negated set [[^...]] *)

Inductive regex : Type :=
| Eps
| Chr (c : cclass)
| Rep (c : cclass) (lo : nat) (hi : option nat) (greedy : bool)
| Bol                            (* [^] *)
| Eol                            (* [$] *)
| Seq (r1 r2 : regex)
| Alt (r1 r2 : regex)
| Group (r : regex).             (* the capturing group *)

(** A character against a class; [ic] is [re.IGNORECASE], which on the
    code points below 256 compares the lower-case forms. *)
Definition imatch (ic : bool) (i : citem) (a : ascii) : bool :=
  match i with
  | Lit x => if ic then Ascii.eqb (Chr.lower a) (Chr.lower x) else Ascii.eqb a x
  | Space => Chr.isspace a
  | Digit => Chr.isdecimal a
  | Word => Chr.isword a
  end.

Definition cmatch (ic : bool) (c : cclass) (a : ascii) : bool :=
  match c with
  | Is i => imatch ic i a
  | Dot => negb (Ascii.eqb a Chr.nl)
  | OneOf l => existsb (fun i => imatch ic i a) l
  | NoneOf l => negb (existsb (fun i => imatch ic i a) l)
  end.

(** The matcher's state: the position in the subject, the text from
    there on, and the span of the capturing group once it has closed. *)
Record mstate : Type := MState {
  m_pos : nat;
  m_rest : string;
  m_grp : option (nat * nat)
}.

Definition set_grp (st : mstate) (g : nat * nat) : mstate :=
  MState (m_pos st) (m_rest st) (Some g).

(** [$] without [re.MULTILINE]: at the end, or before a final newline. *)
Definition at_end (s : string) : bool :=
  match s with
  | EmptyString => true
  | String c EmptyString => Ascii.eqb c Chr.nl
  | _ => false
  end.

Definition dec_hi (hi : option nat) : option nat := option_map pred hi.

(** A repetition of class [c], between [lo] and [hi] times, followed by
    the continuation [k]. *)
Fixpoint rep (ic : bool) (c : cclass) (greedy : bool) (lo : nat) (hi : option nat)
    (p : nat) (s : string) (g : option (nat * nat))
    (k : mstate -> option mstate) {struct s} : option mstate :=
  if greedy then
    match
      match hi, s with
      | Some O, _ => None
      | _, EmptyString => None
      | _, String a s' =>
          if cmatch ic c a
          then rep ic c greedy (pred lo) (dec_hi hi) (S p) s' g k
          else None
      end
    with
    | Some r => Some r
    | None => match lo with O => k (MState p s g) | S _ => None end
    end
  else
    match match lo with O => k (MState p s g) | S _ => None end with
    | Some r => Some r
    | None =>
      match hi, s with
      | Some O, _ => None
      | _, EmptyString => None
      | _, String a s' =>
          if cmatch ic c a
          then rep ic c greedy (pred lo) (dec_hi hi) (S p) s' g k
          else None
      end
    end.

(** The backtracking matcher, in continuation-passing style: [k] is what
    has to match after [r]. *)
Fixpoint rmatch (ic : bool) (r : regex) (st : mstate)
    (k : mstate -> option mstate) {struct r} : option mstate :=
  match r with
  | Eps => k st
  | Chr c =>
      match m_rest st with
      | String a s' =>
          if cmatch ic c a then k (MState (S (m_pos st)) s' (m_grp st)) else None
      | EmptyString => None
      end
  | Rep c lo hi greedy => rep ic c greedy lo hi (m_pos st) (m_rest st) (m_grp st) k
  | Bol => if Nat.eqb (m_pos st) 0 then k st else None
  | Eol => if at_end (m_rest st) then k st else None
  | Seq r1 r2 => rmatch ic r1 st (fun st1 => rmatch ic r2 st1 k)
  | Alt r1 r2 =>
      match rmatch ic r1 st k with
      | Some res => Some res
      | None => rmatch ic r2 st k
      end
  | Group r1 =>
      rmatch ic r1 st (fun st1 => k (set_grp st1 (m_pos st, m_pos st1)))
  end.

(** A match object: where the match starts and ends, and the group. *)
Record mobj : Type := MObj {
  m_start : nat;
  m_stop : nat;
  m_span : option (nat * nat)
}.

Definition mobj_of (start : nat) (st : mstate) : mobj :=
  MObj start (m_pos st) (m_grp st).

(** The continuation of a whole pattern: the match is complete; with
    [nonempty] an empty match is refused, and the matcher backtracks. *)
Definition whole (nonempty : bool) (p : nat) (st : mstate) : option mstate :=
  if nonempty && Nat.eqb (m_pos st) p then None else Some st.

(** An attempt at position [p], where [s] is the subject from [p] on. *)
Definition match_at (ic : bool) (r : regex) (nonempty : bool) (p : nat) (s : string)
    : option mobj :=
  option_map (mobj_of p) (rmatch ic r (MState p s None) (whole nonempty p)).

(** [re.match(r, s)] *)
Definition re_match (ic : bool) (r : regex) (s : string) : option mobj :=
  match_at ic r false 0 s.

(** The leftmost attempt that succeeds, from position [p] on. *)
Fixpoint search_from (ic : bool) (r : regex) (p : nat) (s : string) : option mobj :=
  match match_at ic r false p s with
  | Some m => Some m
  | None =>
      match s with
      | EmptyString => None
      | String _ s' => search_from ic r (S p) s'
      end
  end.

(** [re.search(r, s)] *)
Definition re_search (ic : bool) (r : regex) (s : string) : option mobj :=
  search_from ic r 0 s.

(** [m.group(1)] on the subject [s]; the empty string stands for a group
    that did not take part. *)
Definition group1 (s : string) (m : mobj) : string :=
  match m_span m with
  | Some (i, j) => Str.slice i j s
  | None => EmptyString
  end.

(** The scan of [re.sub]: [s] is the subject from position [p] on and
    [skip] counts the characters of [s] that the last match still covers.
    After an empty match at [p] the next match has to be non-empty, or
    to start further on. *)
Fixpoint sub_scan (ic : bool) (r : regex) (repl : string) (p : nat) (skip : nat)
    (s : string) {struct s} : string :=
  match skip with
  | S n =>
      match s with
      | EmptyString => EmptyString
      | String _ s' => sub_scan ic r repl (S p) n s'
      end
  | O =>
      match match_at ic r false p s with
      | Some m =>
          match m_stop m - p with
          | O =>
              repl ++
              match s with
              | EmptyString => EmptyString
              | String a s' =>
                  match match_at ic r true p s with
                  | Some m' => repl ++ sub_scan ic r repl (S p) (m_stop m' - p - 1) s'
                  | None => String a (sub_scan ic r repl (S p) 0 s')
                  end
              end
          | S n =>
              repl ++
              match s with
              | EmptyString => EmptyString
              | String _ s' => sub_scan ic r repl (S p) n s'
              end
          end
      | None =>
          match s with
          | EmptyString => EmptyString
          | String a s' => String a (sub_scan ic r repl (S p) 0 s')
          end
      end
  end.

(** [re.sub(r, repl, s)] for a replacement without group references. *)
Definition re_sub (ic : bool) (r : regex) (repl : string) (s : string) : string :=
  sub_scan ic r repl 0 0 s.

(** *** Writing patterns *)

(** The characters of [s], one after the other; this is also what
    [re.escape(s)] matches. *)
Fixpoint lit (s : string) : regex :=
  match s with
  | EmptyString => Eps
  | String c EmptyString => Chr (Is (Lit c))
  | String c s' => Seq (Chr (Is (Lit c))) (lit s')
  end.

Definition ch (c : ascii) : cclass := Is (Lit c).
Definition star (c : cclass) : regex := Rep c 0 None true.           (* c* *)
Definition plus (c : cclass) : regex := Rep c 1 None true.           (* c+ *)
Definition opt (c : cclass) : regex := Rep c 0 (Some 1) true.        (* c? *)
Definition star_lazy (c : cclass) : regex := Rep c 0 None false.     (* c*? *)
Definition plus_lazy (c : cclass) : regex := Rep c 1 None false.     (* c+? *)
Definition times (n : nat) (c : cclass) : regex := Rep c n (Some n) true. (* c{n} *)

Fixpoint seq (l : list regex) : regex :=
  match l with
  | [] => Eps
  | [r] => r
  | r :: l' => Seq r (seq l')
  end.

Definition matched (m : option mobj) : bool :=
  match m with Some _ => true | None => false end.

End Re.

(** ** [hashlib.md5] (RFC 1321) and [str.encode] *)

Module Md5.

Local Open Scope N_scope.

Definition w32 (x : N) : N := x mod 4294967296.

Definition rotl (x : N) (n : N) : N :=
  w32 (N.lor (N.shiftl x n) (N.shiftr x (32 - n))).

Definition not32 (x : N) : N := N.lxor x 4294967295.

(** The table of [floor(2^32 * abs(sin(i + 1)))]. *)
Definition K : list N :=
  [ 3614090360; 3905402710; 606105819; 3250441966;
    4118548399; 1200080426; 2821735955; 4249261313;
    1770035416; 2336552879; 4294925233; 2304563134;
    1804603682; 4254626195; 2792965006; 1236535329;
    4129170786; 3225465664; 643717713; 3921069994;
    3593408605; 38016083; 3634488961; 3889429448;
    568446438; 3275163606; 4107603335; 1163531501;
    2850285829; 4243563512; 1735328473; 2368359562;
    4294588738; 2272392833; 1839030562; 4259657740;
    2763975236; 1272893353; 4139469664; 3200236656;
    681279174; 3936430074; 3572445317; 76029189;
    3654602809; 3873151461; 530742520; 3299628645;
    4096336452; 1126891415; 2878612391; 4237533241;
    1700485571; 2399980690; 4293915773; 2240044497;
    1873313359; 4264355552; 2734768916; 1309151649;
    4149444226; 3174756917; 718787259; 3951481745 ].

(** The rotation amounts of the four rounds. *)
Definition shifts : list N :=
  [ 7; 12; 17; 22; 7; 12; 17; 22; 7; 12; 17; 22; 7; 12; 17; 22;
    5; 9; 14; 20; 5; 9; 14; 20; 5; 9; 14; 20; 5; 9; 14; 20;
    4; 11; 16; 23; 4; 11; 16; 23; 4; 11; 16; 23; 4; 11; 16; 23;
    6; 10; 15; 21; 6; 10; 15; 21; 6; 10; 15; 21; 6; 10; 15; 21 ].

Definition state : Type := (N * N * N * N)%type.

Definition init : state := (1732584193, 4023233417, 2562383102, 271733878).

(** Operation [i] of a block whose sixteen words are [M]. *)
Definition round (M : list N) (st : state) (i : nat) : state :=
  let '(A, B, C, D) := st in
  let n := N.of_nat i in
  let '(F, g) :=
    if n <? 16 then (N.lor (N.land B C) (N.land (not32 B) D), n)
    else if n <? 32 then (N.lor (N.land D B) (N.land (not32 D) C), (5 * n + 1) mod 16)
    else if n <? 48 then (N.lxor (N.lxor B C) D, (3 * n + 5) mod 16)
    else (N.lxor C (N.lor B (not32 D)), (7 * n) mod 16) in
  let F' := w32 (F + A + nth i K 0 + nth (N.to_nat g) M 0) in
  (D, w32 (B + rotl F' (nth i shifts 0)), B, C).

Definition add_state (x y : state) : state :=
  let '(a, b, c, d) := x in
  let '(a', b', c', d') := y in
  (w32 (a + a'), w32 (b + b'), w32 (c + c'), w32 (d + d')).

Definition block (st : state) (M : list N) : state :=
  add_state st (fold_left (round M) (List.seq 0 64) st).

(** Little-endian bytes of [x], [n] of them, and back. *)
Fixpoint le_bytes (n : nat) (x : N) : list N :=
  match n with
  | O => []
  | S n' => x mod 256 :: le_bytes n' (x / 256)
  end.

Fixpoint le_word (bs : list N) : N :=
  match bs with
  | [] => 0
  | b :: bs' => b + 256 * le_word bs'
  end.

(** The message followed by the bit [1], zeros up to 56 modulo 64, and
    the length in bits on eight bytes. *)
Definition pad (msg : list N) : list N :=
  let len := List.length msg in
  let zeros := ((64 + 55 - Nat.modulo len 64) mod 64)%nat in
  msg ++ [128] ++ repeat 0 zeros
      ++ le_bytes 8 ((8 * N.of_nat len) mod 18446744073709551616).

(** [n] groups of [size] elements. *)
Fixpoint groups {A : Type} (size n : nat) (l : list A) : list (list A) :=
  match n with
  | O => []
  | S n' => firstn size l :: groups size n' (skipn size l)
  end.

Definition words (blk : list N) : list N := map le_word (groups 4 16 blk).

Definition digest (msg : list N) : list N :=
  let padded := pad msg in
  let blocks := groups 64 (Nat.div (List.length padded) 64) padded in
  let '(a, b, c, d) := fold_left (fun st blk => block st (words blk)) blocks init in
  le_bytes 4 a ++ le_bytes 4 b ++ le_bytes 4 c ++ le_bytes 4 d.

Definition hex_digit (n : N) : ascii :=
  if n <? 10 then ascii_of_N (48 + n) else ascii_of_N (87 + n).

Fixpoint hex (bs : list N) : string :=
  match bs with
  | [] => EmptyString
  | b :: bs' => String (hex_digit (b / 16)) (String (hex_digit (b mod 16)) (hex bs'))
  end.

(** [s.encode()]: UTF-8, on code points below 256. *)
Fixpoint encode (s : string) : list N :=
  match s with
  | EmptyString => []
  | String c s' =>
      let n := Chr.code c in
      if n <? 128 then n :: encode s'
      else (192 + n / 64) :: (128 + n mod 64) :: encode s'
  end.

(** [hashlib.md5(bs).hexdigest()] *)
Definition hexdigest (bs : list N) : string := hex (digest bs).

End Md5.

(** ** The class [PaperDownloader] *)

Import Re.

(** [clean_title]: the pattern is the negated set of [\w] and [\s]. *)
Definition pat_not_word_space : regex := Chr (NoneOf [Word; Space]).

Definition clean_title (title : string) : string :=
  re_sub false pat_not_word_space EmptyString (Str.strip (Str.lower title)).

(** [sorted(l)] on strings, which Python compares by code points: the
    elements of [l] in increasing order. *)
Fixpoint insert_sorted (x : string) (l : list string) : list string :=
  match l with
  | [] => [x]
  | y :: l' => if String.ltb x y then x :: l else y :: insert_sorted x l'
  end.

Definition sorted (l : list string) : list string := fold_right insert_sorted [] l.

(** [generate_paper_hash]; [authors] is [None] when the argument is left
    out, and an empty list counts as false like [None]. *)
Definition generate_paper_hash (title : string) (authors : option (list string)) : string :=
  let clean_title := clean_title title in
  let hash_input :=
    match authors with
    | Some ((_ :: _) as l) =>
        let author_str :=
          Str.join (sorted (map (fun a => Str.strip (Str.lower a)) (filter Str.truthy l))) in
        clean_title ++ "_" ++ author_str
    | _ => clean_title
    end in
  Md5.hexdigest (Md5.encode hash_input).

(** The patterns of [is_paper_title_line], in the order of the source. *)
Definition skip_patterns : list regex :=
  [ seq [Bol; lit "author"; opt (ch "s"); lit ":"];            (* ^authors?: *)
    seq [Bol; lit "#"];                                        (* ^# *)
    seq [Bol; lit "best paper"; opt (ch "s"); Chr (Is Space)]; (* ^best papers?\s *)
    seq [Bol; lit "best paper"; Chr (Is Space)];               (* ^best paper\s *)
    seq [Bol; lit "best student"; Chr (Is Space)];             (* ^best student\s *)
    seq [Bol; lit "longuet-higgins"; Chr (Is Space)];          (* ^longuet-higgins\s *)
    seq [Bol; lit "test of time"; Chr (Is Space)];             (* ^test of time\s *)
    seq [Bol; lit "helmholtz"; Chr (Is Space)];                (* ^helmholtz\s *)
    seq [Bol; lit "outstanding"; Chr (Is Space)];              (* ^outstanding\s *)
    seq [Bol; lit "award candidates"];                         (* ^award candidates *)
    seq [Bol; lit "runner"; opt (ch "s"); opt (Is Space);
         lit "up"; opt (ch "s")];                              (* ^runners?\s?ups? *)
    seq [Bol; lit "content"; opt (ch "s"); Eol];               (* ^contents?$ *)
    seq [Bol; lit "["; star Dot; lit "]";
         lit "["; star Dot; lit "]"];                          (* ^\[.*\]\[.*\] *)
    seq [Bol; lit "back to top"];                              (* ^back to top *)
    seq [Bol; lit "table of contents"];                        (* ^table of contents *)
    seq [Bol; times 4 (Is Digit); star (Is Space); Eol];       (* ^\d{4}\s*$ *)
    seq [Bol; plus (ch "-"); Eol];                             (* ^-+$ *)
    seq [Bol; plus (ch "="); Eol];                             (* ^=+$ *)
    seq [Bol; plus (ch "*"); Eol];                             (* ^\*+$ *)
    seq [Bol; star (Is Space); lit "|"];                       (* ^\s*\| *)
    seq [Bol; lit "venue"; Chr (Is Space)];                    (* ^venue\s *)
    seq [Bol; lit "year"; Chr (Is Space)]                      (* ^year\s *)
  ].

(** [\[paper\]|\[pdf\]|\[link\]] *)
Definition pat_indicator : regex :=
  Alt (lit "[paper]") (Alt (lit "[pdf]") (lit "[link]")).

Definition is_paper_title_line (line : string) : bool :=
  let line := Str.strip line in
  if negb (Str.truthy line) then false
  else if existsb (fun pattern => matched (re_match true pattern line)) skip_patterns
  then false
  else if Nat.ltb (String.length line) 10 then false
  else
    let has_paper_indicator := matched (re_search true pat_indicator line) in
    let is_reasonable_title :=
      Nat.ltb 15 (String.length line)
      && negb (Str.startswith "http" line || Str.startswith "www" line
               || Str.startswith "```" line) in
    has_paper_indicator || is_reasonable_title.

(** [^(.+?)\s*\([^)]+\)\s*\[.*?\]] *)
Definition pat_title_tail : regex :=
  seq [star (Is Space); lit "("; plus (NoneOf [Lit ")"]); lit ")";
       star (Is Space); lit "["; star_lazy Dot; lit "]"].

Definition pat_title : regex :=
  seq [Bol; Group (plus_lazy Dot); pat_title_tail].

(** [\[(.+?)\]\([^)]+\)] *)
Definition pat_link_tail : regex :=
  seq [lit "]"; lit "("; plus (NoneOf [Lit ")"]); lit ")"].

Definition pat_link : regex :=
  seq [lit "["; Group (plus_lazy Dot); pat_link_tail].

(** [\s*\[.*?\]\s*$] *)
Definition pat_trailing_bracket : regex :=
  seq [star (Is Space); lit "["; star_lazy Dot; lit "]"; star (Is Space); Eol].

(** [\s*\([^)]*\d{4}[^)]*\)\s*$] *)
Definition pat_trailing_year : regex :=
  seq [star (Is Space); lit "("; star (NoneOf [Lit ")"]); times 4 (Is Digit);
       star (NoneOf [Lit ")"]); lit ")"; star (Is Space); Eol].

(** [\*\*] and [\s+] *)
Definition pat_bold : regex := lit "**".
Definition pat_spaces : regex := plus (Is Space).

(** The title before the final clean-up: the first of the three rules
    that applies. *)
Definition extract_rule (line : string) : string :=
  match re_match false pat_title line with
  | Some m => Str.strip (group1 line m)
  | None =>
      match re_search false pat_link line with
      | Some markdown_match => Str.strip (group1 line markdown_match)
      | None =>
          let title := Str.strip (re_sub false pat_trailing_bracket EmptyString line) in
          Str.strip (re_sub false pat_trailing_year EmptyString title)
      end
  end.

(** The clean-up every title goes through. *)
Definition clean_up (title : string) : string :=
  let title := re_sub false pat_bold EmptyString title in
  let title := re_sub false pat_spaces " " title in
  Str.strip title.

Definition extract_title_from_line (line : string) : string :=
  let line := Str.strip line in
  clean_up (extract_rule line).

(** A paper record, and the dictionary from section names to records;
    the dictionary keeps the order of its keys. *)
Record paper : Type := Paper {
  title : string;
  section : string;
  raw_line : string
}.

Definition sections_dict : Type := list (string * list paper).

Definition initial_sections : sections_dict :=
  [ ("CVPR", []); ("ICLR", []); ("NeurIPS", []); ("ICCV", []); ("ICML", []);
    ("ECCV", []); ("AAAI", []); ("WACV", []); ("BMVC", []);
    ("Test-of-Time-Papers", []) ].

Definition keys (d : sections_dict) : list string := map fst d.

(** [d.get(k)] *)
Fixpoint lookup (k : string) (d : sections_dict) : option (list paper) :=
  match d with
  | [] => None
  | (k', v) :: d' => if String.eqb k k' then Some v else lookup k d'
  end.

(** [d[k].append(p)]; the key is always one of the dictionary's here, and
    a dictionary without it is left as it is. *)
Fixpoint append_paper (k : string) (p : paper) (d : sections_dict) : sections_dict :=
  match d with
  | [] => []
  | (k', v) :: d' =>
      if String.eqb k k' then (k', (v ++ [p])%list) :: d' else (k', v) :: append_paper k p d'
  end.

(** [#+\s*test\s+of\s+time\s+papers?(?:\s|$)] *)
Definition pat_test_of_time : regex :=
  seq [plus (ch "#"); star (Is Space); lit "test"; plus (Is Space); lit "of";
       plus (Is Space); lit "time"; plus (Is Space); lit "paper"; opt (ch "s");
       Alt (Chr (Is Space)) Eol].

(** [#+\s*NAME(?:\s|$)] with [NAME] escaped *)
Definition pat_section (section_name : string) : regex :=
  seq [plus (ch "#"); star (Is Space); lit section_name; Alt (Chr (Is Space)) Eol].

(** The inner loop over [sections.keys()]: the first section whose
    header pattern matches the line. *)
Fixpoint find_section (names : list string) (line_stripped : string) : option string :=
  match names with
  | [] => None
  | section_name :: names' =>
      if String.eqb section_name "Test-of-Time-Papers" then
        if matched (re_match true pat_test_of_time line_stripped)
        then Some section_name
        else find_section names' line_stripped
      else
        if matched (re_match true (pat_section section_name) line_stripped)
        then Some section_name
        else find_section names' line_stripped
  end.

Definition banned : list string :=
  [ "readme"; "back to top"; "table of contents"; "best papers";
    "best paper"; "authors:"; "venue:"; "year:" ].

(** The final validation of a title. *)
Definition valid_title (title : string) : bool :=
  Nat.ltb 10 (String.length title)
  && negb (existsb (fun skip => Str.contains skip (Str.lower title)) banned).

(** The state of the scan: the current section and the dictionary. *)
Definition scan_state : Type := (option string * sections_dict)%type.

(** One turn of the loop over the lines. *)
Definition scan_line (st : scan_state) (line : string) : scan_state :=
  let '(current_section, sections) := st in
  let line_stripped := Str.strip line in
  match find_section (keys sections) line_stripped with
  | Some section_name => (Some section_name, sections)
  | None =>
      match current_section with
      | Some cs =>
          if Str.truthy cs && is_paper_title_line line_stripped then
            let title := extract_title_from_line line_stripped in
            if valid_title title
            then (current_section, append_paper cs (Paper title cs line) sections)
            else st
          else st
      | None => st
      end
  end.

Definition scan (lines : list string) : scan_state :=
  fold_left scan_line lines (None, initial_sections).

Definition parse_papers_from_main_readme (content : string) : sections_dict :=
  if negb (Str.truthy content) then []
  else snd (scan (Str.split_on Chr.nl content)).

(** The set of the nine characters a file name may not have: the angle
    brackets, the colon, the double quote, the two slashes, the bar, the
    question mark and the star. *)
Definition pat_invalid : regex :=
  Chr (OneOf [Lit "<"; Lit ">"; Lit ":"; Lit Chr.dquote; Lit "/"; Lit "\";
              Lit "|"; Lit "?"; Lit "*"]).

Definition sanitize_filename (title : string) (section : string) : string :=
  let safe_title := re_sub false pat_invalid EmptyString title in
  let safe_title := Str.replace_char Chr.cr " " (Str.replace_char Chr.nl " " safe_title) in
  let safe_title := re_sub false pat_spaces "_" (Str.strip safe_title) in
  let safe_title :=
    if Nat.ltb 80 (String.length safe_title) then Str.take 80 safe_title else safe_title in
  let safe_title :=
    if Str.truthy section then section ++ "_" ++ safe_title else safe_title in
  safe_title ++ ".pdf".


(** ** Notions the statements are written with *)

(** The ten configured section names, in the order of the dictionary. *)
Definition section_names : list string := keys initial_sections.

(** The lines of a document. *)
Definition lines_of (content : string) : list string := Str.split_on Chr.nl content.

(** A line is a recognised header when some section's pattern matches it. *)
Definition is_header_line (line : string) : bool :=
  match find_section section_names (Str.strip line) with
  | Some _ => true
  | None => false
  end.

(** The number of records of a parse result, over all its sections. *)
Definition total_papers (d : sections_dict) : nat :=
  fold_right (fun kv n => List.length (snd kv) + n) 0 d.

(** The lines classified as paper title lines while a section is active,
    each with the section that is active there; [cur] is the section that
    is active before the first of [lines]. *)
Fixpoint title_lines (cur : option string) (lines : list string)
    : list (string * string) :=
  match lines with
  | [] => []
  | l :: ls =>
      match find_section section_names (Str.strip l) with
      | Some name => title_lines (Some name) ls
      | None =>
          match cur with
          | Some cs =>
              if is_paper_title_line l then (cs, l) :: title_lines cur ls
              else title_lines cur ls
          | None => title_lines cur ls
          end
      end
  end.

(** A title line whose extracted title passes the final validation. *)
Definition accepted (sl : string * string) : bool :=
  valid_title (extract_title_from_line (snd sl)).

Definition nl : string := String Chr.nl EmptyString.

(** *** What a pattern matches

    [lang ic r p w s'] says that [r] can match the word [w] at position
    [p] of the subject when [s'] is what follows [w] there. *)

Definition hi_ok (hi : option nat) (n : nat) : Prop :=
  match hi with
  | None => True
  | Some h => n <= h
  end.

Fixpoint lang (ic : bool) (r : regex) (p : nat) (w s' : string) : Prop :=
  match r with
  | Eps => w = EmptyString
  | Chr c => exists a, w = String a EmptyString /\ cmatch ic c a = true
  | Rep c lo hi _ =>
      Str.all (cmatch ic c) w = true /\ lo <= String.length w
      /\ hi_ok hi (String.length w)
  | Bol => w = EmptyString /\ p = 0
  | Eol => w = EmptyString /\ at_end s' = true
  | Seq r1 r2 =>
      exists w1 w2, w = w1 ++ w2 /\ lang ic r1 p w1 (w2 ++ s')
                    /\ lang ic r2 (p + String.length w1) w2 s'
  | Alt r1 r2 => lang ic r1 p w s' \/ lang ic r2 p w s'
  | Group r1 => lang ic r1 p w s'
  end.

(** The two moves of a repetition: one more character, or stop here. *)
Definition rep_take (ic : bool) (c : cclass) (greedy : bool) (lo : nat) (hi : option nat)
    (p : nat) (s : string) (g : option (nat * nat)) (k : mstate -> option mstate)
    : option mstate :=
  match hi, s with
  | Some O, _ => None
  | _, EmptyString => None
  | _, String a s' =>
      if cmatch ic c a then rep ic c greedy (pred lo) (dec_hi hi) (S p) s' g k else None
  end.

Definition rep_stop (lo : nat) (p : nat) (s : string) (g : option (nat * nat))
    (k : mstate -> option mstate) : option mstate :=
  match lo with
  | O => k (MState p s g)
  | S _ => None
  end.

(** A pattern without the capturing group. *)
Fixpoint groupless (r : regex) : bool :=
  match r with
  | Seq r1 r2 | Alt r1 r2 => groupless r1 && groupless r2
  | Group _ => false
  | _ => true
  end.

(** A continuation that succeeds at [(p, s)] whatever the group is. *)
Definition accepts (k : mstate -> option mstate) (p : nat) (s : string) : Prop :=
  forall g, k (MState p s g) <> None.

(** Every character of [s] is a space, or is not [c]. *)
Definition spaces (s : string) : Prop := Str.all Chr.isspace s = true.

Definition without (c : ascii) (s : string) : Prop :=
  Str.all (fun a => negb (Ascii.eqb a c)) s = true.

(** [tail] starts, after optional spaces, with a parenthetical that is
    followed, after optional spaces, by a bracketed segment. *)
Definition paren_bracket_tail (tail : string) : Prop :=
  exists ws1 paren ws2 brack rest,
    tail = ws1 ++ "(" ++ paren ++ ")" ++ ws2 ++ "[" ++ brack ++ "]" ++ rest
    /\ spaces ws1 /\ paren <> EmptyString /\ without ")" paren
    /\ spaces ws2 /\ without Chr.nl brack.

(** [line] reads [text (parenthetical) [bracketed]], possibly with more
    after it. *)
Definition title_form (line text : string) : Prop :=
  text <> EmptyString /\ without Chr.nl text
  /\ exists tail, line = text ++ tail /\ paren_bracket_tail tail.

(** The reading with the shortest [text]. *)
Definition first_title_form (line text : string) : Prop :=
  title_form line text
  /\ forall text', title_form line text' -> String.length text <= String.length text'.

(** [tail] closes a markdown link: the bracket, then the target in
    parentheses. *)
Definition link_tail (tail : string) : Prop :=
  exists url rest,
    tail = "](" ++ url ++ ")" ++ rest /\ url <> EmptyString /\ without ")" url.

(** [line] has the markdown link [[label](url)] after [pre]. *)
Definition link_form (line pre label : string) : Prop :=
  label <> EmptyString /\ without Chr.nl label
  /\ exists tail, line = pre ++ "[" ++ label ++ tail /\ link_tail tail.

(** The reading that starts leftmost and, among those, has the shortest
    label. *)
Definition first_link_form (line pre label : string) : Prop :=
  link_form line pre label
  /\ forall pre' label', link_form line pre' label' ->
       String.length pre < String.length pre'
       \/ (String.length pre = String.length pre'
           /\ String.length label <= String.length label').


(** Every character of [s] is the header marker. *)
Definition hashes (s : string) : Prop :=
  Str.all (fun a => Ascii.eqb a "#") s = true.

(** [s] is a header line of the Test-of-Time section: header markers,
    optional spaces, the words test, of, time and paper in any case with
    spaces between them, an optional plural, and then the end of the line
    or a space. *)
Definition test_of_time_header (s : string) : Prop :=
  exists hs ws0 w1 ws1 w2 ws2 w3 ws3 w4 plural rest,
    s = hs ++ ws0 ++ w1 ++ ws1 ++ w2 ++ ws2 ++ w3 ++ ws3 ++ w4 ++ plural ++ rest
    /\ hs <> EmptyString /\ hashes hs /\ spaces ws0
    /\ Str.lower w1 = "test" /\ ws1 <> EmptyString /\ spaces ws1
    /\ Str.lower w2 = "of" /\ ws2 <> EmptyString /\ spaces ws2
    /\ Str.lower w3 = "time" /\ ws3 <> EmptyString /\ spaces ws3
    /\ Str.lower w4 = "paper"
    /\ (plural = EmptyString \/ Str.lower plural = "s")
    /\ (rest = EmptyString \/ exists c r, rest = String c r /\ Chr.isspace c = true).

(** The text after the header markers and the spaces that follow them. *)
Fixpoint drop_hashes (s : string) : string :=
  match s with
  | EmptyString => EmptyString
  | String c s' => if Ascii.eqb c "#" then drop_hashes s' else s
  end.

Definition after_marks (s : string) : string := Str.lstrip (drop_hashes s).

Definition test_of_time : string := "Test-of-Time-Papers".

Definition doc_prose : string :=
  "A list of the best papers" ++ nl ++ "Awesome Detection Method (CVPR 2023) [Paper]".

Definition doc_short_title : string :=
  "# CVPR" ++ nl ++ "Tiny (CVPR 2023) [Paper]".

Definition doc_cvpr_iclr : string :=
  "#### CVPR" ++ nl ++ "Awesome Detection Method (CVPR 2023) [Paper]" ++ nl
  ++ "#### ICLR" ++ nl.

Definition doc_test_of_time : string :=
  "### Test of Time Papers" ++ nl ++ "A Seminal Work on Vision (2015) [Paper]" ++ nl.

(** [line] starts, once trimmed, with the label Authors or Author and a
    colon, in any case. *)
Definition authors_label (line : string) : Prop :=
  Str.startswith "author:" (Str.lower (Str.strip line)) = true
  \/ Str.startswith "authors:" (Str.lower (Str.strip line)) = true.

(** A record is filed under the section it names. *)
Definition well_filed (d : sections_dict) : Prop :=
  forall k v r, In (k, v) d -> In r v -> section r = k.

(** What the loop keeps true: the keys are the configured names, the
    current section is one of them, and the records are well filed. *)
Definition scan_inv (st : scan_state) : Prop :=
  keys (snd st) = section_names
  /\ (forall cs, fst st = Some cs -> In cs section_names)
  /\ well_filed (snd st).

(** Every record comes from a line that was classified as a title line. *)
Definition from_title_lines (d : sections_dict) : Prop :=
  forall k v r, In (k, v) d -> In r v -> is_paper_title_line (raw_line r) = true.

(** [''.join(c for c in s if p(c))] *)
Fixpoint str_filter (p : ascii -> bool) (s : string) : string :=
  match s with
  | EmptyString => EmptyString
  | String c s' => if p c then String c (str_filter p s') else str_filter p s'
  end.

(** The characters that [sanitize_filename] removes. *)
Definition invalid_char (c : ascii) : bool :=
  existsb (Ascii.eqb c) ["<"; ">"; ":"; Chr.dquote; "/"; "\"; "|"; "?"; "*"]%char.

(** The length of the longest prefix of [s] whose characters satisfy [f]. *)
Fixpoint run_length (f : ascii -> bool) (s : string) : nat :=
  match s with
  | EmptyString => 0
  | String a s' => if f a then S (run_length f s') else 0
  end.

(** Every run of spaces replaced by one underscore; [in_run] says that
    the run has begun before [s]. *)
Fixpoint collapse_from (in_run : bool) (s : string) : string :=
  match s with
  | EmptyString => EmptyString
  | String a s' =>
      if Chr.isspace a then
        if in_run then collapse_from true s' else String "_" (collapse_from true s')
      else String a (collapse_from false s')
  end.

Definition collapse_spaces (s : string) : string := collapse_from false s.

(** The body of the file name: the title without the nine invalid
    characters, trimmed, with an underscore for every run of spaces, cut
    at 80 characters. *)
Definition filename_body (title : string) : string :=
  Str.take 80
    (collapse_spaces (Str.strip (str_filter (fun c => negb (invalid_char c)) title))).

(** The title once the invalid characters are removed and the runs of
    spaces are underscores, before the cut at 80 characters. *)
Definition underscored (title : string) : string :=
  re_sub false pat_spaces "_"
    (Str.strip
       (Str.replace_char Chr.cr " "
          (Str.replace_char Chr.nl " " (re_sub false pat_invalid EmptyString title)))).

(** The key of a title: its lower-case form, trimmed, with the word and
    space characters only. *)
Definition title_key (title : string) : string :=
  str_filter (fun c => Chr.isword c || Chr.isspace c) (Str.strip (Str.lower title)).

(** The same without the trimming: the title in lower case with the
    word and space characters only. *)
Definition title_letters (title : string) : string :=
  str_filter (fun c => Chr.isword c || Chr.isspace c) (Str.lower title).

(** The lines of the examples. *)
Definition line_with_link : string :=
  "Awesome Detection Method (CVPR 2023) [Paper](https://example.com/p.pdf)".


Definition line_authors : string := "Authors: Jane Doe, John Smith".

Definition title_with_mark : string := "Deep Learning !".
Definition title_with_space : string := "Deep Learning ".


(** The record the loop files for a title line: the section that is
    active there, the line, and the title extracted from it. *)
Definition record_of (sl : string * string) : paper :=
  Paper (extract_title_from_line (snd sl)) (fst sl) (snd sl).

(** The records of one section among the title lines [tl]. *)
Definition section_records (name : string) (tl : list (string * string)) : list paper :=
  map record_of (filter (fun sl => String.eqb name (fst sl)) tl).

(** What holds of every record of a scan whose lines are among [doc]. *)
Definition record_ok (doc : list string) (r : paper) : Prop :=
  In (raw_line r) doc
  /\ is_paper_title_line (raw_line r) = true
  /\ title r = extract_title_from_line (raw_line r)
  /\ valid_title (title r) = true
  /\ In (section r) section_names.

(** ** The run: [process_papers] and what it calls

    The counters of one section, with the value the [defaultdict] gives
    to a section it has not seen. *)
Module SectionStats.

Record t : Type := Make {
  total : nat;
  downloaded : nat;
  already_existed : nat;
  failed : nat
}.

Definition zero : t := Make 0 0 0 0.

Definition set_total (n : nat) (s : t) : t :=
  Make n (downloaded s) (already_existed s) (failed s).
Definition incr_downloaded (s : t) : t :=
  Make (total s) (S (downloaded s)) (already_existed s) (failed s).
Definition incr_already_existed (s : t) : t :=
  Make (total s) (downloaded s) (S (already_existed s)) (failed s).
Definition incr_failed (s : t) : t :=
  Make (total s) (downloaded s) (already_existed s) (S (failed s)).

End SectionStats.

(** [self.stats] *)
Module Stats.

Record t : Type := Make {
  total_papers : nat;
  unique_papers : nat;
  downloaded : nat;
  already_existed : nat;
  failed : nat;
  sections : list (string * SectionStats.t)
}.

End Stats.

(** What the two searches return: a dictionary with the key [found] and,
    when something was found, the keys [pdf_url], [title] and [authors];
    a missing [pdf_url] or [title] is [None] and missing [authors] are
    the empty list, which is how [process_papers] reads them. *)
Module Result.

Record t : Type := Make {
  found : bool;
  pdf_url : option string;
  title : option string;
  authors : list string;
  error : option string;
  source : string
}.

End Result.

(** A value of Python as the run reads the answers of Semantic Scholar,
    which come from JSON: a [str], or [None], or a value of another type
    (a number, a list, a dictionary, ...), of which the run reads only
    whether it is true. *)
Inductive value : Type :=
| PyStr (s : string)
| PyNone
| PyOther (truth : bool).

(** [bool(v)] *)
Definition truthy (v : value) : bool :=
  match v with
  | PyStr s => Str.truthy s
  | PyNone => false
  | PyOther truth => truth
  end.

(** What [process_papers] reads of the dictionary a search returns:
    [result['found']], [result.get('pdf_url')], which is [None] without
    the key, [result.get('authors', [])] and [result.get('source', '')].
    The search on Semantic Scholar fills [pdf_url] and the names of the
    authors with what the service sent, of whatever type. *)
Module Answer.

Record t : Type := Make {
  found : bool;
  pdf_url : value;
  authors : list value;
  source : string
}.

(** The dictionary of [search_arxiv], whose values are all [str]. *)
Definition of_result (r : Result.t) : t :=
  Make (Result.found r)
    match Result.pdf_url r with
    | Some url => PyStr url
    | None => PyNone
    end
    (map PyStr (Result.authors r)) (Result.source r).

End Answer.

(** An exception: the [TypeError] of [str.join], or what a report
    raises. *)
Inductive exn : Type :=
| TypeError
| Other (e : string).

(** How a call ends. *)
Inductive completion : Type :=
| Returned
| Raised (e : exn).

(** The rows of the two sheets. *)
Module Downloaded.

Record row : Type := Row {
  paper_title : string;
  authors : string;
  conference_section : string;
  filename : string;
  source : string;
  status : string
}.

End Downloaded.

Module Failed.

Record row : Type := Row {
  paper_title : string;
  authors : string;
  conference_section : string;
  reason : string;
  pdf_url : value;
  source : string
}.

End Failed.

(** The object: the fields of [self] that change, and the key. *)
Record downloader : Type := Downloader {
  ss_api_key : string;
  stats : Stats.t;
  unique_papers : list (string * paper);
  downloaded_papers : list Downloaded.row;
  failed_papers : list Failed.row
}.

(** [__init__]; the directory it makes belongs to the world. *)
Definition PaperDownloader (semantic_scholar_api_key : string) : downloader :=
  Downloader semantic_scholar_api_key (Stats.Make 0 0 0 0 0 []) [] [] [].

Definition set_stats (s : Stats.t) (self : downloader) : downloader :=
  Downloader (ss_api_key self) s (unique_papers self)
    (downloaded_papers self) (failed_papers self).

(** [sep.join(l)] *)
Fixpoint join_with (sep : string) (l : list string) : string :=
  match l with
  | [] => EmptyString
  | [s] => s
  | s :: l' => s ++ sep ++ join_with sep l'
  end.

(** The items of a list when all of them are [str]. *)
Fixpoint strings_of (l : list value) : option (list string) :=
  match l with
  | [] => Some []
  | PyStr s :: l' => option_map (cons s) (strings_of l')
  | _ :: _ => None
  end.

(** [sep.join(l)] on a list of values: a [TypeError] unless every item
    is a [str]. *)
Definition join_values (sep : string) (l : list value) : exn + string :=
  match strings_of l with
  | Some items => inr (join_with sep items)
  | None => inl TypeError
  end.

(** [d[section] = f(d[section])] on the [defaultdict] of the sections: a
    section that has no entry gets one, after the others. *)
Fixpoint update_section (name : string) (f : SectionStats.t -> SectionStats.t)
    (d : list (string * SectionStats.t)) : list (string * SectionStats.t) :=
  match d with
  | [] => [(name, f SectionStats.zero)]
  | (k, v) :: d' =>
      if String.eqb name k then (k, f v) :: d' else (k, v) :: update_section name f d'
  end.

(** The first loop of [process_papers], over the items of the parse
    result: the counters and [all_papers]. *)
Definition count_section (acc : Stats.t * list paper) (item : string * list paper)
    : Stats.t * list paper :=
  let '(s, all_papers) := acc in
  let '(name, papers) := item in
  match papers with
  | [] => acc
  | _ :: _ =>
      (Stats.Make (Stats.total_papers s + List.length papers) (Stats.unique_papers s)
         (Stats.downloaded s) (Stats.already_existed s) (Stats.failed s)
         (update_section name (SectionStats.set_total (List.length papers))
            (Stats.sections s)),
       (all_papers ++ papers)%list)
  end.

(** [paper_hash in self.unique_papers] *)
Definition has_key (k : string) (d : list (string * paper)) : bool :=
  existsb (fun kv => String.eqb k (fst kv)) d.

(** The second loop: a paper is kept when its hash is new. *)
Definition keep_unique (unique : list (string * paper)) (p : paper)
    : list (string * paper) :=
  let paper_hash := generate_paper_hash (title p) None in
  if has_key paper_hash unique then unique else (unique ++ [(paper_hash, p)])%list.

(** The three branches of the third loop: each adds one to a counter of
    the object and to the same counter of the section, and then appends
    a row. *)
Definition count_already_existed (name : string) (self : downloader) : downloader :=
  let s := stats self in
  Downloader (ss_api_key self)
    (Stats.Make (Stats.total_papers s) (Stats.unique_papers s) (Stats.downloaded s)
       (S (Stats.already_existed s)) (Stats.failed s)
       (update_section name SectionStats.incr_already_existed (Stats.sections s)))
    (unique_papers self) (downloaded_papers self) (failed_papers self).

Definition count_downloaded (name : string) (self : downloader) : downloader :=
  let s := stats self in
  Downloader (ss_api_key self)
    (Stats.Make (Stats.total_papers s) (Stats.unique_papers s) (S (Stats.downloaded s))
       (Stats.already_existed s) (Stats.failed s)
       (update_section name SectionStats.incr_downloaded (Stats.sections s)))
    (unique_papers self) (downloaded_papers self) (failed_papers self).

Definition count_failed (name : string) (self : downloader) : downloader :=
  let s := stats self in
  Downloader (ss_api_key self)
    (Stats.Make (Stats.total_papers s) (Stats.unique_papers s) (Stats.downloaded s)
       (Stats.already_existed s) (S (Stats.failed s))
       (update_section name SectionStats.incr_failed (Stats.sections s)))
    (unique_papers self) (downloaded_papers self) (failed_papers self).

(** [self.downloaded_papers.append(r)] and [self.failed_papers.append(r)] *)
Definition append_downloaded (r : Downloaded.row) (self : downloader) : downloader :=
  Downloader (ss_api_key self) (stats self) (unique_papers self)
    (downloaded_papers self ++ [r])%list (failed_papers self).

Definition append_failed (r : Failed.row) (self : downloader) : downloader :=
  Downloader (ss_api_key self) (stats self) (unique_papers self)
    (downloaded_papers self) (failed_papers self ++ [r])%list.

(** The patterns of [search_arxiv]:
    [<link title=.pdf. href=.(.*?).] where each [.] outside the group is
    the double quote, [<title>(.*?)</title>] and [<name>(.*?)</name>]. *)
Definition pat_arxiv_pdf : regex :=
  seq [lit "<link title="; Chr (ch Chr.dquote); lit "pdf"; Chr (ch Chr.dquote);
       lit " href="; Chr (ch Chr.dquote); Group (star_lazy Dot); Chr (ch Chr.dquote)].

Definition pat_arxiv_title : regex :=
  seq [lit "<title>"; Group (star_lazy Dot); lit "</title>"].

Definition pat_arxiv_name : regex :=
  seq [lit "<name>"; Group (star_lazy Dot); lit "</name>"].

(** The scan of [re.findall] for a pattern with one group: the group of
    every match, from left to right; [s0] is the whole subject, [s] is
    the subject from position [p] on and [skip] counts the characters of
    [s] that the last match still covers.  After an empty match the next
    match has to be non-empty, or to start further on. *)
Fixpoint findall_scan (ic : bool) (r : regex) (s0 : string) (p : nat) (skip : nat)
    (s : string) {struct s} : list string :=
  match skip with
  | S n =>
      match s with
      | EmptyString => []
      | String _ s' => findall_scan ic r s0 (S p) n s'
      end
  | O =>
      match match_at ic r false p s with
      | Some m =>
          match m_stop m - p with
          | O =>
              group1 s0 m ::
              match s with
              | EmptyString => []
              | String a s' =>
                  match match_at ic r true p s with
                  | Some m' =>
                      group1 s0 m' :: findall_scan ic r s0 (S p) (m_stop m' - p - 1) s'
                  | None => findall_scan ic r s0 (S p) 0 s'
                  end
              end
          | S n =>
              group1 s0 m ::
              match s with
              | EmptyString => []
              | String _ s' => findall_scan ic r s0 (S p) n s'
              end
          end
      | None =>
          match s with
          | EmptyString => []
          | String a s' => findall_scan ic r s0 (S p) 0 s'
          end
      end
  end.

(** [re.findall(r, s)] for a pattern with one group. *)
Definition re_findall (ic : bool) (r : regex) (s : string) : list string :=
  findall_scan ic r s 0 0 s.

(** What [search_arxiv] makes of an answer with status 200. *)
Definition arxiv_entry (query_title content : string) : Result.t :=
  if Str.contains "<entry>" content then
    let pdf_match := re_search false pat_arxiv_pdf content in
    let title_match := re_search false pat_arxiv_title content in
    let author_matches := re_findall false pat_arxiv_name content in
    match pdf_match with
    | Some m =>
        Result.Make true (Some (group1 content m))
          (Some match title_match with
                | Some tm => group1 content tm
                | None => query_title
                end)
          author_matches None "arxiv"
    | None => Result.Make false None None [] None "arxiv"
    end
  else Result.Make false None None [] None "arxiv".

Definition readme_url : string :=
  "https://raw.githubusercontent.com/SarahRastegar/Best-Papers-Top-Venues/main/README.md".

Definition arxiv_base_url : string := "http://export.arxiv.org/api/query".

(** The parameters of the query to arXiv; the title is between double
    quotes. *)
Definition arxiv_params (query_title : string) : list (string * string) :=
  [ ("search_query",
     "ti:" ++ String Chr.dquote (query_title ++ String Chr.dquote EmptyString));
    ("start", "0"); ("max_results", "1") ].

Section Run.

(** The world outside the program, and the calls that reach it.
    [requests_get url params] answers with the status and the text, or
    with the message of the exception it raises.  The search on Semantic
    Scholar and the download with its check of the file system are taken
    as they are: both catch what is raised in them, and the download
    returns a truth value and a [str].  The two reports do not change
    the object, and may raise.  [print] and [time.sleep] are taken to
    return, and no interrupt arrives. *)
Context {world : Type}.
Variable requests_get :
  string -> list (string * string) -> world -> (string + nat * string) * world.
Variable search_semantic_scholar : string -> string -> world -> Answer.t * world.
Variable download_pdf : value -> string -> world -> (bool * string) * world.
Variable generate_reports : downloader -> world -> completion * world.
Variable create_excel_report : downloader -> world -> completion * world.

Definition fetch_main_readme (w : world) : option string * world :=
  match requests_get readme_url [] w with
  | (inr (status_code, text), w') =>
      if Nat.eqb status_code 200 then (Some text, w') else (None, w')
  | (inl _, w') => (None, w')
  end.

Definition search_arxiv (query_title : string) (w : world) : Result.t * world :=
  match requests_get arxiv_base_url (arxiv_params query_title) w with
  | (inr (status_code, content), w') =>
      if Nat.eqb status_code 200 then (arxiv_entry query_title content, w')
      else (Result.Make false None None [] None "arxiv", w')
  | (inl e, w') => (Result.Make false None None [] (Some e) "arxiv", w')
  end.

(** One turn of the third loop, for one item of [self.unique_papers].
    In each branch the counters are incremented first; the row is then
    built, and [join] raises when a name is no [str]: the turn ends there,
    with the counters incremented and no row appended. *)
Definition download_step (acc : downloader * world) (item : string * paper)
    : (downloader * world) * completion :=
  let '(self, w) := acc in
  let p := snd item in
  let '(result, w) := search_semantic_scholar (ss_api_key self) (title p) w in
  let '(result, w) :=
    if negb (Answer.found result)
    then let '(r, w) := search_arxiv (title p) w in (Answer.of_result r, w)
    else (result, w) in
  if Answer.found result && truthy (Answer.pdf_url result) then
    let filename := sanitize_filename (title p) (section p) in
    let '((success, status), w) := download_pdf (Answer.pdf_url result) filename w in
    if success then
      if String.eqb status "already_exists" then
        let self := count_already_existed (section p) self in
        match join_values "; " (Answer.authors result) with
        | inr authors =>
            ((append_downloaded
                (Downloaded.Row (title p) authors (section p) filename
                   (Answer.source result) "Already Existed") self, w),
             Returned)
        | inl e => ((self, w), Raised e)
        end
      else
        let self := count_downloaded (section p) self in
        match join_values "; " (Answer.authors result) with
        | inr authors =>
            ((append_downloaded
                (Downloaded.Row (title p) authors (section p) filename
                   (Answer.source result) "Downloaded") self, w),
             Returned)
        | inl e => ((self, w), Raised e)
        end
    else
      let self := count_failed (section p) self in
      match join_values "; " (Answer.authors result) with
      | inr authors =>
          ((append_failed
              (Failed.Row (title p) authors (section p) ("Download failed: " ++ status)
                 (Answer.pdf_url result) (Answer.source result)) self, w),
           Returned)
      | inl e => ((self, w), Raised e)
      end
  else
    let self := count_failed (section p) self in
    match match Answer.authors result with
          | [] => inr EmptyString
          | l => join_values "; " l
          end with
    | inr authors =>
        ((append_failed
            (Failed.Row (title p) authors (section p) "PDF not found"
               (PyStr EmptyString) (Answer.source result)) self, w),
         Returned)
    | inl e => ((self, w), Raised e)
    end.

(** The third loop: it ends with the first turn that raises. *)
Fixpoint download_loop (items : list (string * paper)) (acc : downloader * world)
    : (downloader * world) * completion :=
  match items with
  | [] => (acc, Returned)
  | item :: items' =>
      match download_step acc item with
      | (acc', Returned) => download_loop items' acc'
      | (acc', Raised e) => (acc', Raised e)
      end
  end.

(** The method: the object and the world it leaves, and how it ends.
    What the third loop or a report raises is caught nowhere. *)
Definition process_papers (self : downloader) (w : world)
    : (downloader * world) * completion :=
  let '(content, w) := fetch_main_readme w in
  match content with
  | None => ((self, w), Returned)
  | Some content =>
      if negb (Str.truthy content) then ((self, w), Returned)
      else
        let sections_papers := parse_papers_from_main_readme content in
        let '(s, all_papers) := fold_left count_section sections_papers (stats self, []) in
        let self := set_stats s self in
        if Nat.eqb (Stats.total_papers (stats self)) 0 then ((self, w), Returned)
        else
          let unique := fold_left keep_unique all_papers (unique_papers self) in
          let s := stats self in
          let self :=
            Downloader (ss_api_key self)
              (Stats.Make (Stats.total_papers s) (List.length unique) (Stats.downloaded s)
                 (Stats.already_existed s) (Stats.failed s) (Stats.sections s))
              unique (downloaded_papers self) (failed_papers self) in
          match download_loop (unique_papers self) (self, w) with
          | ((self, w), Raised e) => ((self, w), Raised e)
          | ((self, w), Returned) =>
              match generate_reports self w with
              | (Raised e, w) => ((self, w), Raised e)
              | (Returned, w) =>
                  let '(ended, w) := create_excel_report self w in
                  ((self, w), ended)
              end
          end
  end.

(** The text a run works on: what [fetch_main_readme] returns, or the
    empty text when it returns [None]. *)
Definition fetched (w : world) : string :=
  match fst (fetch_main_readme w) with
  | Some content => content
  | None => EmptyString
  end.

(** The object after [process_papers] on an object that [__init__] has
    just made. *)
Definition first_run (key : string) (w : world) : downloader :=
  fst (fst (process_papers (PaperDownloader key) w)).

(** How that call ends. *)
Definition first_run_ended (key : string) (w : world) : completion :=
  snd (process_papers (PaperDownloader key) w).

End Run.

(** *** Notions for the run *)

(** The records of a parse result, section after section. *)
Definition all_records (d : sections_dict) : list paper := concat (map snd d).

(** The papers that are kept, with their hashes, from no paper at all. *)
Definition dedup (l : list paper) : list (string * paper) := fold_left keep_unique l [].

(** The hash under which [process_papers] keeps a paper. *)
Definition paper_key (p : paper) : string := generate_paper_hash (title p) None.

Definition has_records (kv : string * list paper) : bool :=
  match snd kv with
  | [] => false
  | _ :: _ => true
  end.

(** The counters of the sections after the first loop of a first run. *)
Definition section_totals (d : sections_dict) : list (string * SectionStats.t) :=
  map (fun kv => (fst kv, SectionStats.Make (List.length (snd kv)) 0 0 0))
    (filter has_records d).

(** The object of a first run when the third loop begins. *)
Definition prepared (key content : string) : downloader :=
  let d := parse_papers_from_main_readme content in
  Downloader key
    (Stats.Make (List.length (all_records d)) (List.length (dedup (all_records d)))
       0 0 0 (section_totals d))
    (dedup (all_records d)) [] [].

(** The number of papers of [l] that are of section [name]. *)
Definition section_count (name : string) (l : list paper) : nat :=
  List.length (filter (fun p => String.eqb name (section p)) l).

(** The title and the section a row is about. *)
Definition downloaded_about (r : Downloaded.row) : string * string :=
  (Downloaded.paper_title r, Downloaded.conference_section r).

Definition failed_about (r : Failed.row) : string * string :=
  (Failed.paper_title r, Failed.conference_section r).

Definition paper_about (p : paper) : string * string := (title p, section p).

(** [p] is the first paper of [l] whose hash is [h]. *)
Definition first_with_key (h : string) (p : paper) (l : list paper) : Prop :=
  exists l1 l2,
    l = (l1 ++ p :: l2)%list /\ paper_key p = h
    /\ forall q, In q l1 -> paper_key q <> h.

(** The sum of one counter over the sections. *)
Definition sum_of (f : SectionStats.t -> nat) (d : list (string * SectionStats.t)) : nat :=
  fold_right (fun kv n => f (snd kv) + n) 0 d.

(** A character a file name may have: none of the nine invalid ones, and
    no space. *)
Definition filename_char (c : ascii) : bool :=
  negb (invalid_char c) && negb (Chr.isspace c).

(** What the second loop keeps true: [seen] are the papers that have had
    their turn. *)
Definition kept (seen : list paper) (U : list (string * paper)) : Prop :=
  NoDup (map fst U)
  /\ (forall q, In q seen -> In (paper_key q) (map fst U))
  /\ (forall h p, In (h, p) U -> first_with_key h p seen).

(** What the third loop keeps true; [done] are the papers that have had
    their turn.  First, the counters of the object. *)
Definition balanced (done : list paper) (self : downloader) : Prop :=
  Stats.downloaded (stats self) + Stats.already_existed (stats self)
  + Stats.failed (stats self) = List.length done
  /\ List.length (downloaded_papers self)
     = Stats.downloaded (stats self) + Stats.already_existed (stats self)
  /\ List.length (failed_papers self) = Stats.failed (stats self).

(** What the loop does not touch. *)
Definition same_papers (self0 self : downloader) : Prop :=
  unique_papers self = unique_papers self0
  /\ Stats.unique_papers (stats self) = Stats.unique_papers (stats self0)
  /\ Stats.total_papers (stats self) = Stats.total_papers (stats self0).

(** The counters of the sections, for the parse result [d]. *)
Definition sections_counted (d : sections_dict) (done : list paper)
    (self : downloader) : Prop :=
  map fst (Stats.sections (stats self)) = map fst (section_totals d)
  /\ forall name s, In (name, s) (Stats.sections (stats self)) ->
       0 < SectionStats.total s
       /\ SectionStats.total s = section_count name (all_records d)
       /\ SectionStats.downloaded s + SectionStats.already_existed s
          + SectionStats.failed s = section_count name done.

(** The counters of the sections against those of the object. *)
Definition sections_add_up (s : Stats.t) : Prop :=
  sum_of SectionStats.total (Stats.sections s) = Stats.total_papers s
  /\ sum_of SectionStats.downloaded (Stats.sections s) = Stats.downloaded s
  /\ sum_of SectionStats.already_existed (Stats.sections s) = Stats.already_existed s
  /\ sum_of SectionStats.failed (Stats.sections s) = Stats.failed s.

(** A row of the first sheet as the loop writes it. *)
Definition downloaded_row_ok (r : Downloaded.row) : Prop :=
  Downloaded.filename r
  = sanitize_filename (Downloaded.paper_title r) (Downloaded.conference_section r)
  /\ (Downloaded.status r = "Downloaded" \/ Downloaded.status r = "Already Existed").

(** A row of the second sheet: no address was found, or the download of
    the address failed with some message. *)
Definition failed_row_ok (r : Failed.row) : Prop :=
  Failed.reason r = "PDF not found" /\ Failed.pdf_url r = PyStr EmptyString
  \/ exists status, Failed.reason r = "Download failed: " ++ status
                    /\ truthy (Failed.pdf_url r) = true.

(** The counters and the row of a turn that returns. *)
Definition record_already_existed (name : string) (r : Downloaded.row)
    (self : downloader) : downloader :=
  append_downloaded r (count_already_existed name self).

Definition record_downloaded (name : string) (r : Downloaded.row)
    (self : downloader) : downloader :=
  append_downloaded r (count_downloaded name self).

Definition record_failed (name : string) (r : Failed.row)
    (self : downloader) : downloader :=
  append_failed r (count_failed name self).

(** The three outcomes of a turn of the third loop for the paper [p]:
    the object after the turn, from the object before it. *)
Inductive outcome (p : paper) (self : downloader) : downloader -> Prop :=
| Already_existed (r : Downloaded.row) :
    downloaded_about r = paper_about p ->
    Downloaded.filename r = sanitize_filename (title p) (section p) ->
    Downloaded.status r = "Already Existed" ->
    outcome p self (record_already_existed (section p) r self)
| Newly_downloaded (r : Downloaded.row) :
    downloaded_about r = paper_about p ->
    Downloaded.filename r = sanitize_filename (title p) (section p) ->
    Downloaded.status r = "Downloaded" ->
    outcome p self (record_downloaded (section p) r self)
| Not_downloaded (r : Failed.row) :
    failed_about r = paper_about p ->
    failed_row_ok r ->
    outcome p self (record_failed (section p) r self).

(** A turn that raises for the paper [p]: the paper is counted, and no
    row is written. *)
Inductive counted_only (p : paper) (self : downloader) : downloader -> Prop :=
| Counted_already_existed :
    counted_only p self (count_already_existed (section p) self)
| Counted_downloaded :
    counted_only p self (count_downloaded (section p) self)
| Counted_failed :
    counted_only p self (count_failed (section p) self).

(** The rows of the two sheets. *)
Definition rows_written (done : list paper) (self : downloader) : Prop :=
  Permutation
    (map downloaded_about (downloaded_papers self)
     ++ map failed_about (failed_papers self))%list
    (map paper_about done)
  /\ Forall downloaded_row_ok (downloaded_papers self)
  /\ Forall failed_row_ok (failed_papers self).

(** *** A small world, for the examples

    The read-me has two sections and three title lines, two of which
    have the same title up to a final mark; Semantic Scholar knows the
    first title only, arXiv answers every query with the same entry, and
    the download from arXiv fails.  The world is the list of the
    addresses asked for. *)
Module Demo.

Definition readme : string :=
  "#### CVPR" ++ nl ++ "Awesome Detection Method (CVPR 2023) [Paper]" ++ nl
  ++ "Another Great Paper Title (CVPR 2023) [Paper]" ++ nl
  ++ "#### ICLR" ++ nl ++ "Awesome Detection Method! (ICLR 2023) [Paper]" ++ nl.

Definition quoted (s : string) : string :=
  String Chr.dquote (s ++ String Chr.dquote EmptyString).

Definition arxiv_answer : string :=
  "<feed><title>ArXiv Query</title><entry><title>Another Great Paper Title</title>"
  ++ "<author><name>A. Author</name></author><author><name>B. Author</name></author>"
  ++ "<link title=" ++ quoted "pdf" ++ " href=" ++ quoted "http://arxiv.org/pdf/0000.00000"
  ++ "/></entry></feed>".

Definition requests_get (url : string) (params : list (string * string))
    (w : list string) : (string + nat * string) * list string :=
  if String.eqb url readme_url then (inr (200, readme), (w ++ [url])%list)
  else (inr (200, arxiv_answer), (w ++ [url])%list).

Definition search_semantic_scholar (key query_title : string) (w : list string)
    : Answer.t * list string :=
  if String.eqb query_title "Awesome Detection Method"
  then (Answer.Make true (PyStr "https://example.org/adm.pdf") [PyStr "C. Author"]
          "semantic_scholar",
        (w ++ ["semantic scholar"])%list)
  else (Answer.Make false PyNone [] "semantic_scholar",
        (w ++ ["semantic scholar"])%list).

Definition download_pdf (pdf_url : value) (filename : string) (w : list string)
    : (bool * string) * list string :=
  match pdf_url with
  | PyStr url =>
      if Str.startswith "http://arxiv.org" url then ((false, "404"), (w ++ [url])%list)
      else ((true, "downloaded"), (w ++ [url])%list)
  | _ => ((false, "Invalid URL"), w)
  end.

Definition report (self : downloader) (w : list string) : completion * list string :=
  (Returned, (w ++ ["report"])%list).

(** Semantic Scholar with an author of the first paper whose name is
    [null]. *)
Definition search_semantic_scholar_null (key query_title : string) (w : list string)
    : Answer.t * list string :=
  if String.eqb query_title "Awesome Detection Method"
  then (Answer.Make true (PyStr "https://example.org/adm.pdf")
          [PyStr "C. Author"; PyNone] "semantic_scholar",
        (w ++ ["semantic scholar"])%list)
  else (Answer.Make false PyNone [] "semantic_scholar",
        (w ++ ["semantic scholar"])%list).

(** The same world with a read-me whose one title line gives a title
    that is too short to be kept. *)
Definition requests_get_short (url : string) (params : list (string * string))
    (w : list string) : (string + nat * string) * list string :=
  (inr (200, doc_short_title), (w ++ [url])%list).

Definition after_run : downloader :=
  first_run requests_get search_semantic_scholar download_pdf report report
    "key" [].

Definition after_null : downloader :=
  first_run requests_get search_semantic_scholar_null download_pdf report report
    "key" [].

End Demo.

(** *** Notions for the headers *)

(** The text up to the first space. *)
Fixpoint first_word (s : string) : string :=
  match s with
  | EmptyString => EmptyString
  | String c s' => if Chr.isspace c then EmptyString else String c (first_word s')
  end.

(** The word of a header line: what follows the markers and the spaces
    after them, up to the next space, in lower case. *)
Definition header_word (s : string) : string := Str.lower (first_word (after_marks s)).

(** A name that can be read after the markers: it is not empty, has no
    space, and does not start with a marker. *)
Definition plain_name (n : string) : bool :=
  match n with
  | EmptyString => false
  | String x _ => negb (Ascii.eqb x "#") && Str.all (fun a => negb (Chr.isspace a)) n
  end.

(** [s] is empty or starts with a space. *)
Definition ends_word (s : string) : Prop :=
  s = EmptyString \/ exists c r, s = String c r /\ Chr.isspace c = true.

(** *** Notions for the clean-up of a title *)

(** The text without its pairs of stars, read from the left. *)
Fixpoint unbold (s : string) : string :=
  match s with
  | EmptyString => EmptyString
  | String a t =>
      match t with
      | String b s' =>
          if Ascii.eqb a "*" && Ascii.eqb b "*" then unbold s' else String a (unbold t)
      | EmptyString => String a EmptyString
      end
  end.

(** Every run of spaces replaced by one blank; [in_run] says that the
    run has begun before [s]. *)
Fixpoint squeeze_from (in_run : bool) (s : string) : string :=
  match s with
  | EmptyString => EmptyString
  | String a s' =>
      if Chr.isspace a then
        if in_run then squeeze_from true s' else String " " (squeeze_from true s')
      else String a (squeeze_from false s')
  end.

(** No two neighbours of [s] are a [bad] pair. *)
Fixpoint no_pair (bad : ascii -> ascii -> bool) (s : string) : bool :=
  match s with
  | EmptyString => true
  | String a t =>
      match t with
      | EmptyString => true
      | String b _ => negb (bad a b) && no_pair bad t
      end
  end.

Definition two_stars (a b : ascii) : bool := Ascii.eqb a "*" && Ascii.eqb b "*".
Definition two_spaces (a b : ascii) : bool := Chr.isspace a && Chr.isspace b.

(** The only space of [s] is the blank, and no two blanks are
    neighbours. *)
Definition single_spaced (s : string) : bool :=
  Str.all (fun c => negb (Chr.isspace c) || Ascii.eqb c " ") s && no_pair two_spaces s.

(** A title as the clean-up leaves it: trimmed, with single blanks as
    its only spaces, and without a pair of stars. *)
Definition normal_title (t : string) : Prop :=
  Str.strip t = t /\ single_spaced t = true /\ Str.contains "**" t = false.

(** [s] is empty or starts with a character that is no space. *)
Definition starts_word (s : string) : Prop :=
  s = EmptyString \/ exists c r, s = String c r /\ Chr.isspace c = false.

(** *** The title the spec describes

    Modelled from the spec: the title of a piece of text is the text
    trimmed, then without its bold markers, with every run of white space
    collapsed into a single blank, and trimmed at both ends.  It is
    written with [unbold] and [squeeze_from], not with the patterns of the
    program. *)
Definition tidy (text : string) : string :=
  Str.strip (squeeze_from false (unbold (Str.strip text))).

Definition line_two_readings : string := "Net (v2) [code] (CVPR 2023) [Paper]".

Definition line_two_brackets : string :=
  "See [docs] and [Great Paper Title](https://example.com/p.pdf)".

(** ** The parser with what it prints

    [parse_papers_from_main_readme] calls [print] when it finds a header
    and when it adds a record.  Here the standard output is a part of the
    state: the list of the lines printed so far. *)

(** [print(s)] *)
Definition print (s : string) (stdout : list string) : list string :=
  (stdout ++ [s])%list.

(** One turn of the loop over the lines, with its calls of [print]. *)
Definition scan_line_printing (st : scan_state * list string) (line : string)
    : scan_state * list string :=
  let '((current_section, sections), stdout) := st in
  let line_stripped := Str.strip line in
  match find_section (keys sections) line_stripped with
  | Some section_name =>
      ((Some section_name, sections),
       print ("Found section: " ++ section_name) stdout)
  | None =>
      match current_section with
      | Some cs =>
          if Str.truthy cs && is_paper_title_line line_stripped then
            let title := extract_title_from_line line_stripped in
            if valid_title title
            then ((current_section, append_paper cs (Paper title cs line) sections),
                  print ("   Added paper: " ++ Str.take 60 title ++ "...") stdout)
            else st
          else st
      | None => st
      end
  end.

(** The method as it runs: the value it returns and the standard output
    it leaves, from the standard output it finds. *)
Definition parse_papers_printing (content : string) (stdout : list string)
    : sections_dict * list string :=
  if negb (Str.truthy content) then ([], stdout)
  else
    let st :=
      fold_left scan_line_printing (Str.split_on Chr.nl content)
        ((None, initial_sections), stdout) in
    (snd (fst st), snd st).

(** The lines a call prints. *)
Definition printed (content : string) : list string :=
  snd (parse_papers_printing content []).

(** *** Notions for the answer of arXiv *)

(** What stands before the address in the link of an entry:
    [<link title=.pdf. href=.] with the double quote for each dot. *)
Definition arxiv_link_prefix : string :=
  "<link title=" ++ String Chr.dquote ("pdf" ++ String Chr.dquote
     (" href=" ++ String Chr.dquote EmptyString)).

(** [content] has, after [pre], the text [body] on one line between
    [opening] and [closing]. *)
Definition delimited (opening closing content pre body : string) : Prop :=
  exists rest,
    content = pre ++ opening ++ body ++ closing ++ rest /\ without Chr.nl body.

(** The reading that starts leftmost and, among those, has the shortest
    body. *)
Definition first_delimited (opening closing content pre body : string) : Prop :=
  delimited opening closing content pre body
  /\ forall pre' body', delimited opening closing content pre' body' ->
       String.length pre < String.length pre'
       \/ (String.length pre = String.length pre'
           /\ String.length body <= String.length body').

(** The pattern [opening(.*?)closing], for two patterns without a group. *)
Definition pat_delimited (ropen rclose : regex) : regex :=
  Seq ropen (Seq (Group (star_lazy Dot)) rclose).

(** The patterns that stand before the groups of the three patterns of
    [search_arxiv], and after them. *)
Definition pat_arxiv_pdf_open : regex :=
  seq [lit "<link title="; Chr (ch Chr.dquote); lit "pdf"; Chr (ch Chr.dquote);
       lit " href="; Chr (ch Chr.dquote)].

(** [s] holds the text [sub]. *)
Definition holds (sub s : string) : Prop := exists s1 s2, s = s1 ++ sub ++ s2.

(** *** Notions for the third rule of [extract_title_from_line] *)




(** *** Notions for the hash *)

(** An author as the hash reads it: in lower case and trimmed. *)
Definition author_key (a : string) : string := Str.strip (Str.lower a).

(** The keys of the authors that are not empty. *)
Definition author_keys (l : list string) : list string :=
  map author_key (filter Str.truthy l).

(** A digit of a lower-case hexadecimal number. *)
Definition is_hex (c : ascii) : bool := Chr.between 48 57 c || Chr.between 97 102 c.

(** * Properties *)

(** ** Strings *)

Lemma append_assoc (a b c : string) : (a ++ b) ++ c = a ++ (b ++ c).
Proof. induction a as [|x a IH]; simpl; [reflexivity | now rewrite IH]. Qed.

Lemma length_append (a b : string) :
  String.length (a ++ b) = String.length a + String.length b.
Proof. induction a as [|x a IH]; simpl; [reflexivity | now rewrite IH]. Qed.

Lemma rstrip_idem (s : string) : Str.rstrip (Str.rstrip s) = Str.rstrip s.
Proof.
  induction s as [|c s IH]; simpl; [reflexivity|].
  destruct (Str.rstrip s) as [|d r] eqn:E.
  - destruct (Chr.isspace c) eqn:Hc; simpl; [reflexivity | now rewrite Hc].
  - change (Str.rstrip (String c (String d r))) with
      (match Str.rstrip (String d r) with
       | EmptyString => if Chr.isspace c then EmptyString else String c EmptyString
       | String x y => String c (String x y)
       end).
    now rewrite IH.
Qed.

Lemma rstrip_head (c : ascii) (s : string) :
  Chr.isspace c = false -> exists r, Str.rstrip (String c s) = String c r.
Proof.
  intros Hc. simpl. destruct (Str.rstrip s); [rewrite Hc|]; eauto.
Qed.

Lemma lstrip_head (s : string) :
  Str.lstrip s = EmptyString \/
  exists c r, Str.lstrip s = String c r /\ Chr.isspace c = false.
Proof.
  induction s as [|c s IH]; simpl; [now left|].
  destruct (Chr.isspace c) eqn:Hc; [exact IH | right; eauto].
Qed.

Lemma strip_idem (s : string) : Str.strip (Str.strip s) = Str.strip s.
Proof.
  unfold Str.strip.
  destruct (lstrip_head s) as [E | (c & r & E & Hc)]; rewrite E.
  - reflexivity.
  - destruct (rstrip_head c r Hc) as [r' Hr].
    rewrite Hr. simpl Str.lstrip. rewrite Hc. rewrite <- Hr. apply rstrip_idem.
Qed.

Lemma is_paper_title_line_strip (line : string) :
  is_paper_title_line (Str.strip line) = is_paper_title_line line.
Proof. unfold is_paper_title_line. now rewrite strip_idem. Qed.

Lemma extract_title_from_line_strip (line : string) :
  extract_title_from_line (Str.strip line) = extract_title_from_line line.
Proof. unfold extract_title_from_line. now rewrite strip_idem. Qed.

(** ** The dictionary of sections *)

Lemma keys_append_paper (k : string) (p : paper) (d : sections_dict) :
  keys (append_paper k p d) = keys d.
Proof.
  induction d as [|[k' v] d IH]; simpl; [reflexivity|].
  destruct (String.eqb k k'); simpl; [reflexivity | now rewrite IH].
Qed.

Lemma total_append_paper (k : string) (p : paper) (d : sections_dict) :
  In k (keys d) -> total_papers (append_paper k p d) = S (total_papers d).
Proof.
  induction d as [|[k' v] d IH]; simpl; [tauto|].
  intros [E | Hin].
  - subst k'. rewrite String.eqb_refl. simpl. rewrite List.length_app. simpl. lia.
  - destruct (String.eqb k k'); simpl.
    + rewrite List.length_app. simpl. lia.
    + rewrite IH by assumption. lia.
Qed.

Lemma find_section_in (names : list string) (line : string) (name : string) :
  find_section names line = Some name -> In name names.
Proof.
  induction names as [|n names IH]; simpl; [discriminate|].
  destruct (String.eqb n "Test-of-Time-Papers").
  - destruct (matched _); [intros [= <-]; now left | auto].
  - destruct (matched _); [intros [= <-]; now left | auto].
Qed.

Lemma section_name_truthy (name : string) :
  In name section_names -> Str.truthy name = true.
Proof.
  unfold section_names. simpl.
  intros H. repeat (destruct H as [<- | H]; [reflexivity|]). destruct H.
Qed.

Lemma well_filed_append (cs t l : string) (d : sections_dict) :
  well_filed d -> well_filed (append_paper cs (Paper t cs l) d).
Proof.
  unfold well_filed. induction d as [|[k' v'] d IH]; simpl; intros Hd k v r; [tauto|].
  destruct (String.eqb cs k') eqn:E.
  - apply String.eqb_eq in E. subst k'.
    intros [[= <- <-] | Hin] Hr.
    + apply in_app_or in Hr. destruct Hr as [Hr | [<- | []]].
      * eapply Hd; [left; reflexivity | exact Hr].
      * reflexivity.
    + eapply Hd; [right; exact Hin | exact Hr].
  - intros [[= <- <-] | Hin] Hr.
    + eapply Hd; [left; reflexivity | exact Hr].
    + eapply IH; [| exact Hin | exact Hr].
      intros k0 v0 r0 H0. apply Hd. now right.
Qed.

(** ** The scan over the lines *)

Lemma scan_inv_init : scan_inv (None, initial_sections).
Proof.
  split; [reflexivity|]. split; [discriminate|].
  intros k v r Hin Hr. simpl in Hin.
  repeat (destruct Hin as [[= <- <-] | Hin]; [destruct Hr|]). destruct Hin.
Qed.

Lemma scan_line_inv (st : scan_state) (line : string) :
  scan_inv st -> scan_inv (scan_line st line).
Proof.
  destruct st as [cur d]. intros (Hk & Hc & Hf). cbn [fst snd] in *.
  unfold scan_line. rewrite Hk.
  destruct (find_section section_names (Str.strip line)) as [name|] eqn:Ef.
  - split; [exact Hk|]. split; [|exact Hf].
    cbn [fst]. intros cs [= <-]. eapply find_section_in; eauto.
  - destruct cur as [cs|]; [|repeat split; assumption].
    destruct (Str.truthy cs && is_paper_title_line (Str.strip line));
      [|repeat split; assumption].
    destruct (valid_title _); [|repeat split; assumption].
    split; [cbn [snd]; now rewrite keys_append_paper|].
    split; [exact Hc|]. cbn [snd]. now apply well_filed_append.
Qed.

Lemma scan_lines_inv (lines : list string) (st : scan_state) :
  scan_inv st -> scan_inv (fold_left scan_line lines st).
Proof.
  revert st. induction lines as [|l ls IH]; simpl; intros st H; [exact H|].
  apply IH. now apply scan_line_inv.
Qed.

Lemma scan_line_total (cur : option string) (d : sections_dict) (l : string)
    (ls : list string) :
  scan_inv (cur, d) ->
  total_papers (snd (scan_line (cur, d) l))
  + List.length (filter accepted (title_lines (fst (scan_line (cur, d) l)) ls))
  = total_papers d + List.length (filter accepted (title_lines cur (l :: ls))).
Proof.
  intros (Hk & Hc & Hf). cbn [fst snd] in Hk, Hc.
  unfold scan_line. cbn [title_lines]. rewrite Hk.
  destruct (find_section section_names (Str.strip l)) as [name|]; [reflexivity|].
  destruct cur as [cs|]; [|reflexivity].
  rewrite (section_name_truthy cs) by (apply Hc; reflexivity).
  cbn [andb]. rewrite is_paper_title_line_strip.
  destruct (is_paper_title_line l); [|reflexivity].
  rewrite extract_title_from_line_strip.
  cbn [filter]. unfold accepted at 2. cbn [snd].
  destruct (valid_title (extract_title_from_line l)); [|reflexivity].
  cbn [fst snd List.length].
  rewrite total_append_paper by (rewrite Hk; apply Hc; reflexivity).
  lia.
Qed.

Lemma scan_lines_total (lines : list string) (cur : option string) (d : sections_dict) :
  scan_inv (cur, d) ->
  total_papers (snd (fold_left scan_line lines (cur, d)))
  = total_papers d + List.length (filter accepted (title_lines cur lines)).
Proof.
  revert cur d. induction lines as [|l ls IH]; intros cur d Hinv.
  - simpl. lia.
  - cbn [fold_left].
    pose proof (scan_line_inv _ l Hinv) as Hnext.
    pose proof (scan_line_total cur d l ls Hinv) as Hstep.
    destruct (scan_line (cur, d) l) as [cur' d'].
    rewrite IH by exact Hnext. exact Hstep.
Qed.

(** ** The parser on whole documents *)

Lemma scan_without_headers (lines : list string) (d : sections_dict) :
  keys d = section_names ->
  (forall l, In l lines -> is_header_line l = false) ->
  fold_left scan_line lines (None, d) = (None, d).
Proof.
  intros Hk. induction lines as [|l ls IH]; intros Hno; [reflexivity|].
  cbn [fold_left]. unfold scan_line at 2. rewrite Hk.
  assert (Hl : is_header_line l = false) by (apply Hno; now left).
  unfold is_header_line in Hl.
  destruct (find_section section_names (Str.strip l)); [discriminate|].
  apply IH. intros l' Hin. apply Hno. now right.
Qed.

Lemma parse_nonempty (content : string) :
  content <> EmptyString ->
  parse_papers_from_main_readme content = snd (scan (lines_of content)).
Proof.
  intros Hne. unfold parse_papers_from_main_readme.
  destruct content; [congruence | reflexivity].
Qed.

(** C1 as the spec states it does not hold: the empty document has no
    header line, and the parser returns for it the empty dictionary, in
    which no section name is bound. *)
Lemma parse_empty_document_counterexample :
  ~ (forall content,
       (forall l, In l (lines_of content) -> is_header_line l = false) ->
       forall name, In name section_names ->
         lookup name (parse_papers_from_main_readme content) = Some []).
Proof.
  intros H.
  assert (Hno : forall l, In l (lines_of EmptyString) -> is_header_line l = false).
  { intros l [<- | []]. vm_compute. reflexivity. }
  specialize (H EmptyString Hno "CVPR" (or_introl eq_refl)).
  vm_compute in H. discriminate H.
Qed.

(** C1, amended: for every document without a recognised header line,
    the parser returns the ten configured sections, in their order, each
    bound to the empty sequence, when the document is not empty; for the
    empty document it returns the empty dictionary. *)
Theorem parse_without_headers (content : string) :
  (forall l, In l (lines_of content) -> is_header_line l = false) ->
  (content <> EmptyString ->
     parse_papers_from_main_readme content = initial_sections
     /\ forall name, In name section_names ->
          lookup name (parse_papers_from_main_readme content) = Some [])
  /\ (content = EmptyString -> parse_papers_from_main_readme content = []).
Proof.
  intros Hno. split.
  - intros Hne. rewrite parse_nonempty by exact Hne.
    unfold scan. rewrite scan_without_headers by (reflexivity || exact Hno).
    split; [reflexivity|].
    unfold section_names. cbn [snd keys map fst initial_sections].
    intros name H.
    repeat (destruct H as [<- | H]; [reflexivity|]). destruct H.
  - intros ->. reflexivity.
Qed.

Lemma parse_without_headers_witness :
  parse_papers_from_main_readme doc_prose = initial_sections.
Proof.
  apply (parse_without_headers doc_prose).
  - intros l H. vm_compute in H.
    destruct H as [<- | [<- | []]]; vm_compute; reflexivity.
  - discriminate.
Defined.

(** C2 as the spec states it does not hold: under the header of CVPR the
    line [Tiny (CVPR 2023) [Paper]] is classified as a paper title line,
    and its title, [Tiny], fails the final validation, so there is one
    title line and no record. *)
Lemma total_papers_counterexample :
  title_lines None (lines_of doc_short_title)
    = [("CVPR", "Tiny (CVPR 2023) [Paper]")]
  /\ total_papers (parse_papers_from_main_readme doc_short_title)
       <> List.length (title_lines None (lines_of doc_short_title)).
Proof. split; [vm_compute; reflexivity | vm_compute; discriminate]. Qed.

(** C2, amended: the number of records over all sections is the number
    of lines that were classified as paper title lines while a section was
    active and whose extracted title passed the final validation; and
    every record lies under one of the configured section names, the one
    its own [section] field names. *)
Theorem total_papers_accepted_title_lines (content : string) :
  total_papers (parse_papers_from_main_readme content)
    = List.length (filter accepted (title_lines None (lines_of content)))
  /\ (forall k v r,
        In (k, v) (parse_papers_from_main_readme content) -> In r v ->
        In k section_names /\ section r = k).
Proof.
  destruct content as [|c content].
  - split; [reflexivity | intros k v r []].
  - rewrite parse_nonempty by discriminate.
    unfold scan. split.
    + rewrite scan_lines_total by exact scan_inv_init. reflexivity.
    + pose proof (scan_lines_inv (lines_of (String c content)) _ scan_inv_init)
        as (Hk & _ & Hf).
      intros k v r Hin Hr. split.
      * rewrite <- Hk. unfold keys. change k with (fst (k, v)). now apply in_map.
      * eapply Hf; eassumption.
Qed.

(** C3: on the document of the spec's example the parser returns exactly
    one record under CVPR, with title [Awesome Detection Method] and
    section CVPR, and the empty sequence under ICLR. *)
Theorem parse_cvpr_iclr_example :
  lookup "CVPR" (parse_papers_from_main_readme doc_cvpr_iclr)
    = Some [ Paper "Awesome Detection Method" "CVPR"
               "Awesome Detection Method (CVPR 2023) [Paper]" ]
  /\ lookup "ICLR" (parse_papers_from_main_readme doc_cvpr_iclr) = Some [].
Proof. split; vm_compute; reflexivity. Qed.

(** ** The matcher against what a pattern matches *)

Lemma all_ext (f g : ascii -> bool) (s : string) :
  (forall a, f a = g a) -> Str.all f s = Str.all g s.
Proof. intros H. induction s as [|x s IH]; simpl; [reflexivity | now rewrite H, IH]. Qed.

Lemma rep_eq ic c greedy lo hi p s g k :
  rep ic c greedy lo hi p s g k =
  if greedy then
    match rep_take ic c greedy lo hi p s g k with
    | Some r => Some r
    | None => rep_stop lo p s g k
    end
  else
    match rep_stop lo p s g k with
    | Some r => Some r
    | None => rep_take ic c greedy lo hi p s g k
    end.
Proof. destruct s; reflexivity. Qed.

Lemma rep_cases ic c greedy lo hi p s g k res :
  rep ic c greedy lo hi p s g k = Some res ->
  rep_take ic c greedy lo hi p s g k = Some res \/ rep_stop lo p s g k = Some res.
Proof.
  rewrite rep_eq. destruct greedy.
  - destruct (rep_take ic c true lo hi p s g k); [intros [= <-]; now left | now right].
  - destruct (rep_stop lo p s g k); [intros [= <-]; now right | now left].
Qed.

Lemma rep_take_inv ic c greedy lo hi p s g k res :
  rep_take ic c greedy lo hi p s g k = Some res ->
  exists a s1, s = String a s1 /\ cmatch ic c a = true /\ hi <> Some 0
    /\ rep ic c greedy (pred lo) (dec_hi hi) (S p) s1 g k = Some res.
Proof.
  unfold rep_take. intros H.
  destruct s as [|a s1].
  - destruct hi as [[|h]|]; discriminate.
  - exists a, s1.
    destruct hi as [[|h]|]; try discriminate;
      (destruct (cmatch ic c a); [|discriminate]);
      repeat split; try exact H; discriminate.
Qed.

Lemma rep_stop_inv lo p s g k res :
  rep_stop lo p s g k = Some res -> lo = 0 /\ k (MState p s g) = Some res.
Proof. unfold rep_stop. destruct lo; [auto | discriminate]. Qed.

Lemma hi_ok_succ (hi : option nat) (n : nat) :
  hi <> Some 0 -> hi_ok (dec_hi hi) n -> hi_ok hi (S n).
Proof. destruct hi as [[|h]|]; simpl; intros; [congruence | lia | exact I]. Qed.

Lemma hi_ok_pred (hi : option nat) (n : nat) :
  hi_ok hi (S n) -> hi <> Some 0 /\ hi_ok (dec_hi hi) n.
Proof.
  destruct hi as [[|h]|]; simpl; intros; [lia | split; [discriminate | lia] |].
  split; [discriminate | exact I].
Qed.

Lemma rep_sound (s : string) : forall ic c greedy lo hi p g k res,
  rep ic c greedy lo hi p s g k = Some res ->
  exists w s', s = w ++ s' /\ Str.all (cmatch ic c) w = true
    /\ lo <= String.length w /\ hi_ok hi (String.length w)
    /\ k (MState (p + String.length w) s' g) = Some res.
Proof.
  induction s as [|a s IH]; intros ic c greedy lo hi p g k res H;
    apply rep_cases in H; destruct H as [H | H].
  - apply rep_take_inv in H. destruct H as (a & s1 & E & _). discriminate E.
  - apply rep_stop_inv in H. destruct H as [-> H].
    exists EmptyString, EmptyString. simpl. rewrite Nat.add_0_r.
    repeat split; try exact H; try lia. destruct hi; simpl; lia.
  - apply rep_take_inv in H. destruct H as (a' & s1 & E & Ha & Hhi & H).
    injection E as <- <-.
    apply IH in H. destruct H as (w & s' & -> & Hall & Hlo & Hh & Hk).
    exists (String a w), s'. simpl.
    rewrite Ha, Hall. rewrite Nat.add_succ_r.
    repeat split; try exact Hk; try lia. now apply hi_ok_succ.
  - apply rep_stop_inv in H. destruct H as [-> H].
    exists EmptyString, (String a s). simpl. rewrite Nat.add_0_r.
    repeat split; try exact H; try lia. destruct hi; simpl; lia.
Qed.

Lemma rep_complete (w : string) : forall ic c greedy lo hi p s' g k,
  Str.all (cmatch ic c) w = true ->
  lo <= String.length w -> hi_ok hi (String.length w) ->
  k (MState (p + String.length w) s' g) <> None ->
  rep ic c greedy lo hi p (w ++ s') g k <> None.
Proof.
  induction w as [|a w IH]; intros ic c greedy lo hi p s' g k Hall Hlo Hhi Hk;
    rewrite rep_eq.
  - simpl in *. rewrite Nat.add_0_r in Hk.
    assert (lo = 0) as -> by lia. unfold rep_stop.
    destruct greedy.
    + destruct (rep_take _ _ _ _ _ _ _ _ _); [discriminate | exact Hk].
    + destruct (k (MState p s' g)); [discriminate | congruence].
  - simpl in Hall, Hlo, Hhi, Hk. apply andb_prop in Hall. destruct Hall as [Ha Hall].
    apply hi_ok_pred in Hhi. destruct Hhi as [Hne Hhi].
    rewrite Nat.add_succ_r in Hk.
    assert (Ht : rep_take ic c greedy lo hi p (String a w ++ s') g k <> None).
    { unfold rep_take. simpl. rewrite Ha.
      destruct hi as [[|h]|]; try congruence;
        apply IH; auto; lia. }
    destruct greedy.
    + destruct (rep_take _ _ _ _ _ _ _ _ _); [discriminate | congruence].
    + destruct (rep_stop _ _ _ _ _); [discriminate | exact Ht].
Qed.

(** A lazy repetition stops at the first length at which the continuation
    succeeds. *)
Lemma rep_lazy_first (s : string) : forall ic c lo p g k res,
  rep ic c false lo None p s g k = Some res ->
  exists w s', s = w ++ s' /\ Str.all (cmatch ic c) w = true
    /\ lo <= String.length w
    /\ k (MState (p + String.length w) s' g) = Some res
    /\ forall w1 s1, s = w1 ++ s1 -> lo <= String.length w1 ->
         String.length w1 < String.length w ->
         k (MState (p + String.length w1) s1 g) = None.
Proof.
  induction s as [|a s IH]; intros ic c lo p g k res H; rewrite rep_eq in H.
  - destruct (rep_stop lo p EmptyString g k) eqn:Es; [|discriminate H].
    injection H as ->. apply rep_stop_inv in Es. destruct Es as [-> Hk].
    exists EmptyString, EmptyString. simpl. rewrite Nat.add_0_r.
    repeat split; auto. intros; lia.
  - destruct (rep_stop lo p (String a s) g k) eqn:Es.
    + injection H as ->. apply rep_stop_inv in Es. destruct Es as [-> Hk].
      exists EmptyString, (String a s). simpl. rewrite Nat.add_0_r.
      repeat split; auto. intros; lia.
    + apply rep_take_inv in H. destruct H as (a' & s1 & E & Ha & _ & H).
      injection E as <- <-. simpl dec_hi in H.
      apply IH in H. destruct H as (w & s' & -> & Hall & Hlo & Hk & Hmin).
      exists (String a w), s'. simpl. rewrite Ha, Hall, Nat.add_succ_r.
      repeat split; auto; try lia.
      intros w1 s1 E Hlo1 Hlt.
      destruct w1 as [|a1 w1]; simpl in *.
      * rewrite Nat.add_0_r. subst s1.
        assert (lo = 0) as -> by lia. exact Es.
      * injection E as <- E. rewrite Nat.add_succ_r.
        apply Hmin; auto; lia.
Qed.

Lemma rmatch_sound (r : regex) : forall ic p s g k res,
  rmatch ic r (MState p s g) k = Some res ->
  exists w s' g', s = w ++ s' /\ lang ic r p w s'
    /\ k (MState (p + String.length w) s' g') = Some res
    /\ (groupless r = true -> g' = g).
Proof.
  induction r as [|c|c lo hi greedy| | |r1 IH1 r2 IH2|r1 IH1 r2 IH2|r1 IH1];
    intros ic p s g k res H; cbn [rmatch m_pos m_rest m_grp] in H.
  - exists EmptyString, s, g. simpl. rewrite Nat.add_0_r. auto.
  - destruct s as [|a s1]; [discriminate|].
    destruct (cmatch ic c a) eqn:Ha; [|discriminate].
    exists (String a EmptyString), s1, g. simpl. rewrite Nat.add_1_r.
    repeat split; eauto.
  - apply rep_sound in H. destruct H as (w & s' & -> & Hall & Hlo & Hhi & Hk).
    exists w, s', g. simpl. auto.
  - destruct (Nat.eqb p 0) eqn:Ep; [|discriminate].
    apply Nat.eqb_eq in Ep.
    exists EmptyString, s, g. simpl. rewrite Nat.add_0_r. auto.
  - destruct (at_end s) eqn:Ee; [|discriminate].
    exists EmptyString, s, g. simpl. rewrite Nat.add_0_r. auto.
  - apply IH1 in H. destruct H as (w1 & s1 & g1 & -> & L1 & H & G1).
    apply IH2 in H. destruct H as (w2 & s' & g' & -> & L2 & H & G2).
    exists (w1 ++ w2), s', g'. rewrite append_assoc, length_append, Nat.add_assoc.
    split; [reflexivity|]. split; [simpl; eauto|]. split; [exact H|].
    simpl. intros Hg. apply andb_prop in Hg. destruct Hg as [Hg1 Hg2].
    rewrite G2, G1; auto.
  - destruct (rmatch ic r1 (MState p s g) k) eqn:E1.
    + injection H as ->. apply IH1 in E1.
      destruct E1 as (w & s' & g' & -> & L & H & G).
      exists w, s', g'. simpl. repeat split; auto.
      intros Hg. apply andb_prop in Hg. now apply G.
    + apply IH2 in H. destruct H as (w & s' & g' & -> & L & H & G).
      exists w, s', g'. simpl. repeat split; auto.
      intros Hg. apply andb_prop in Hg. now apply G.
  - apply IH1 in H. destruct H as (w & s' & g' & -> & L & H & G).
    cbn [set_grp m_pos m_rest] in H.
    exists w, s', (Some (p, p + String.length w)). simpl.
    repeat split; auto. discriminate.
Qed.

Lemma rmatch_complete (r : regex) : forall ic p w s' g k,
  lang ic r p w s' -> accepts k (p + String.length w) s' ->
  rmatch ic r (MState p (w ++ s') g) k <> None.
Proof.
  induction r as [|c|c lo hi greedy| | |r1 IH1 r2 IH2|r1 IH1 r2 IH2|r1 IH1];
    intros ic p w s' g k L Hk; cbn [rmatch m_pos m_rest m_grp]; simpl in L.
  - subst w. simpl in *. rewrite Nat.add_0_r in Hk. apply Hk.
  - destruct L as (a & -> & Ha). simpl in *. rewrite Ha.
    rewrite Nat.add_1_r in Hk. apply Hk.
  - destruct L as (Hall & Hlo & Hhi). apply rep_complete; auto.
  - destruct L as [-> ->]. simpl in *. apply Hk.
  - destruct L as [-> He]. simpl in *. rewrite He.
    rewrite Nat.add_0_r in Hk. apply Hk.
  - destruct L as (w1 & w2 & -> & L1 & L2).
    rewrite append_assoc. apply IH1; [exact L1|].
    intros g1. apply IH2; [exact L2|].
    rewrite length_append, Nat.add_assoc in Hk. exact Hk.
  - destruct L as [L | L].
    + pose proof (IH1 ic p w s' g k L Hk) as H1.
      destruct (rmatch ic r1 (MState p (w ++ s') g) k); [discriminate | congruence].
    + destruct (rmatch ic r1 (MState p (w ++ s') g) k); [discriminate|].
      now apply IH2.
  - apply IH1; [exact L|].
    intros g1. cbn [set_grp m_pos m_rest]. apply Hk.
Qed.

Lemma accepts_whole (p q : nat) (s : string) : accepts (whole false p) q s.
Proof. intros g. discriminate. Qed.

(** [re.match] succeeds exactly on the subjects that start with a word of
    the pattern. *)
Lemma re_match_complete ic r (w rest : string) :
  lang ic r 0 w rest -> matched (re_match ic r (w ++ rest)) = true.
Proof.
  intros L. unfold re_match, match_at.
  destruct (rmatch _ _ _ _) as [res|] eqn:E; [reflexivity | exfalso].
  revert E. apply rmatch_complete; [exact L | apply accepts_whole].
Qed.

Lemma re_match_sound ic r (s : string) :
  matched (re_match ic r s) = true ->
  exists w rest, s = w ++ rest /\ lang ic r 0 w rest.
Proof.
  unfold re_match, match_at.
  destruct (rmatch _ _ _ _) as [res|] eqn:E; [intros _ | discriminate].
  apply rmatch_sound in E. destruct E as (w & s' & g' & -> & L & _). eauto.
Qed.

(** One step along a pattern written with [seq]. *)
Lemma lang_seq_intro ic r1 r2 p w1 w2 s' :
  lang ic r1 p w1 (w2 ++ s') -> lang ic r2 (p + String.length w1) w2 s' ->
  lang ic (Seq r1 r2) p (w1 ++ w2) s'.
Proof. intros H1 H2. simpl. eauto. Qed.

Ltac seq_step tac := apply lang_seq_intro; [solve [tac] |].

Lemma take_append (w s : string) : Str.take (String.length w) (w ++ s) = w.
Proof.
  unfold Str.take. induction w as [|a w IH]; simpl.
  - destruct s; reflexivity.
  - now rewrite IH.
Qed.

Lemma append_same_length (a b a' b' : string) :
  a ++ b = a' ++ b' -> String.length a = String.length a' -> a = a' /\ b = b'.
Proof.
  revert a'. induction a as [|x a IH]; intros [|x' a'] E L; simpl in *;
    try discriminate; [auto|].
  injection E as -> E. injection L as L.
  destruct (IH a' E L) as [-> ->]. auto.
Qed.

Lemma lang_lit_char (x : ascii) (w : string) :
  (exists a, w = String a EmptyString /\ cmatch false (Is (Lit x)) a = true)
  <-> w = String x EmptyString.
Proof.
  simpl. split.
  - intros (a & -> & H). apply Ascii.eqb_eq in H. now subst.
  - intros ->. exists x. split; [reflexivity | apply Ascii.eqb_refl].
Qed.

Lemma all_none_of (x : ascii) (w : string) :
  Str.all (cmatch false (NoneOf [Lit x])) w = Str.all (fun a => negb (Ascii.eqb a x)) w.
Proof. apply all_ext. intros a. simpl. now rewrite orb_false_r. Qed.

Lemma not_empty_length (s : string) : s <> EmptyString <-> 1 <= String.length s.
Proof. destruct s; simpl; split; intros; try congruence; try lia. Qed.

Lemma title_tail_lang (p : nat) (tail : string) :
  paren_bracket_tail tail <->
  exists w s', tail = w ++ s' /\ lang false pat_title_tail p w s'.
Proof.
  unfold pat_title_tail. cbn [seq lit star plus star_lazy lang].
  setoid_rewrite lang_lit_char. setoid_rewrite all_none_of.
  split.
  - intros (ws1 & paren & ws2 & brack & rest & -> & H1 & Hp & H2 & H3 & H4).
    exists (ws1 ++ "(" ++ paren ++ ")" ++ ws2 ++ "[" ++ brack ++ "]"), rest.
    split; [now rewrite !append_assoc|].
    exists ws1, ("(" ++ paren ++ ")" ++ ws2 ++ "[" ++ brack ++ "]").
    split; [reflexivity|]. split; [repeat split; [exact H1 | lia]|].
    exists "(", (paren ++ ")" ++ ws2 ++ "[" ++ brack ++ "]").
    split; [reflexivity|]. split; [reflexivity|].
    exists paren, (")" ++ ws2 ++ "[" ++ brack ++ "]").
    split; [reflexivity|].
    split; [repeat split; [exact H2 | now apply not_empty_length]|].
    exists ")", (ws2 ++ "[" ++ brack ++ "]").
    split; [reflexivity|]. split; [reflexivity|].
    exists ws2, ("[" ++ brack ++ "]").
    split; [reflexivity|]. split; [repeat split; [exact H3 | lia]|].
    exists "[", (brack ++ "]").
    split; [reflexivity|]. split; [reflexivity|].
    exists brack, "]".
    split; [reflexivity|]. split; [repeat split; [exact H4 | lia]|]. reflexivity.
  - intros (w & s' & -> & w1 & r1 & -> & (L1 & _) & w2 & r2 & -> & -> & w3 & r3 & ->
            & (L3 & N3 & _) & w4 & r4 & -> & -> & w5 & r5 & -> & (L5 & _)
            & w6 & r6 & -> & -> & w7 & w8 & -> & (L7 & _) & ->).
    exists w1, w3, w5, w7, s'.
    split; [now rewrite !append_assoc|].
    repeat split; auto. now apply not_empty_length.
Qed.

Lemma link_tail_lang (p : nat) (tail : string) :
  link_tail tail <->
  exists w s', tail = w ++ s' /\ lang false pat_link_tail p w s'.
Proof.
  unfold pat_link_tail. cbn [seq lit star plus star_lazy lang].
  setoid_rewrite lang_lit_char. setoid_rewrite all_none_of.
  split.
  - intros (url & rest & -> & Hu & H).
    exists ("](" ++ url ++ ")"), rest.
    split; [simpl; now rewrite !append_assoc|].
    exists "]", ("(" ++ url ++ ")"). split; [reflexivity|]. split; [reflexivity|].
    exists "(", (url ++ ")"). split; [reflexivity|]. split; [reflexivity|].
    exists url, ")". split; [reflexivity|].
    split; [repeat split; [exact H | now apply not_empty_length]|]. reflexivity.
  - intros (w & s' & -> & w1 & r1 & -> & -> & w2 & r2 & -> & -> & w3 & w4 & ->
            & (L3 & N3 & _) & ->).
    exists w3, s'. split; [simpl; now rewrite !append_assoc|].
    split; [now apply not_empty_length | exact L3].
Qed.

(** ** The three rules of [extract_title_from_line] *)

Lemma rmatch_pat_title (s : string) (k : mstate -> option mstate) :
  rmatch false pat_title (MState 0 s None) k
  = rep false Dot false 1 None 0 s None
      (fun st1 => rmatch false pat_title_tail (set_grp st1 (0, m_pos st1)) k).
Proof. reflexivity. Qed.

Lemma groupless_title_tail : groupless pat_title_tail = true.
Proof. reflexivity. Qed.

Lemma groupless_link_tail : groupless pat_link_tail = true.
Proof. reflexivity. Qed.

(** When the first pattern matches, its group is the shortest text of a
    reading of the line as [text (parenthetical) [bracketed]]. *)
Lemma re_match_title_some (s : string) (m : mobj) :
  re_match false pat_title s = Some m ->
  exists text, first_title_form s text /\ group1 s m = text.
Proof.
  unfold re_match, match_at.
  rewrite rmatch_pat_title.
  destruct (rep _ _ _ _ _ _ _ _ _) as [res|] eqn:E; [|discriminate].
  intros [= <-].
  apply rep_lazy_first in E.
  destruct E as (w & s' & -> & Hall & Hlo & Hk & Hmin).
  cbv beta in Hk. unfold set_grp in Hk. cbn [m_pos m_rest Nat.add] in Hk.
  apply rmatch_sound in Hk.
  destruct Hk as (w2 & s'' & g' & -> & L & Hk & G).
  rewrite (G groupless_title_tail) in Hk. injection Hk as <-.
  exists w. split; [split|].
  - split; [now apply not_empty_length|]. split; [exact Hall|].
    exists (w2 ++ s''). split; [reflexivity|].
    apply (title_tail_lang (String.length w)). eauto.
  - intros text' (Hne & Hnl & tail' & E' & T').
    destruct (Nat.le_gt_cases (String.length w) (String.length text')) as [|Hlt];
      [assumption | exfalso].
    specialize (Hmin text' tail' E' (proj1 (not_empty_length _) Hne) Hlt).
    cbv beta in Hmin. unfold set_grp in Hmin. cbn [m_pos m_rest Nat.add] in Hmin.
    apply (title_tail_lang (String.length text')) in T'.
    destruct T' as (w' & t' & -> & L').
    revert Hmin. apply rmatch_complete; [exact L' | apply accepts_whole].
  - unfold group1, mobj_of. cbn [m_span m_grp]. unfold Str.slice.
    rewrite Nat.sub_0_r. cbn [Str.drop]. apply take_append.
Qed.

Lemma re_match_title_none (s : string) :
  re_match false pat_title s = None -> forall text, ~ title_form s text.
Proof.
  unfold re_match, match_at.
  rewrite rmatch_pat_title.
  destruct (rep _ _ _ _ _ _ _ _ _) as [res|] eqn:E; [discriminate|].
  intros _ text (Hne & Hnl & tail & -> & T).
  revert E. apply rep_complete.
  - exact Hnl.
  - now apply not_empty_length.
  - exact I.
  - cbv beta. unfold set_grp. cbn [m_pos m_rest Nat.add].
    apply (title_tail_lang (String.length text)) in T.
    destruct T as (w' & t' & -> & L').
    apply rmatch_complete; [exact L' | apply accepts_whole].
Qed.

Lemma first_title_form_unique (s text1 text2 : string) :
  first_title_form s text1 -> first_title_form s text2 -> text1 = text2.
Proof.
  intros [F1 M1] [F2 M2].
  pose proof (M1 _ F2). pose proof (M2 _ F1).
  destruct F1 as (_ & _ & t1 & E1 & _). destruct F2 as (_ & _ & t2 & E2 & _).
  rewrite E1 in E2. apply append_same_length in E2; [tauto | lia].
Qed.

Lemma extract_rule_title (s text : string) :
  first_title_form s text -> extract_rule s = Str.strip text.
Proof.
  intros F. unfold extract_rule.
  destruct (re_match false pat_title s) as [m|] eqn:E.
  - apply re_match_title_some in E. destruct E as (text0 & F0 & ->).
    now rewrite (first_title_form_unique s text text0).
  - exfalso. apply (re_match_title_none s E text). apply F.
Qed.

(** *** The markdown link *)

Lemma match_at_link_cons (p : nat) (a : ascii) (s : string) :
  match_at false pat_link false p (String a s)
  = if Ascii.eqb a "[" then
      option_map (mobj_of p)
        (rep false Dot false 1 None (S p) s None
           (fun st1 => rmatch false pat_link_tail (set_grp st1 (S p, m_pos st1))
                         (whole false p)))
    else None.
Proof. unfold match_at. cbn. destruct (Ascii.eqb a "["); reflexivity. Qed.

Lemma match_at_link_some (p : nat) (s : string) (m : mobj) :
  match_at false pat_link false p s = Some m ->
  exists label tail,
    s = "[" ++ label ++ tail /\ label <> EmptyString /\ without Chr.nl label
    /\ link_tail tail
    /\ m_span m = Some (S p, S p + String.length label)
    /\ forall label' tail', s = "[" ++ label' ++ tail' -> label' <> EmptyString ->
         link_tail tail' -> String.length label <= String.length label'.
Proof.
  destruct s as [|a s]; [discriminate|].
  rewrite match_at_link_cons.
  destruct (Ascii.eqb a "[") eqn:Ea; [|discriminate].
  apply Ascii.eqb_eq in Ea. subst a.
  destruct (rep _ _ _ _ _ _ _ _ _) as [res|] eqn:E; [|discriminate].
  intros [= <-].
  apply rep_lazy_first in E.
  destruct E as (w & s' & -> & Hall & Hlo & Hk & Hmin).
  cbv beta in Hk. unfold set_grp in Hk. cbn [m_pos m_rest] in Hk.
  apply rmatch_sound in Hk.
  destruct Hk as (w2 & s'' & g' & -> & L & Hk & G).
  rewrite (G groupless_link_tail) in Hk. injection Hk as <-.
  exists w, (w2 ++ s'').
  split; [reflexivity|]. split; [now apply not_empty_length|].
  split; [exact Hall|].
  split; [apply (link_tail_lang (S p + String.length w)); eauto|].
  split; [reflexivity|].
  intros label' tail' E' Hne T'.
  destruct (Nat.le_gt_cases (String.length w) (String.length label')) as [|Hlt];
    [assumption | exfalso].
  injection E' as E'.
  specialize (Hmin label' tail' E' (proj1 (not_empty_length _) Hne) Hlt).
  cbv beta in Hmin. unfold set_grp in Hmin. cbn [m_pos m_rest] in Hmin.
  apply (link_tail_lang (S p + String.length label')) in T'.
  destruct T' as (w' & t' & -> & L').
  revert Hmin. apply rmatch_complete; [exact L' | apply accepts_whole].
Qed.

Lemma match_at_link_none (p : nat) (s : string) :
  match_at false pat_link false p s = None ->
  forall label tail, s = "[" ++ label ++ tail -> label <> EmptyString ->
    without Chr.nl label -> ~ link_tail tail.
Proof.
  intros H label tail -> Hne Hnl T.
  change ("[" ++ label ++ tail) with (String "[" (label ++ tail)) in H.
  rewrite match_at_link_cons, Ascii.eqb_refl in H.
  destruct (rep _ _ _ _ _ _ _ _ _) as [res|] eqn:E; [discriminate|].
  revert E. apply rep_complete.
  - exact Hnl.
  - now apply not_empty_length.
  - exact I.
  - cbv beta. unfold set_grp. cbn [m_pos m_rest].
    apply (link_tail_lang (S p + String.length label)) in T.
    destruct T as (w' & t' & -> & L').
    apply rmatch_complete; [exact L' | apply accepts_whole].
Qed.

(** [re.search] returns the leftmost attempt that succeeds. *)
Lemma search_from_some (s : string) : forall ic r p m,
  search_from ic r p s = Some m ->
  exists pre s1, s = pre ++ s1
    /\ match_at ic r false (p + String.length pre) s1 = Some m
    /\ forall pre' s1', s = pre' ++ s1' -> String.length pre' < String.length pre ->
         match_at ic r false (p + String.length pre') s1' = None.
Proof.
  induction s as [|a s IH]; intros ic r p m H; cbn [search_from] in H.
  - destruct (match_at ic r false p EmptyString) eqn:E; [|discriminate].
    injection H as ->. exists EmptyString, EmptyString. simpl. rewrite Nat.add_0_r.
    repeat split; auto. intros; lia.
  - destruct (match_at ic r false p (String a s)) eqn:E.
    + injection H as ->. exists EmptyString, (String a s). simpl.
      rewrite Nat.add_0_r. repeat split; auto. intros; lia.
    + apply IH in H. destruct H as (pre & s1 & -> & Hm & Hmin).
      exists (String a pre), s1. simpl. rewrite Nat.add_succ_r.
      repeat split; auto.
      intros [|a' pre'] s1' E' Hlt; simpl in *.
      * subst s1'. now rewrite Nat.add_0_r.
      * injection E' as <- E'. rewrite Nat.add_succ_r. apply Hmin; auto. lia.
Qed.

Lemma search_from_none (s : string) : forall ic r p,
  search_from ic r p s = None ->
  forall pre s1, s = pre ++ s1 -> match_at ic r false (p + String.length pre) s1 = None.
Proof.
  induction s as [|a s IH]; intros ic r p H pre s1 E; cbn [search_from] in H.
  - destruct pre; [|discriminate]. simpl in E. subst s1. simpl.
    rewrite Nat.add_0_r. destruct (match_at ic r false p EmptyString); [discriminate | reflexivity].
  - destruct (match_at ic r false p (String a s)) eqn:Em; [discriminate|].
    destruct pre as [|a' pre]; simpl in E.
    + subst s1. simpl. now rewrite Nat.add_0_r.
    + injection E as <- E. simpl. rewrite Nat.add_succ_r. now apply (IH ic r (S p)).
Qed.

Lemma slice_inside (pre label tail : string) (x : ascii) :
  Str.slice (S (String.length pre)) (S (String.length pre) + String.length label)
    (pre ++ String x (label ++ tail)) = label.
Proof.
  unfold Str.slice.
  replace (S (String.length pre) + String.length label - S (String.length pre))
    with (String.length label) by lia.
  replace (Str.drop (S (String.length pre)) (pre ++ String x (label ++ tail)))
    with (label ++ tail).
  - apply take_append.
  - induction pre as [|a pre IH]; simpl; [reflexivity | exact IH].
Qed.

Lemma re_search_link_some (s : string) (m : mobj) :
  re_search false pat_link s = Some m ->
  exists pre label,
    first_link_form s pre label /\ group1 s m = label
    /\ m_start m = String.length pre.
Proof.
  unfold re_search. intros H. apply search_from_some in H.
  destruct H as (pre & s1 & -> & Hm & Hmin). cbn [Nat.add] in Hm, Hmin.
  assert (Hstart : m_start m = String.length pre).
  { unfold match_at in Hm. destruct (rmatch _ _ _ _); [|discriminate].
    injection Hm as <-. reflexivity. }
  apply match_at_link_some in Hm.
  destruct Hm as (label & tail & -> & Hne & Hnl & T & Hspan & Hshort).
  exists pre, label. split; [split|split; [|exact Hstart]].
  - split; [exact Hne|]. split; [exact Hnl|]. exists tail. split; [reflexivity | exact T].
  - intros pre' label' (Hne' & Hnl' & tail' & E' & T').
    destruct (Nat.lt_trichotomy (String.length pre) (String.length pre'))
      as [Hlt | [Heq | Hgt]].
    + now left.
    + right. split; [exact Heq|].
      apply append_same_length in E'; [|exact Heq]. destruct E' as [_ E'].
      apply (Hshort label' tail' E' Hne' T').
    + exfalso.
      specialize (Hmin pre' _ E' Hgt).
      apply (match_at_link_none _ _ Hmin label' tail' eq_refl Hne' Hnl' T').
  - unfold group1. rewrite Hspan. apply (slice_inside pre label tail "[").
Qed.





(** ** Section headers *)

Lemma lower_empty (w : string) : Str.lower w = EmptyString -> w = EmptyString.
Proof. destruct w; [reflexivity | discriminate]. Qed.

(** Under [re.IGNORECASE] a literal word matches the words that are
    equal to it once both are in lower case. *)
Lemma lang_lit_ci (word : string) : forall p w s',
  lang true (lit word) p w s' <-> Str.lower w = Str.lower word.
Proof.
  induction word as [|c word IH]; intros p w s'.
  - simpl. split; [intros ->; reflexivity | apply lower_empty].
  - destruct word as [|d word].
    + simpl. split.
      * intros (a & -> & H). apply Ascii.eqb_eq in H. simpl. now rewrite H.
      * intros H. destruct w as [|a [|b w]]; try discriminate.
        injection H as H. exists a. split; [reflexivity|]. now apply Ascii.eqb_eq.
    + change (lit (String c (String d word)))
        with (Seq (Chr (Is (Lit c))) (lit (String d word))).
      cbn [lang]. split.
      * intros (w1 & w2 & -> & (a & -> & H) & L).
        apply IH in L. apply Ascii.eqb_eq in H.
        change (Str.lower (String a EmptyString ++ w2))
          with (String (Chr.lower a) (Str.lower w2)).
        rewrite L, H. reflexivity.
      * intros H. destruct w as [|a w]; [discriminate|].
        change (Str.lower (String c (String d word)))
          with (String (Chr.lower c) (Str.lower (String d word))) in H.
        injection H as Ha Hw.
        exists (String a EmptyString), w. split; [reflexivity|].
        split; [exists a; split; [reflexivity | now apply Ascii.eqb_eq]|].
        now apply IH.
Qed.

Lemma lower_isspace (a : ascii) : Chr.isspace (Chr.lower a) = Chr.isspace a.
Proof. destruct a as [[] [] [] [] [] [] [] []]; reflexivity. Qed.

Lemma lower_is_hash (a : ascii) : Ascii.eqb (Chr.lower a) "#" = Ascii.eqb a "#".
Proof. destruct a as [[] [] [] [] [] [] [] []]; reflexivity. Qed.

Lemma isspace_not_hash (a : ascii) : Chr.isspace a = true -> Ascii.eqb a "#" = false.
Proof. destruct (Ascii.eqb_spec a "#") as [->|]; [discriminate | reflexivity]. Qed.

Lemma drop_hashes_append (hs s : string) :
  hashes hs -> drop_hashes (hs ++ s) = drop_hashes s.
Proof.
  unfold hashes. induction hs as [|c hs IH]; simpl; [reflexivity|].
  intros H. apply andb_prop in H. destruct H as [-> H]. now apply IH.
Qed.

Lemma lstrip_append (ws s : string) :
  spaces ws -> Str.lstrip (ws ++ s) = Str.lstrip s.
Proof.
  unfold spaces. induction ws as [|c ws IH]; simpl; [reflexivity|].
  intros H. apply andb_prop in H. destruct H as [-> H]. now apply IH.
Qed.

Lemma drop_hashes_spaces (ws : string) (a : ascii) (r : string) :
  spaces ws -> Ascii.eqb a "#" = false ->
  drop_hashes (ws ++ String a r) = ws ++ String a r.
Proof.
  unfold spaces. destruct ws as [|c ws]; simpl.
  - intros _ ->. reflexivity.
  - intros H _. apply andb_prop in H. destruct H as [H _].
    now rewrite (isspace_not_hash c H).
Qed.

(** After the markers and the spaces comes the first letter of the name. *)
Lemma after_marks_decomposed (hs ws : string) (a : ascii) (r : string) :
  hashes hs -> spaces ws -> Ascii.eqb a "#" = false -> Chr.isspace a = false ->
  after_marks (hs ++ ws ++ String a r) = String a r.
Proof.
  intros Hh Hw Ha Hs. unfold after_marks.
  rewrite drop_hashes_append by exact Hh.
  rewrite drop_hashes_spaces by assumption.
  rewrite lstrip_append by exact Hw.
  simpl. now rewrite Hs.
Qed.

Lemma all_lit_hash (w : string) :
  Str.all (cmatch true (Is (Lit "#"))) w = Str.all (fun a => Ascii.eqb a "#") w.
Proof. apply all_ext. intros a. simpl. apply lower_is_hash. Qed.

(** A line that the pattern of a section matches has, after its markers
    and spaces, the first letter of the section's name, in some case. *)
Lemma pat_section_first_letter (x : ascii) (name s : string) :
  Chr.isspace x = false -> Ascii.eqb x "#" = false ->
  matched (re_match true (pat_section (String x name)) s) = true ->
  exists a r, after_marks s = String a r /\ Chr.lower a = Chr.lower x.
Proof.
  intros Hs Hh E. apply re_match_sound in E. destruct E as (w & s' & -> & L).
  unfold pat_section in L. cbn [seq plus star] in L.
  destruct L as (w1 & r1 & -> & (L1 & _) & w2 & r2 & -> & (L2 & _) & w3 & r3 & -> & L3 & _).
  rewrite all_lit_hash in L1.
  assert (H3 : exists a w3', w3 = String a w3' /\ Chr.lower a = Chr.lower x).
  { apply lang_lit_ci in L3. destruct w3 as [|a w3]; [discriminate|].
    injection L3 as Ha _. eauto. }
  destruct H3 as (a & w3' & -> & Ha).
  exists a, (w3' ++ r3 ++ s'). split; [|exact Ha].
  rewrite !append_assoc.
  apply after_marks_decomposed; auto.
  - rewrite <- lower_is_hash, Ha, lower_is_hash. exact Hh.
  - rewrite <- lower_isspace, Ha, lower_isspace. exact Hs.
Qed.

Lemma test_of_time_after_marks (s : string) :
  test_of_time_header s ->
  exists a r, after_marks s = String a r /\ Chr.lower a = "t"%char.
Proof.
  intros (hs & ws0 & w1 & ws1 & w2 & ws2 & w3 & ws3 & w4 & plural & rest & -> & _ & Hh
          & H0 & E1 & _).
  destruct w1 as [|a w1]; [discriminate|]. injection E1 as Ha _.
  exists a, (w1 ++ ws1 ++ w2 ++ ws2 ++ w3 ++ ws3 ++ w4 ++ plural ++ rest).
  split; [|exact Ha].
  apply after_marks_decomposed; auto.
  - rewrite <- lower_is_hash, Ha. reflexivity.
  - rewrite <- lower_isspace, Ha. reflexivity.
Qed.

Lemma pat_section_not_test_of_time (x : ascii) (name s : string) :
  Chr.isspace x = false -> Ascii.eqb x "#" = false ->
  Ascii.eqb (Chr.lower x) "t" = false ->
  test_of_time_header s ->
  matched (re_match true (pat_section (String x name)) s) = false.
Proof.
  intros Hs Hh Ht T.
  destruct (matched _) eqn:E; [exfalso | reflexivity].
  apply pat_section_first_letter in E; [|assumption..].
  destruct E as (a & r & E & Ha).
  destruct (test_of_time_after_marks s T) as (a' & r' & E' & Ha').
  rewrite E in E'. injection E' as <- _.
  rewrite <- Ha, Ha' in Ht. discriminate.
Qed.

Lemma spaces_plus (p : nat) (ws s' : string) :
  ws <> EmptyString -> spaces ws -> lang true (plus (Is Space)) p ws s'.
Proof.
  intros Hne H. simpl. repeat split; [exact H | now apply not_empty_length].
Qed.

Lemma pat_test_of_time_matches (s : string) :
  test_of_time_header s -> matched (re_match true pat_test_of_time s) = true.
Proof.
  intros (hs & ws0 & w1 & ws1 & w2 & ws2 & w3 & ws3 & w4 & plural & rest & -> & Hne & Hh
          & H0 & E1 & N1 & S1 & E2 & N2 & S2 & E3 & N3 & S3 & E4 & Hp & Hr).
  assert (Hend : exists e rest', rest = e ++ rest'
            /\ forall p, lang true (Alt (Chr (Is Space)) Eol) p e rest').
  { destruct Hr as [-> | (c & r & -> & Hc)].
    - exists EmptyString, EmptyString. split; [reflexivity|].
      intros p. right. split; reflexivity.
    - exists (String c EmptyString), r. split; [reflexivity|].
      intros p. left. exists c. split; [reflexivity | exact Hc]. }
  destruct Hend as (e & rest' & -> & He).
  replace (hs ++ ws0 ++ w1 ++ ws1 ++ w2 ++ ws2 ++ w3 ++ ws3 ++ w4 ++ plural ++ e ++ rest')
    with ((hs ++ ws0 ++ w1 ++ ws1 ++ w2 ++ ws2 ++ w3 ++ ws3 ++ w4 ++ plural ++ e) ++ rest')
    by (now rewrite !append_assoc).
  apply re_match_complete.
  unfold pat_test_of_time. cbn [seq].
  seq_step ltac:(simpl; rewrite all_lit_hash; repeat split;
                 [exact Hh | now apply not_empty_length]).
  seq_step ltac:(simpl; repeat split; [exact H0 | lia]).
  seq_step ltac:(now apply lang_lit_ci).
  seq_step ltac:(now apply spaces_plus).
  seq_step ltac:(now apply lang_lit_ci).
  seq_step ltac:(now apply spaces_plus).
  seq_step ltac:(now apply lang_lit_ci).
  seq_step ltac:(now apply spaces_plus).
  seq_step ltac:(now apply lang_lit_ci).
  apply lang_seq_intro; [|apply He].
  destruct Hp as [-> | Hp]; [simpl; repeat split; lia|].
  destruct plural as [|a [|b plural]]; try discriminate.
  injection Hp as Hp. simpl. rewrite Hp. simpl. repeat split; lia.
Qed.

Lemma find_section_skip (name : string) (names : list string) (s : string) :
  String.eqb name test_of_time = false ->
  matched (re_match true (pat_section name) s) = false ->
  find_section (name :: names) s = find_section names s.
Proof.
  intros Hn Hm. cbn [find_section]. fold test_of_time. now rewrite Hn, Hm.
Qed.

Lemma find_section_test_of_time (s : string) :
  test_of_time_header s -> find_section section_names s = Some test_of_time.
Proof.
  intros T. unfold section_names.
  cbn [keys map fst initial_sections].
  repeat (rewrite find_section_skip;
          [| reflexivity
           | apply pat_section_not_test_of_time; [reflexivity.. | exact T]]).
  cbn [find_section]. fold test_of_time.
  rewrite String.eqb_refl, (pat_test_of_time_matches s T). reflexivity.
Qed.

Lemma split_on_line (sep : ascii) (a b : string) :
  without sep a ->
  Str.split_on sep (a ++ String sep b) = a :: Str.split_on sep b.
Proof.
  unfold without. induction a as [|c a IH]; simpl.
  - intros _. now rewrite Ascii.eqb_refl.
  - intros H. apply andb_prop in H. destruct H as [Hc H].
    apply negb_true_iff in Hc. rewrite Hc, (IH H). reflexivity.
Qed.

Lemma scan_line_header (cur : option string) (d : sections_dict) (line name : string) :
  keys d = section_names ->
  find_section section_names (Str.strip line) = Some name ->
  scan_line (cur, d) line = (Some name, d).
Proof. intros Hk Hf. unfold scan_line. now rewrite Hk, Hf. Qed.

Lemma scan_line_accepted (cs : string) (d : sections_dict) (line : string) :
  keys d = section_names -> In cs section_names ->
  is_header_line line = false -> is_paper_title_line line = true ->
  valid_title (extract_title_from_line line) = true ->
  scan_line (Some cs, d) line
  = (Some cs, append_paper cs (Paper (extract_title_from_line line) cs line) d).
Proof.
  intros Hk Hc Hh Hp Hv. unfold scan_line. rewrite Hk.
  unfold is_header_line in Hh.
  destruct (find_section section_names (Str.strip line)); [discriminate|].
  rewrite (section_name_truthy cs Hc), is_paper_title_line_strip, Hp.
  cbn [andb]. rewrite extract_title_from_line_strip, Hv. reflexivity.
Qed.

Lemma scan_line_empty (cur : option string) (d : sections_dict) :
  keys d = section_names -> scan_line (cur, d) EmptyString = (cur, d).
Proof.
  intros Hk. unfold scan_line. rewrite Hk.
  replace (find_section section_names (Str.strip EmptyString)) with (@None string)
    by (vm_compute; reflexivity).
  replace (is_paper_title_line (Str.strip EmptyString)) with false
    by (vm_compute; reflexivity).
  destruct cur as [cs|]; [|reflexivity]. now rewrite andb_false_r.
Qed.

(** C4: a header line made of header markers and the phrase test of time
    papers, in any case and with or without the plural, is recognised as
    the header of the section stored under [Test-of-Time-Papers], and it
    opens that section whatever the state of the scan; a document made of
    such a header and of a line that is accepted as a title has its
    record under that key.  The instance below is the example of the
    spec. *)
Theorem test_of_time_header_opens_section (header line : string) :
  test_of_time_header (Str.strip header) ->
  without Chr.nl header -> without Chr.nl line ->
  is_header_line line = false -> is_paper_title_line line = true ->
  valid_title (extract_title_from_line line) = true ->
  find_section section_names (Str.strip header) = Some test_of_time
  /\ (forall cur d, keys d = section_names ->
        scan_line (cur, d) header = (Some test_of_time, d))
  /\ lookup test_of_time (parse_papers_from_main_readme (header ++ nl ++ line ++ nl))
     = Some [Paper (extract_title_from_line line) test_of_time line].
Proof.
  intros T Hh Hl Hnh Hp Hv.
  pose proof (find_section_test_of_time _ T) as Hf.
  split; [exact Hf|]. split.
  - intros cur d Hk. now apply scan_line_header.
  - rewrite parse_nonempty by (destruct header; discriminate).
    unfold lines_of, nl. cbn [append].
    rewrite (split_on_line Chr.nl header) by exact Hh.
    rewrite (split_on_line Chr.nl line) by exact Hl.
    unfold scan. cbn [Str.split_on fold_left].
    rewrite (scan_line_header None initial_sections header test_of_time)
      by (reflexivity || exact Hf).
    assert (Hin : In test_of_time section_names)
      by (unfold section_names, test_of_time; simpl; tauto).
    rewrite (scan_line_accepted test_of_time initial_sections line)
      by (reflexivity || assumption).
    rewrite scan_line_empty by (now rewrite keys_append_paper).
    reflexivity.
Qed.

Lemma test_of_time_header_opens_section_witness :
  test_of_time_header (Str.strip "### Test of Time Papers")
  /\ lookup test_of_time (parse_papers_from_main_readme doc_test_of_time)
     = Some [ Paper "A Seminal Work on Vision" test_of_time
                "A Seminal Work on Vision (2015) [Paper]" ].
Proof.
  assert (T : test_of_time_header (Str.strip "### Test of Time Papers")).
  { exists "###", " ", "Test", " ", "of", " ", "Time", " ", "Paper", "s", EmptyString.
    repeat split; try reflexivity; try discriminate; auto. }
  split; [exact T|].
  assert (H : lookup test_of_time
                (parse_papers_from_main_readme
                   ("### Test of Time Papers" ++ nl
                    ++ "A Seminal Work on Vision (2015) [Paper]" ++ nl))
              = Some [ Paper (extract_title_from_line
                                "A Seminal Work on Vision (2015) [Paper]")
                         test_of_time "A Seminal Work on Vision (2015) [Paper]" ]).
  { apply (test_of_time_header_opens_section "### Test of Time Papers"
             "A Seminal Work on Vision (2015) [Paper]" T);
      vm_compute; reflexivity. }
  unfold doc_test_of_time. rewrite H.
  replace (extract_title_from_line "A Seminal Work on Vision (2015) [Paper]")
    with "A Seminal Work on Vision" by (vm_compute; reflexivity).
  reflexivity.
Defined.

(** ** Lines that are skipped *)

Lemma lower_split (p1 p2 : string) : forall w,
  Str.lower w = p1 ++ p2 ->
  exists w1 w2, w = w1 ++ w2 /\ Str.lower w1 = p1 /\ Str.lower w2 = p2.
Proof.
  induction p1 as [|c p1 IH]; intros w H.
  - exists EmptyString, w. auto.
  - destruct w as [|a w]; [discriminate|]. simpl in H. injection H as Ha H.
    destruct (IH w H) as (w1 & w2 & -> & H1 & H2).
    exists (String a w1), w2. simpl. rewrite Ha, H1. auto.
Qed.

Lemma prefix_lower_split (p : string) : forall s,
  String.prefix p (Str.lower s) = true ->
  exists w rest, s = w ++ rest /\ Str.lower w = p.
Proof.
  induction p as [|c p IH]; intros s H.
  - exists EmptyString, s. auto.
  - destruct s as [|a s]; [discriminate|]. simpl in H.
    destruct (ascii_dec c (Chr.lower a)) as [->|]; [|discriminate].
    destruct (IH s H) as (w & rest & -> & Hw).
    exists (String a w), rest. simpl. now rewrite Hw.
Qed.

(** The first of the patterns to skip matches a line with the label. *)
Lemma authors_pattern_matches (s : string) :
  String.prefix "author:" (Str.lower s) = true
  \/ String.prefix "authors:" (Str.lower s) = true ->
  matched (re_match true (seq [Bol; lit "author"; opt (ch "s"); lit ":"]) s) = true.
Proof.
  intros H.
  assert (L : exists w rest, s = w ++ rest
                /\ lang true (seq [Bol; lit "author"; opt (ch "s"); lit ":"]) 0 w rest).
  { cbn [seq].
    destruct H as [H | H]; apply prefix_lower_split in H;
      destruct H as (w & rest & -> & Hw); exists w, rest; (split; [reflexivity|]).
    - apply (lower_split "author" ":") in Hw.
      destruct Hw as (w1 & w2 & -> & H1 & H2).
      apply (lang_seq_intro _ _ _ _ EmptyString); [split; reflexivity|].
      apply lang_seq_intro; [now apply lang_lit_ci|].
      apply (lang_seq_intro _ _ _ _ EmptyString); [simpl; repeat split; lia|].
      now apply lang_lit_ci.
    - apply (lower_split "author" "s:") in Hw.
      destruct Hw as (w1 & w2 & -> & H1 & H2).
      apply (lower_split "s" ":") in H2.
      destruct H2 as (w3 & w4 & -> & H3 & H4).
      apply (lang_seq_intro _ _ _ _ EmptyString); [split; reflexivity|].
      apply lang_seq_intro; [now apply lang_lit_ci|].
      apply lang_seq_intro; [|now apply lang_lit_ci].
      destruct w3 as [|a [|b w3]]; try discriminate.
      injection H3 as H3. simpl. rewrite H3. simpl. repeat split; lia. }
  destruct L as (w & rest & -> & L). now apply re_match_complete.
Qed.

Lemma authors_label_rejected (line : string) :
  authors_label line -> is_paper_title_line line = false.
Proof.
  intros H. unfold is_paper_title_line.
  destruct (negb (Str.truthy (Str.strip line))); [reflexivity|].
  unfold skip_patterns. cbn [existsb].
  now rewrite (authors_pattern_matches _ H).
Qed.

Lemma from_title_lines_append (cs : string) (p : paper) (d : sections_dict) :
  is_paper_title_line (raw_line p) = true ->
  from_title_lines d -> from_title_lines (append_paper cs p d).
Proof.
  unfold from_title_lines. intros Hp.
  induction d as [|[k' v'] d IH]; simpl; intros Hd k v r; [tauto|].
  destruct (String.eqb cs k').
  - intros [[= <- <-] | Hin] Hr.
    + apply in_app_or in Hr. destruct Hr as [Hr | [<- | []]].
      * eapply Hd; [left; reflexivity | exact Hr].
      * exact Hp.
    + eapply Hd; [right; exact Hin | exact Hr].
  - intros [[= <- <-] | Hin] Hr.
    + eapply Hd; [left; reflexivity | exact Hr].
    + eapply IH; [| exact Hin | exact Hr].
      intros k0 v0 r0 H0 H1. apply (Hd k0 v0 r0); [now right | exact H1].
Qed.

Lemma scan_line_from_title_lines (st : scan_state) (line : string) :
  from_title_lines (snd st) -> from_title_lines (snd (scan_line st line)).
Proof.
  destruct st as [cur d]. cbn [snd]. intros Hd. unfold scan_line.
  destruct (find_section _ _); [exact Hd|].
  destruct cur as [cs|]; [|exact Hd].
  destruct (Str.truthy cs); [|exact Hd]. cbn [andb].
  destruct (is_paper_title_line (Str.strip line)) eqn:Hp; [|exact Hd].
  destruct (valid_title _); [|exact Hd].
  cbn [snd]. apply from_title_lines_append; [|exact Hd].
  cbn [raw_line]. now rewrite <- is_paper_title_line_strip.
Qed.

Lemma scan_lines_from_title_lines (lines : list string) (st : scan_state) :
  from_title_lines (snd st) -> from_title_lines (snd (fold_left scan_line lines st)).
Proof.
  revert st. induction lines as [|l ls IH]; intros st H; [exact H|].
  cbn [fold_left]. apply IH. now apply scan_line_from_title_lines.
Qed.

Lemma parse_from_title_lines (content : string) :
  from_title_lines (parse_papers_from_main_readme content).
Proof.
  unfold parse_papers_from_main_readme.
  destruct (negb (Str.truthy content)); [intros k v r []|].
  apply scan_lines_from_title_lines.
  intros k v r Hin Hr. cbn [snd] in Hin. simpl in Hin.
  repeat (destruct Hin as [[= <- <-] | Hin]; [destruct Hr|]). destruct Hin.
Qed.

(** C7: a line with the Authors label is never classified as a paper
    title line, and no record of any parse result comes from such a
    line. *)
Theorem authors_line_never_recorded (line : string) :
  authors_label line ->
  is_paper_title_line line = false
  /\ forall content k v r,
       In (k, v) (parse_papers_from_main_readme content) -> In r v ->
       raw_line r <> line.
Proof.
  intros H. pose proof (authors_label_rejected line H) as Hrej.
  split; [exact Hrej|].
  intros content k v r Hin Hr E.
  pose proof (parse_from_title_lines content k v r Hin Hr) as Ht.
  rewrite E, Hrej in Ht. discriminate.
Qed.

Lemma authors_line_never_recorded_witness :
  authors_label line_authors /\ is_paper_title_line line_authors = false.
Proof.
  assert (H : authors_label line_authors) by (right; vm_compute; reflexivity).
  split; [exact H|].
  exact (proj1 (authors_line_never_recorded line_authors H)).
Defined.

(** ** [re.sub] *)

Lemma all_and (f g : ascii -> bool) (s : string) :
  Str.all f s = true -> Str.all g s = true ->
  Str.all (fun a => f a && g a) s = true.
Proof.
  induction s as [|a s IH]; simpl; [reflexivity|].
  intros Hf Hg. apply andb_prop in Hf, Hg.
  destruct Hf as [-> Hf], Hg as [-> Hg]. now rewrite IH.
Qed.

(** Deleting the matches of a one-character pattern keeps the other
    characters. *)
Lemma sub_scan_chr ic c (s : string) : forall p,
  sub_scan ic (Chr c) EmptyString p 0 s = str_filter (fun a => negb (cmatch ic c a)) s.
Proof.
  induction s as [|a s IH]; intros p; [reflexivity|].
  cbn [sub_scan str_filter]. unfold match_at, whole. cbn [rmatch m_rest m_pos m_grp].
  destruct (cmatch ic c a); cbn [negb option_map mobj_of m_stop m_pos andb].
  - rewrite Nat.sub_succ_l, Nat.sub_diag by apply le_n. simpl. apply IH.
  - now rewrite IH.
Qed.

Lemma re_sub_chr ic c (s : string) :
  re_sub ic (Chr c) EmptyString s = str_filter (fun a => negb (cmatch ic c a)) s.
Proof. apply sub_scan_chr. Qed.

Lemma str_filter_ext (f g : ascii -> bool) (s : string) :
  (forall a, f a = g a) -> str_filter f s = str_filter g s.
Proof. intros H. induction s as [|a s IH]; simpl; [reflexivity | now rewrite H, IH]. Qed.

Lemma str_filter_all (f : ascii -> bool) (s : string) : Str.all f (str_filter f s) = true.
Proof.
  induction s as [|a s IH]; simpl; [reflexivity|].
  destruct (f a) eqn:E; simpl; [now rewrite E | exact IH].
Qed.

(** A greedy repetition before the end of the pattern takes the whole
    run. *)
Lemma rep_greedy_run ic c q g (s : string) : forall lo p,
  rep ic c true lo None p s g (whole false q)
  = if Nat.leb lo (run_length (cmatch ic c) s)
    then Some (MState (p + run_length (cmatch ic c) s)
                 (Str.drop (run_length (cmatch ic c) s) s) g)
    else None.
Proof.
  induction s as [|a s IH]; intros lo p; rewrite rep_eq; unfold rep_take, rep_stop.
  - simpl. rewrite Nat.add_0_r. destruct lo; reflexivity.
  - cbn [run_length dec_hi option_map]. destruct (cmatch ic c a).
    + rewrite IH. cbn [Str.drop]. rewrite Nat.add_succ_r.
      destruct lo as [|lo]; cbn [pred Nat.leb]; [reflexivity|].
      destruct (Nat.leb lo (run_length (cmatch ic c) s)); reflexivity.
    + cbn [Str.drop Nat.leb]. rewrite Nat.add_0_r. destruct lo; reflexivity.
Qed.

Lemma match_at_plus_run ic c p (s : string) :
  match_at ic (plus c) false p s
  = match run_length (cmatch ic c) s with
    | O => None
    | S n => Some (MObj p (p + S n) None)
    end.
Proof.
  unfold match_at, plus. cbn [rmatch m_pos m_rest m_grp].
  rewrite rep_greedy_run.
  destruct (run_length (cmatch ic c) s); reflexivity.
Qed.

(** [re.sub] of [\s+] by an underscore. *)
Lemma sub_scan_spaces (s : string) :
  (forall p, sub_scan false pat_spaces "_" p 0 s = collapse_from false s)
  /\ (forall p, sub_scan false pat_spaces "_" p (run_length Chr.isspace s) s
                = collapse_from true s).
Proof.
  unfold pat_spaces.
  induction s as [|a s [IHa IHb]].
  - split; intros p; reflexivity.
  - assert (A : forall p, sub_scan false (plus (Is Space)) "_" p 0 (String a s)
                          = collapse_from false (String a s)).
    { intros p. cbn [sub_scan]. rewrite match_at_plus_run.
      change (cmatch false (Is Space)) with Chr.isspace.
      cbn [run_length collapse_from]. destruct (Chr.isspace a).
      - cbn [m_stop].
        replace (p + S (run_length Chr.isspace s) - p)
          with (S (run_length Chr.isspace s)) by lia.
        rewrite IHb. reflexivity.
      - now rewrite IHa. }
    split; [exact A|].
    intros p. cbn [run_length]. destruct (Chr.isspace a) eqn:Ha.
    + cbn [sub_scan collapse_from]. rewrite Ha. apply IHb.
    + rewrite A. cbn [collapse_from]. now rewrite Ha.
Qed.

Lemma re_sub_spaces (s : string) : re_sub false pat_spaces "_" s = collapse_spaces s.
Proof. apply (proj1 (sub_scan_spaces s)). Qed.

(** Replacing a space by a space changes neither the trimming nor the
    runs. *)
Section ReplaceSpace.

Variables old new : ascii.
Hypothesis old_space : Chr.isspace old = true.
Hypothesis new_space : Chr.isspace new = true.

Lemma replace_isspace (a : ascii) :
  Chr.isspace (if Ascii.eqb a old then new else a) = Chr.isspace a.
Proof.
  destruct (Ascii.eqb_spec a old) as [->|]; [now rewrite old_space, new_space | reflexivity].
Qed.

Lemma lstrip_replace (s : string) :
  Str.lstrip (Str.replace_char old new s) = Str.replace_char old new (Str.lstrip s).
Proof.
  induction s as [|a s IH]; simpl; [reflexivity|].
  rewrite replace_isspace. destruct (Chr.isspace a); [exact IH | reflexivity].
Qed.

Lemma rstrip_replace (s : string) :
  Str.rstrip (Str.replace_char old new s) = Str.replace_char old new (Str.rstrip s).
Proof.
  induction s as [|a s IH]; simpl; [reflexivity|].
  rewrite IH, replace_isspace.
  destruct (Str.rstrip s); simpl; [destruct (Chr.isspace a)|]; reflexivity.
Qed.

Lemma strip_replace (s : string) :
  Str.strip (Str.replace_char old new s) = Str.replace_char old new (Str.strip s).
Proof. unfold Str.strip. now rewrite lstrip_replace, rstrip_replace. Qed.

Lemma collapse_replace (s : string) : forall b,
  collapse_from b (Str.replace_char old new s) = collapse_from b s.
Proof.
  induction s as [|a s IH]; intros b; simpl; [reflexivity|].
  rewrite replace_isspace. destruct (Chr.isspace a) eqn:Ha.
  - now rewrite IH.
  - destruct (Ascii.eqb_spec a old) as [E|]; [|now rewrite IH].
    subst a. rewrite old_space in Ha. discriminate.
Qed.

End ReplaceSpace.

Lemma take_short (n : nat) (s : string) : String.length s <= n -> Str.take n s = s.
Proof.
  unfold Str.take. revert n. induction s as [|a s IH]; intros [|n] H; simpl in *;
    try reflexivity; try lia.
  rewrite IH by lia. reflexivity.
Qed.

Lemma collapse_no_space (s : string) : forall b,
  Str.all (fun c => negb (Chr.isspace c)) (collapse_from b s) = true.
Proof.
  induction s as [|a s IH]; intros b; simpl; [reflexivity|].
  destruct (Chr.isspace a) eqn:Ha.
  - destruct b; [apply IH | simpl; apply IH].
  - simpl. rewrite Ha. apply IH.
Qed.

Lemma collapse_keeps (f : ascii -> bool) (s : string) : forall b,
  f "_"%char = true -> Str.all f s = true -> Str.all f (collapse_from b s) = true.
Proof.
  induction s as [|a s IH]; intros b Hu H; simpl; [reflexivity|].
  simpl in H. apply andb_prop in H. destruct H as [Ha H].
  destruct (Chr.isspace a).
  - destruct b; [now apply IH | simpl; rewrite Hu; now apply IH].
  - simpl. rewrite Ha. now apply IH.
Qed.

(** ** [sanitize_filename] *)

Lemma lstrip_all (f : ascii -> bool) (s : string) :
  Str.all f s = true -> Str.all f (Str.lstrip s) = true.
Proof.
  induction s as [|a s IH]; simpl; [reflexivity|].
  intros H. destruct (Chr.isspace a); [|exact H].
  apply andb_prop in H. now apply IH.
Qed.

Lemma rstrip_all (f : ascii -> bool) (s : string) :
  Str.all f s = true -> Str.all f (Str.rstrip s) = true.
Proof.
  induction s as [|a s IH]; simpl; [reflexivity|].
  intros H. apply andb_prop in H. destruct H as [Ha H]. specialize (IH H).
  destruct (Str.rstrip s).
  - destruct (Chr.isspace a); simpl; [reflexivity | now rewrite Ha].
  - simpl in *. now rewrite Ha, IH.
Qed.

Lemma strip_all (f : ascii -> bool) (s : string) :
  Str.all f s = true -> Str.all f (Str.strip s) = true.
Proof. intros H. unfold Str.strip. now apply rstrip_all, lstrip_all. Qed.

Lemma take_all (f : ascii -> bool) (n : nat) (s : string) :
  Str.all f s = true -> Str.all f (Str.take n s) = true.
Proof.
  unfold Str.take. revert n. induction s as [|a s IH]; intros [|n] H; try reflexivity.
  simpl in *. apply andb_prop in H. destruct H as [-> H]. now apply IH.
Qed.

Lemma take_length (n : nat) (s : string) : String.length (Str.take n s) <= n.
Proof.
  unfold Str.take. revert n. induction s as [|a s IH]; intros [|n]; simpl; try lia.
  specialize (IH n). lia.
Qed.

(** The three substitutions and the trimming of [sanitize_filename] come
    to this: the invalid characters go, the ends are trimmed, and every
    run of spaces becomes one underscore. *)
Lemma underscored_body (title : string) :
  underscored title
  = collapse_spaces (Str.strip (str_filter (fun c => negb (invalid_char c)) title)).
Proof.
  unfold underscored. rewrite re_sub_spaces.
  rewrite !strip_replace by reflexivity.
  unfold collapse_spaces. rewrite !collapse_replace by reflexivity.
  unfold pat_invalid. rewrite re_sub_chr. reflexivity.
Qed.

(** C8 as the spec states it does not hold: the hyphen and the
    exclamation mark of the title, which are not alphanumeric, are kept;
    only the colon, one of the nine characters of the pattern, goes. *)
Lemma sanitize_filename_counterexample :
  sanitize_filename "Mask R-CNN: Fast!" "CVPR" = "CVPR_Mask_R-CNN_Fast!.pdf"
  /\ Chr.isalnum "-" = false /\ Chr.isalnum "!" = false.
Proof. repeat split; vm_compute; reflexivity. Qed.

(** C8, amended: the file name is the section and an underscore, when
    the section is not empty, then a body and the suffix [.pdf]; the body
    is the title without the nine characters that are invalid in a file
    name, trimmed, with one underscore for every run of spaces, cut at 80
    characters; so it has at most 80 characters, none of them invalid and
    none a space. *)
Theorem sanitize_filename_shape (title section : string) :
  sanitize_filename title section
    = (if Str.truthy section then section ++ "_" else EmptyString)
      ++ filename_body title ++ ".pdf"
  /\ String.length (filename_body title) <= 80
  /\ Str.all (fun c => negb (invalid_char c) && negb (Chr.isspace c))
       (filename_body title) = true.
Proof.
  split; [|split].
  - unfold sanitize_filename. fold (underscored title).
    rewrite underscored_body. fold (filename_body title).
    assert (E : (if Nat.ltb 80 (String.length (collapse_spaces (Str.strip
                       (str_filter (fun c => negb (invalid_char c)) title))))
                 then filename_body title
                 else collapse_spaces (Str.strip
                        (str_filter (fun c => negb (invalid_char c)) title)))
                = filename_body title).
    { destruct (Nat.ltb_spec 80 (String.length (collapse_spaces (Str.strip
                  (str_filter (fun c => negb (invalid_char c)) title)))));
        [reflexivity|].
      unfold filename_body. now rewrite take_short. }
    rewrite E. destruct (Str.truthy section); [|reflexivity].
    now rewrite !append_assoc.
  - apply take_length.
  - unfold filename_body. apply take_all, all_and.
    + apply collapse_keeps; [reflexivity|]. apply strip_all, str_filter_all.
    + apply collapse_no_space.
Qed.

(** ** The fingerprint *)

Lemma clean_title_key (title : string) : clean_title title = title_key title.
Proof.
  unfold clean_title, title_key, pat_not_word_space. rewrite re_sub_chr.
  apply str_filter_ext. intros a. simpl.
  rewrite orb_false_r. apply negb_involutive.
Qed.

Lemma ltb_lt (x y : string) : String.ltb x y = true <-> String_as_OT.lt x y.
Proof.
  unfold String.ltb. rewrite <- String_as_OT.cmp_lt. unfold String_as_OT.cmp.
  destruct (String.compare x y); split; intros; congruence.
Qed.

Lemma ltb_trans (x y z : string) :
  String.ltb x y = true -> String.ltb y z = true -> String.ltb x z = true.
Proof. rewrite !ltb_lt. apply String_as_OT.lt_trans. Qed.

Lemma ltb_total (x y : string) :
  String.ltb x y = false -> String.ltb y x = false -> x = y.
Proof.
  unfold String.ltb. rewrite (String.compare_antisym y x).
  destruct (String.compare x y) eqn:E; simpl; try discriminate.
  intros _ _. now apply String.compare_eq_iff.
Qed.

Lemma ltb_irrefl (x : string) : String.ltb x x = false.
Proof.
  unfold String.ltb.
  assert (E : String.compare x x = Eq) by (now apply (String_as_OT.cmp_eq x x)).
  now rewrite E.
Qed.

Lemma ltb_asym (x y : string) :
  String.ltb x y = true -> String.ltb y x = true -> False.
Proof.
  intros H1 H2. pose proof (ltb_trans _ _ _ H1 H2) as H.
  rewrite ltb_irrefl in H. discriminate.
Qed.

(** Inserting two strings in either order gives the same list. *)
Lemma insert_sorted_comm (x y : string) (l : list string) :
  insert_sorted x (insert_sorted y l) = insert_sorted y (insert_sorted x l).
Proof.
  induction l as [|z l IH]; simpl.
  - destruct (String.ltb x y) eqn:Exy, (String.ltb y x) eqn:Eyx; try reflexivity.
    + destruct (ltb_asym _ _ Exy Eyx).
    + now rewrite (ltb_total _ _ Exy Eyx).
  - destruct (String.ltb y z) eqn:Eyz, (String.ltb x z) eqn:Exz; simpl;
      rewrite ?Eyz, ?Exz.
    + destruct (String.ltb x y) eqn:Exy, (String.ltb y x) eqn:Eyx; try reflexivity.
      * destruct (ltb_asym _ _ Exy Eyx).
      * now rewrite (ltb_total _ _ Exy Eyx).
    + destruct (String.ltb x y) eqn:Exy; [|reflexivity].
      rewrite (ltb_trans _ _ _ Exy Eyz) in Exz. discriminate.
    + destruct (String.ltb y x) eqn:Eyx; [|reflexivity].
      rewrite (ltb_trans _ _ _ Eyx Exz) in Eyz. discriminate.
    + now rewrite IH.
Qed.

(** [sorted] does not depend on the order of its argument. *)
Lemma sorted_permutation (l1 l2 : list string) :
  Permutation l1 l2 -> sorted l1 = sorted l2.
Proof.
  unfold sorted. induction 1 as [|x l1 l2 _ IH|x y l|l1 l2 l3 _ IH1 _ IH2]; simpl.
  - reflexivity.
  - now rewrite IH.
  - apply insert_sorted_comm.
  - now rewrite IH1.
Qed.

Lemma permutation_filter {A : Type} (f : A -> bool) (l1 l2 : list A) :
  Permutation l1 l2 -> Permutation (filter f l1) (filter f l2).
Proof.
  induction 1 as [|x l1 l2 _ IH|x y l|l1 l2 l3 _ IH1 _ IH2]; simpl.
  - constructor.
  - destruct (f x); [now constructor | exact IH].
  - destruct (f x), (f y); try apply Permutation_refl. constructor.
  - eapply Permutation_trans; eassumption.
Qed.

(** C10 as it is stated does not hold: the two titles are equal once in
    lower case and without their punctuation, the authors are the same
    up to their order, and the hashes differ; the trimming, which comes
    before the punctuation goes, removes the final space of one title
    only. *)
Lemma generate_paper_hash_counterexample :
  ~ (forall t1 t2 l1 l2,
       title_letters t1 = title_letters t2 -> Permutation l1 l2 ->
       generate_paper_hash t1 (Some l1) = generate_paper_hash t2 (Some l2)).
Proof.
  intros H.
  specialize (H title_with_mark title_with_space
                ["Yann LeCun"; "Yoshua Bengio"] ["Yoshua Bengio"; "Yann LeCun"]).
  assert (E : title_letters title_with_mark = title_letters title_with_space)
    by (vm_compute; reflexivity).
  specialize (H E (perm_swap _ _ _)).
  vm_compute in H. discriminate H.
Qed.

(** C10, amended: two titles that are equal once in lower case, trimmed,
    and then without their characters that are neither word characters
    nor spaces have the same hash, with the same authors in any order,
    and without authors. *)
Theorem generate_paper_hash_invariant (t1 t2 : string) (l1 l2 : list string) :
  title_key t1 = title_key t2 -> Permutation l1 l2 ->
  generate_paper_hash t1 (Some l1) = generate_paper_hash t2 (Some l2)
  /\ generate_paper_hash t1 None = generate_paper_hash t2 None.
Proof.
  intros Ht Hp. unfold generate_paper_hash.
  rewrite !clean_title_key, Ht. split; [|reflexivity].
  assert (Hs : sorted (map (fun a => Str.strip (Str.lower a)) (filter Str.truthy l1))
               = sorted (map (fun a => Str.strip (Str.lower a)) (filter Str.truthy l2))).
  { apply sorted_permutation, Permutation_map, permutation_filter, Hp. }
  destruct l1 as [|a1 l1], l2 as [|a2 l2].
  - reflexivity.
  - apply Permutation_nil in Hp. discriminate.
  - apply Permutation_sym, Permutation_nil in Hp. discriminate.
  - now rewrite Hs.
Qed.

Lemma generate_paper_hash_invariant_witness :
  generate_paper_hash "Deep Learning!" (Some ["Yann LeCun"; "Yoshua Bengio"])
  = generate_paper_hash "deep learning" (Some ["Yoshua Bengio"; "Yann LeCun"]).
Proof.
  apply (generate_paper_hash_invariant "Deep Learning!" "deep learning"
           ["Yann LeCun"; "Yoshua Bengio"] ["Yoshua Bengio"; "Yann LeCun"]).
  - vm_compute. reflexivity.
  - apply perm_swap.
Defined.

(** ** The records of a parse result *)

Lemma lookup_append_paper (name cs : string) (p : paper) (d : sections_dict) :
  lookup name (append_paper cs p d)
  = if String.eqb name cs
    then option_map (fun v => (v ++ [p])%list) (lookup name d)
    else lookup name d.
Proof.
  induction d as [|[k' v] d IH]; simpl.
  - destruct (String.eqb name cs); reflexivity.
  - destruct (String.eqb cs k') eqn:Ec; simpl.
    + apply String.eqb_eq in Ec. subst k'.
      destruct (String.eqb name cs); reflexivity.
    + destruct (String.eqb name k') eqn:En.
      * apply String.eqb_eq in En. subst k'.
        rewrite String.eqb_sym, Ec. reflexivity.
      * exact IH.
Qed.

Lemma scan_line_section_records (name : string) (cur : option string)
    (d : sections_dict) (v : list paper) (l : string) (ls : list string) :
  scan_inv (cur, d) -> lookup name d = Some v ->
  exists v',
    lookup name (snd (scan_line (cur, d) l)) = Some v'
    /\ (v' ++ section_records name
                (filter accepted (title_lines (fst (scan_line (cur, d) l)) ls)))%list
       = (v ++ section_records name
                 (filter accepted (title_lines cur (l :: ls))))%list.
Proof.
  intros (Hk & Hc & Hf) Hl. cbn [fst snd] in Hk, Hc.
  unfold scan_line. cbn [title_lines]. rewrite Hk.
  destruct (find_section section_names (Str.strip l)) as [n|];
    [exists v; split; [exact Hl | reflexivity]|].
  destruct cur as [cs|]; [|exists v; split; [exact Hl | reflexivity]].
  rewrite (section_name_truthy cs) by (apply Hc; reflexivity).
  cbn [andb]. rewrite is_paper_title_line_strip.
  destruct (is_paper_title_line l); [|exists v; split; [exact Hl | reflexivity]].
  rewrite extract_title_from_line_strip.
  cbn [filter]. unfold accepted at 2. cbn [snd].
  destruct (valid_title (extract_title_from_line l));
    [|exists v; split; [exact Hl | reflexivity]].
  cbn [fst snd]. rewrite lookup_append_paper, Hl.
  unfold section_records. cbn [filter fst].
  destruct (String.eqb name cs); cbn [option_map].
  - eexists. split; [reflexivity|].
    cbn [map]. unfold record_of at 2. cbn [fst snd].
    now rewrite <- app_assoc.
  - exists v. split; reflexivity.
Qed.

Lemma scan_section_records (name : string) (lines : list string) :
  forall cur d v,
    scan_inv (cur, d) -> lookup name d = Some v ->
    lookup name (snd (fold_left scan_line lines (cur, d)))
    = Some (v ++ section_records name (filter accepted (title_lines cur lines)))%list.
Proof.
  induction lines as [|l ls IH]; intros cur d v Hinv Hl.
  - simpl. unfold section_records. simpl. now rewrite app_nil_r.
  - cbn [fold_left].
    destruct (scan_line_section_records name cur d v l ls Hinv Hl) as (v' & Hl' & E).
    pose proof (scan_line_inv _ l Hinv) as Hnext.
    destruct (scan_line (cur, d) l) as [cur' d']. cbn [fst snd] in *.
    rewrite (IH cur' d' v' Hnext Hl'). now rewrite E.
Qed.

Lemma lookup_initial_sections (name : string) :
  In name section_names -> lookup name initial_sections = Some [].
Proof.
  unfold section_names. cbn [keys map fst initial_sections].
  intros H. repeat (destruct H as [<- | H]; [reflexivity|]). destruct H.
Qed.

(** X1: in the result for a document that is not empty, the records of
    a section are the lines that were classified as title lines while
    that section was active and whose title passed the final validation,
    in the order of the document, each with its section, its line and the
    title extracted from the line. *)
Theorem parse_section_records (content name : string) :
  content <> EmptyString -> In name section_names ->
  lookup name (parse_papers_from_main_readme content)
  = Some (section_records name
            (filter accepted (title_lines None (lines_of content)))).
Proof.
  intros Hne Hin. rewrite parse_nonempty by exact Hne. unfold scan.
  rewrite (scan_section_records name _ None initial_sections [])
    by (exact scan_inv_init || now apply lookup_initial_sections).
  reflexivity.
Qed.

Lemma parse_section_records_witness :
  lookup "CVPR" (parse_papers_from_main_readme doc_cvpr_iclr)
  = Some (section_records "CVPR"
            [("CVPR", "Awesome Detection Method (CVPR 2023) [Paper]")]).
Proof.
  rewrite (parse_section_records doc_cvpr_iclr "CVPR").
  - vm_compute. reflexivity.
  - discriminate.
  - left. reflexivity.
Defined.

Lemma append_paper_all (P : paper -> Prop) (cs : string) (p : paper) (d : sections_dict) :
  P p ->
  (forall k v r, In (k, v) d -> In r v -> P r) ->
  forall k v r, In (k, v) (append_paper cs p d) -> In r v -> P r.
Proof.
  intros Hp. induction d as [|[k' v'] d IH]; simpl; intros Hd k v r; [tauto|].
  destruct (String.eqb cs k').
  - intros [[= <- <-] | Hin] Hr.
    + apply in_app_or in Hr. destruct Hr as [Hr | [<- | []]].
      * eapply Hd; [left; reflexivity | exact Hr].
      * exact Hp.
    + eapply Hd; [right; exact Hin | exact Hr].
  - intros [[= <- <-] | Hin] Hr.
    + eapply Hd; [left; reflexivity | exact Hr].
    + eapply IH; [| exact Hin | exact Hr].
      intros k0 v0 r0 H0 H1. apply (Hd k0 v0 r0); [now right | exact H1].
Qed.

Lemma scan_lines_record_ok (doc lines : list string) :
  (forall l, In l lines -> In l doc) ->
  forall st,
    scan_inv st ->
    (forall k v r, In (k, v) (snd st) -> In r v -> record_ok doc r) ->
    forall k v r, In (k, v) (snd (fold_left scan_line lines st)) -> In r v ->
                  record_ok doc r.
Proof.
  induction lines as [|l ls IH]; intros Hsub st Hinv Hd; [exact Hd|].
  cbn [fold_left]. apply IH.
  - intros l' H. apply Hsub. now right.
  - now apply scan_line_inv.
  - destruct st as [cur d]. destruct Hinv as (Hk & Hc & Hf). cbn [fst snd] in *.
    unfold scan_line.
    destruct (find_section _ _); [exact Hd|].
    destruct cur as [cs|]; [|exact Hd].
    destruct (Str.truthy cs); [|exact Hd]. cbn [andb].
    destruct (is_paper_title_line (Str.strip l)) eqn:Hp; [|exact Hd].
    destruct (valid_title _) eqn:Hv; [|exact Hd].
    cbn [snd]. apply append_paper_all; [|exact Hd].
    rewrite is_paper_title_line_strip in Hp.
    rewrite extract_title_from_line_strip in Hv |- *.
    repeat split; cbn [raw_line title section]; auto.
    apply Hsub. now left.
Qed.

(** X2: every record of a parse result comes from a line of the
    document that is classified as a paper title line; its title is what
    [extract_title_from_line] returns on that line, and it passes the
    final validation; its section is one of the configured names. *)
Theorem parse_records_ok (content k : string) (v : list paper) (r : paper) :
  In (k, v) (parse_papers_from_main_readme content) -> In r v ->
  In (raw_line r) (lines_of content)
  /\ is_paper_title_line (raw_line r) = true
  /\ title r = extract_title_from_line (raw_line r)
  /\ valid_title (title r) = true
  /\ In (section r) section_names.
Proof.
  unfold parse_papers_from_main_readme.
  destruct (negb (Str.truthy content)); [intros []|].
  intros Hin Hr.
  apply (scan_lines_record_ok (lines_of content) (lines_of content)
           (fun l H => H) (None, initial_sections) scan_inv_init) with (k := k) (v := v);
    auto.
  intros k0 v0 r0 H0 H1. cbn [snd] in H0. simpl in H0.
  repeat (destruct H0 as [[= <- <-] | H0]; [destruct H1|]). destruct H0.
Qed.

Lemma parse_records_ok_witness :
  valid_title "Awesome Detection Method" = true.
Proof.
  apply (parse_records_ok doc_cvpr_iclr "CVPR"
           [Paper "Awesome Detection Method" "CVPR"
              "Awesome Detection Method (CVPR 2023) [Paper]"]
           (Paper "Awesome Detection Method" "CVPR"
              "Awesome Detection Method (CVPR 2023) [Paper]")).
  - vm_compute. left. reflexivity.
  - left. reflexivity.
Defined.

(** ** The run *)

Lemma update_section_new (name : string) (f : SectionStats.t -> SectionStats.t)
    (d : list (string * SectionStats.t)) :
  ~ In name (map fst d) ->
  update_section name f d = (d ++ [(name, f SectionStats.zero)])%list.
Proof.
  induction d as [|[k v] d IH]; simpl; intros H; [reflexivity|].
  destruct (String.eqb_spec name k) as [->|_]; [tauto|].
  rewrite IH by tauto. reflexivity.
Qed.

Lemma update_section_keys (name : string) (f : SectionStats.t -> SectionStats.t)
    (d : list (string * SectionStats.t)) :
  In name (map fst d) -> map fst (update_section name f d) = map fst d.
Proof.
  induction d as [|[k v] d IH]; simpl; intros H; [destruct H|].
  destruct (String.eqb_spec name k) as [->|Hn]; [reflexivity|].
  simpl. rewrite IH; [reflexivity|]. destruct H as [->|H]; [congruence | exact H].
Qed.

Lemma update_section_in (name : string) (f : SectionStats.t -> SectionStats.t)
    (d : list (string * SectionStats.t)) (k : string) (v : SectionStats.t) :
  NoDup (map fst d) -> In name (map fst d) ->
  In (k, v) (update_section name f d) ->
  (k <> name /\ In (k, v) d) \/ (k = name /\ exists v0, In (k, v0) d /\ v = f v0).
Proof.
  induction d as [|[k' v'] d IH]; simpl; intros Hnd Hin; [destruct Hin|].
  inversion Hnd as [|? ? Hk Hnd']; subst.
  destruct (String.eqb_spec name k') as [->|Hn]; simpl.
  - intros [[= <- <-]|H].
    + right. split; [reflexivity|]. exists v'. split; [now left | reflexivity].
    + left. split; [|now right].
      intros ->. apply Hk. apply (in_map fst) in H. exact H.
  - intros [[= <- <-]|H].
    + left. split; [congruence | now left].
    + destruct Hin as [->|Hin]; [congruence|].
      destruct (IH Hnd' Hin H) as [[H1 H2]|(H1 & v0 & H2 & H3)].
      * left. split; [exact H1 | now right].
      * right. split; [exact H1|]. exists v0. split; [now right | exact H3].
Qed.

(** *** The first loop *)

Lemma count_sections_records (d : sections_dict) : forall s acc,
  snd (fold_left count_section d (s, acc)) = (acc ++ all_records d)%list.
Proof.
  unfold all_records.
  induction d as [|[k v] d IH]; intros s acc; simpl; [now rewrite app_nil_r|].
  destruct v as [|p v]; [apply IH|].
  rewrite IH. now rewrite <- app_assoc.
Qed.

Lemma count_sections_stats (d : sections_dict) : forall s acc,
  let s' := fst (fold_left count_section d (s, acc)) in
  Stats.total_papers s' = Stats.total_papers s + List.length (all_records d)
  /\ Stats.unique_papers s' = Stats.unique_papers s
  /\ Stats.downloaded s' = Stats.downloaded s
  /\ Stats.already_existed s' = Stats.already_existed s
  /\ Stats.failed s' = Stats.failed s.
Proof.
  unfold all_records.
  induction d as [|[k v] d IH]; intros s acc; cbn zeta; simpl;
    [repeat split; lia|].
  destruct v as [|p v]; [apply IH|].
  match goal with |- context [fold_left count_section d (?s1, ?a1)] =>
    destruct (IH s1 a1) as (H1 & H2 & H3 & H4 & H5) end.
  rewrite H1, H2, H3, H4, H5. cbn [Stats.total_papers Stats.unique_papers
    Stats.downloaded Stats.already_existed Stats.failed].
  rewrite length_app. cbn [List.length]. repeat split. lia.
Qed.

Lemma count_sections_sections (d : sections_dict) : forall s acc,
  NoDup (map fst d) ->
  (forall k, In k (map fst d) -> ~ In k (map fst (Stats.sections s))) ->
  Stats.sections (fst (fold_left count_section d (s, acc)))
  = (Stats.sections s ++ section_totals d)%list.
Proof.
  unfold section_totals.
  induction d as [|[k v] d IH]; intros s acc Hnd Hfresh; simpl;
    [now rewrite app_nil_r|].
  inversion Hnd as [|? ? Hk Hnd']; subst.
  destruct v as [|p v]; cbn [has_records snd].
  - apply IH; [exact Hnd'|]. intros k' H. apply Hfresh. now right.
  - rewrite IH; [|exact Hnd'|].
    + cbn [Stats.sections]. rewrite update_section_new by (apply Hfresh; now left).
      rewrite <- app_assoc. reflexivity.
    + intros k' H. cbn [Stats.sections].
      rewrite update_section_new by (apply Hfresh; now left).
      rewrite map_app, in_app_iff. cbn [map fst In].
      intros [H'|[<-|[]]]; [|exact (Hk H)].
      revert H'. apply Hfresh. now right.
Qed.

Lemma nodup_section_names : NoDup section_names.
Proof.
  unfold section_names. cbn [keys map fst initial_sections].
  repeat (constructor; [cbn [In]; intros H;
            repeat (destruct H as [H|H]; [discriminate H|]); exact H|]).
  constructor.
Qed.


Lemma parse_keys_nodup (content : string) :
  NoDup (map fst (parse_papers_from_main_readme content)).
Proof.
  unfold parse_papers_from_main_readme.
  destruct (negb (Str.truthy content)); [constructor|].
  pose proof (scan_lines_inv (lines_of content) _ scan_inv_init) as (Hk & _).
  unfold scan. fold (lines_of content). unfold keys in Hk. rewrite Hk.
  exact nodup_section_names.
Qed.

Lemma parse_well_filed (content : string) :
  well_filed (parse_papers_from_main_readme content).
Proof.
  unfold parse_papers_from_main_readme.
  destruct (negb (Str.truthy content)); [intros k v r []|].
  pose proof (scan_lines_inv (lines_of content) _ scan_inv_init) as (_ & _ & Hw).
  exact Hw.
Qed.

(** *** The second loop *)

Lemma has_key_in (k : string) (U : list (string * paper)) :
  has_key k U = true <-> In k (map fst U).
Proof.
  unfold has_key. rewrite existsb_exists. split.
  - intros ([k' p] & Hin & E). apply String.eqb_eq in E. subst.
    apply (in_map fst) in Hin. exact Hin.
  - intros H. apply in_map_iff in H. destruct H as ([k' p] & <- & Hin).
    exists (k', p). split; [exact Hin | apply String.eqb_refl].
Qed.

Lemma first_with_key_later (h : string) (p q : paper) (l : list paper) :
  first_with_key h p l -> first_with_key h p (l ++ [q]).
Proof.
  intros (l1 & l2 & -> & Hk & Hn). exists l1, (l2 ++ [q])%list.
  split; [now rewrite <- app_assoc | split; assumption].
Qed.

Lemma keep_unique_kept (seen : list paper) (U : list (string * paper)) (p : paper) :
  kept seen U -> kept (seen ++ [p]) (keep_unique U p).
Proof.
  intros (Hnd & Hall & Hfirst). unfold keep_unique. fold (paper_key p).
  destruct (has_key (paper_key p) U) eqn:E.
  - apply has_key_in in E. repeat split; [exact Hnd | |].
    + intros q Hq. apply in_app_or in Hq. destruct Hq as [Hq|[<-|[]]]; auto.
    + intros h p' Hin. apply first_with_key_later. now apply Hfirst.
  - assert (Hnew : ~ In (paper_key p) (map fst U)).
    { intros H. apply has_key_in in H. congruence. }
    repeat split.
    + rewrite map_app. cbn [map fst].
      apply NoDup_app; [exact Hnd | repeat constructor; intros [] |].
      intros k Hk [<-|[]]. exact (Hnew Hk).
    + intros q Hq. rewrite map_app, in_app_iff. cbn [map fst In].
      apply in_app_or in Hq. destruct Hq as [Hq|[<-|[]]]; auto.
    + intros h p' Hin. apply in_app_or in Hin. destruct Hin as [Hin|[[= <- <-]|[]]].
      * apply first_with_key_later. now apply Hfirst.
      * exists seen, []. split; [reflexivity|]. split; [reflexivity|].
        intros q Hq E'. apply Hnew. rewrite <- E'. now apply Hall.
Qed.

Lemma keep_all_kept (l : list paper) : forall seen U,
  kept seen U -> kept (seen ++ l) (fold_left keep_unique l U).
Proof.
  induction l as [|p l IH]; intros seen U H; simpl.
  - now rewrite app_nil_r.
  - replace (seen ++ p :: l)%list with ((seen ++ [p]) ++ l)%list
      by (now rewrite <- app_assoc).
    apply IH. now apply keep_unique_kept.
Qed.

Lemma dedup_kept (l : list paper) : kept l (dedup l).
Proof.
  apply (keep_all_kept l [] []). repeat split; [constructor | intros q [] |].
  intros h p [].
Qed.

Lemma dedup_in (l : list paper) (p : paper) :
  In p (map snd (dedup l)) -> In p l.
Proof.
  intros H. apply in_map_iff in H. destruct H as ([h p'] & <- & Hin).
  destruct (dedup_kept l) as (_ & _ & Hfirst).
  destruct (Hfirst h p' Hin) as (l1 & l2 & -> & _). cbn [snd].
  apply in_or_app. right. now left.
Qed.

Lemma keep_unique_filter (f : paper -> bool) (U : list (string * paper)) (p : paper) :
  List.length (filter f (map snd (keep_unique U p)))
  <= List.length (filter f (map snd U)) + List.length (filter f [p]).
Proof.
  unfold keep_unique. destruct (has_key _ U); [lia|].
  rewrite map_app, filter_app, length_app. cbn [map snd]. lia.
Qed.

Lemma keep_all_filter (f : paper -> bool) (l : list paper) : forall U,
  List.length (filter f (map snd (fold_left keep_unique l U)))
  <= List.length (filter f (map snd U)) + List.length (filter f l).
Proof.
  induction l as [|p l IH]; intros U; cbn [fold_left]; [simpl; lia|].
  specialize (IH (keep_unique U p)).
  pose proof (keep_unique_filter f U p) as H.
  change (p :: l) with ([p] ++ l)%list. rewrite filter_app, length_app. lia.
Qed.

Lemma keep_all_length (l : list paper) (U : list (string * paper)) :
  List.length (fold_left keep_unique l U) <= List.length U + List.length l.
Proof.
  pose proof (keep_all_filter (fun _ => true) l U) as H.
  assert (E : forall A (x : list A), filter (fun _ => true) x = x).
  { intros A x. induction x as [|a x IHx]; simpl; [reflexivity | now rewrite IHx]. }
  rewrite !E, !length_map in H. exact H.
Qed.

(** *** The records of the sections *)

Lemma section_totals_in (d : sections_dict) (name : string) (s : SectionStats.t) :
  In (name, s) (section_totals d) ->
  exists v, In (name, v) d /\ v <> []
            /\ s = SectionStats.Make (List.length v) 0 0 0.
Proof.
  unfold section_totals. intros H. apply in_map_iff in H.
  destruct H as ([k v] & [= <- <-] & Hin). apply filter_In in Hin.
  destruct Hin as [Hin Hr]. exists v. cbn [snd fst] in *.
  split; [exact Hin|]. split; [|reflexivity]. intros ->. discriminate.
Qed.

Lemma section_totals_keys (d : sections_dict) (k : string) (v : list paper) :
  In (k, v) d -> v <> [] -> In k (map fst (section_totals d)).
Proof.
  intros Hin Hv. unfold section_totals. rewrite map_map. cbn [fst].
  apply in_map_iff. exists (k, v). split; [reflexivity|].
  apply filter_In. split; [exact Hin|]. destruct v; [congruence | reflexivity].
Qed.

Lemma section_totals_nodup (d : sections_dict) :
  NoDup (map fst d) -> NoDup (map fst (section_totals d)).
Proof.
  unfold section_totals. rewrite map_map. cbn [fst].
  induction d as [|[k v] d IH]; simpl; intros H; [constructor|].
  inversion H as [|? ? Hk Hd]; subst.
  destruct (has_records (k, v)); [|now apply IH].
  cbn [map fst]. constructor; [|now apply IH].
  intros Hin. apply Hk. apply in_map_iff in Hin. destruct Hin as (kv & E & Hin).
  apply filter_In in Hin. apply in_map_iff. exists kv. tauto.
Qed.

Lemma all_records_in (d : sections_dict) (p : paper) :
  In p (all_records d) <-> exists k v, In (k, v) d /\ In p v.
Proof.
  unfold all_records. rewrite in_concat. split.
  - intros (v & Hv & Hp). apply in_map_iff in Hv. destruct Hv as ([k v'] & <- & Hin).
    eauto.
  - intros (k & v & Hin & Hp). exists v. split; [|exact Hp].
    apply in_map_iff. exists (k, v). split; [reflexivity | exact Hin].
Qed.

Lemma filter_none {A : Type} (f : A -> bool) (l : list A) :
  (forall x, In x l -> f x = false) -> filter f l = [].
Proof.
  induction l as [|a l IH]; simpl; intros H; [reflexivity|].
  rewrite (H a) by now left. apply IH. intros x Hx. apply H. now right.
Qed.

Lemma filter_every {A : Type} (f : A -> bool) (l : list A) :
  (forall x, In x l -> f x = true) -> filter f l = l.
Proof.
  induction l as [|a l IH]; simpl; intros H; [reflexivity|].
  rewrite (H a) by now left. f_equal. apply IH. intros x Hx. apply H. now right.
Qed.

(** In a dictionary whose records are well filed, the records of a
    section are those that name it. *)
Lemma section_count_records (d : sections_dict) (name : string) (v : list paper) :
  NoDup (map fst d) -> well_filed d -> In (name, v) d ->
  section_count name (all_records d) = List.length v.
Proof.
  unfold section_count, all_records.
  induction d as [|[k v'] d IH]; simpl; intros Hnd Hw Hin; [destruct Hin|].
  inversion Hnd as [|? ? Hk Hd]; subst.
  rewrite filter_app, length_app.
  assert (Hw' : well_filed d).
  { intros k0 v0 r H1 H2. apply (Hw k0 v0 r); [now right | exact H2]. }
  destruct Hin as [[= -> ->]|Hin].
  - rewrite filter_every.
    + rewrite filter_none; [cbn [List.length]; lia|].
      intros p Hp. apply in_concat in Hp. destruct Hp as (v0 & Hv0 & Hp).
      apply in_map_iff in Hv0. destruct Hv0 as ([k0 v1] & <- & H0).
      cbn [snd] in Hp. rewrite (Hw' k0 v1 p H0 Hp).
      apply String.eqb_neq. intros ->. apply Hk.
      apply (in_map fst) in H0. exact H0.
    + intros p Hp. rewrite (Hw name v p); [apply String.eqb_refl | now left | exact Hp].
  - rewrite filter_none.
    + cbn [List.length Nat.add]. now apply IH.
    + intros p Hp. rewrite (Hw k v' p); [|now left | exact Hp].
      apply String.eqb_neq. intros ->. apply Hk.
      apply (in_map fst) in Hin. exact Hin.
Qed.

(** *** The counters of the sections *)

Lemma sum_of_app (f : SectionStats.t -> nat) (d1 d2 : list (string * SectionStats.t)) :
  sum_of f (d1 ++ d2) = sum_of f d1 + sum_of f d2.
Proof.
  unfold sum_of. induction d1 as [|kv d1 IH]; simpl; [reflexivity|].
  rewrite IH. lia.
Qed.

Lemma sum_of_update (f : SectionStats.t -> nat)
    (g : SectionStats.t -> SectionStats.t) (name : string) (n : nat)
    (d : list (string * SectionStats.t)) :
  (forall v, f (g v) = f v + n) -> f SectionStats.zero = 0 ->
  sum_of f (update_section name g d) = sum_of f d + n.
Proof.
  intros Hg Hz. unfold sum_of. induction d as [|[k v] d IH]; simpl.
  - rewrite Hg, Hz. lia.
  - destruct (String.eqb name k); simpl; [rewrite Hg | rewrite IH]; lia.
Qed.

Lemma sum_of_totals (d : sections_dict) :
  sum_of SectionStats.total (section_totals d) = List.length (all_records d)
  /\ sum_of SectionStats.downloaded (section_totals d) = 0
  /\ sum_of SectionStats.already_existed (section_totals d) = 0
  /\ sum_of SectionStats.failed (section_totals d) = 0.
Proof.
  unfold sum_of, section_totals, all_records.
  induction d as [|[k v] d IH]; simpl; [repeat split|].
  destruct IH as (H1 & H2 & H3 & H4).
  destruct v as [|p v]; cbn [has_records snd]; [repeat split; assumption|].
  cbn [map fold_right snd fst SectionStats.total SectionStats.downloaded
       SectionStats.already_existed SectionStats.failed].
  rewrite H1, H2, H3, H4, length_app. repeat split.
Qed.

Lemma total_papers_records (d : sections_dict) :
  total_papers d = List.length (all_records d).
Proof.
  unfold total_papers, all_records. induction d as [|[k v] d IH]; simpl;
    [reflexivity|].
  rewrite IH, length_app. reflexivity.
Qed.

(** *** The outcomes of a turn of the third loop *)

Lemma section_count_app (name : string) (l1 l2 : list paper) :
  section_count name (l1 ++ l2) = section_count name l1 + section_count name l2.
Proof. unfold section_count. now rewrite filter_app, length_app. Qed.

Lemma outcome_same_papers (self0 : downloader) (p : paper) (self self' : downloader) :
  outcome p self self' -> same_papers self0 self -> same_papers self0 self'.
Proof. intros Ho H. destruct Ho; exact H. Qed.

Lemma outcome_balanced (done : list paper) (p : paper) (self self' : downloader) :
  outcome p self self' -> balanced done self -> balanced (done ++ [p]) self'.
Proof.
  intros Ho (H1 & H2 & H3). unfold balanced.
  destruct Ho; cbn [record_already_existed record_downloaded record_failed append_downloaded
         append_failed count_already_existed count_downloaded count_failed stats
    downloaded_papers failed_papers Stats.downloaded Stats.already_existed Stats.failed];
    rewrite !length_app; cbn [List.length]; repeat split; lia.
Qed.

(** A turn adds one to one counter of the section of its paper, and
    leaves the total of the section as it is. *)
Lemma outcome_sections (p : paper) (self self' : downloader) :
  outcome p self self' ->
  exists g,
    Stats.sections (stats self')
    = update_section (section p) g (Stats.sections (stats self))
    /\ forall v, SectionStats.total (g v) = SectionStats.total v
                 /\ SectionStats.downloaded (g v) + SectionStats.already_existed (g v)
                    + SectionStats.failed (g v)
                    = S (SectionStats.downloaded v + SectionStats.already_existed v
                         + SectionStats.failed v).
Proof.
  intros Ho. destruct Ho.
  - exists SectionStats.incr_already_existed. split; [reflexivity|].
    intros v. cbn. split; lia.
  - exists SectionStats.incr_downloaded. split; [reflexivity|].
    intros v. cbn. split; lia.
  - exists SectionStats.incr_failed. split; [reflexivity|].
    intros v. cbn. split; lia.
Qed.

Lemma sections_counted_prepared (key content : string) :
  sections_counted (parse_papers_from_main_readme content) [] (prepared key content).
Proof.
  split; [reflexivity|]. intros name s Hin.
  cbn [prepared stats Stats.sections] in Hin.
  apply section_totals_in in Hin. destruct Hin as (v & Hin & Hv & ->).
  cbn [SectionStats.total SectionStats.downloaded SectionStats.already_existed
       SectionStats.failed].
  rewrite (section_count_records _ name v (parse_keys_nodup content)
             (parse_well_filed content) Hin).
  repeat split. destruct v; [congruence | cbn; lia].
Qed.

(** A turn that raises has counted its paper as well. *)
Lemma counted_only_sections (p : paper) (self self' : downloader) :
  counted_only p self self' ->
  exists g,
    Stats.sections (stats self')
    = update_section (section p) g (Stats.sections (stats self))
    /\ forall v, SectionStats.total (g v) = SectionStats.total v
                 /\ SectionStats.downloaded (g v) + SectionStats.already_existed (g v)
                    + SectionStats.failed (g v)
                    = S (SectionStats.downloaded v + SectionStats.already_existed v
                         + SectionStats.failed v).
Proof.
  intros Hc. destruct Hc.
  - exists SectionStats.incr_already_existed. split; [reflexivity|].
    intros v. cbn. split; lia.
  - exists SectionStats.incr_downloaded. split; [reflexivity|].
    intros v. cbn. split; lia.
  - exists SectionStats.incr_failed. split; [reflexivity|].
    intros v. cbn. split; lia.
Qed.

Lemma sections_counted_step (content : string) (done : list paper) (p : paper)
    (self self' : downloader) :
  In p (all_records (parse_papers_from_main_readme content)) ->
  (exists g,
     Stats.sections (stats self')
     = update_section (section p) g (Stats.sections (stats self))
     /\ forall v, SectionStats.total (g v) = SectionStats.total v
                  /\ SectionStats.downloaded (g v) + SectionStats.already_existed (g v)
                     + SectionStats.failed (g v)
                     = S (SectionStats.downloaded v + SectionStats.already_existed v
                          + SectionStats.failed v)) ->
  sections_counted (parse_papers_from_main_readme content) done self ->
  sections_counted (parse_papers_from_main_readme content) (done ++ [p]) self'.
Proof.
  set (d := parse_papers_from_main_readme content).
  intros Hp (g & Eg & Hg) (Hk & Hs).
  assert (Hsec : In (section p) (map fst (Stats.sections (stats self)))).
  { rewrite Hk. apply all_records_in in Hp. destruct Hp as (k & v & Hin & Hpv).
    rewrite (parse_well_filed content k v p Hin Hpv).
    apply (section_totals_keys d k v Hin). intros ->. destruct Hpv. }
  assert (Hnd : NoDup (map fst (Stats.sections (stats self)))).
  { rewrite Hk. apply section_totals_nodup, parse_keys_nodup. }
  split; [rewrite Eg, update_section_keys by exact Hsec; exact Hk|].
  intros name s Hin. rewrite Eg in Hin.
  apply update_section_in in Hin; [|exact Hnd | exact Hsec].
  rewrite section_count_app. unfold section_count at 3. cbn [filter].
  destruct Hin as [[Hne Hin]|(-> & v0 & Hin & ->)].
  - destruct (String.eqb_spec name (section p)) as [->|_]; [congruence|].
    destruct (Hs name s Hin) as (T1 & T2 & T3).
    cbn [List.length]. repeat split; [exact T1 | exact T2 | lia].
  - rewrite String.eqb_refl.
    destruct (Hs (section p) v0 Hin) as (T1 & T2 & T3).
    destruct (Hg v0) as (G1 & G2).
    cbn [List.length]. rewrite G1, G2. repeat split; [exact T1 | exact T2 | lia].
Qed.

Lemma sections_counted_outcome (content : string) (done : list paper) (p : paper)
    (self self' : downloader) :
  In p (all_records (parse_papers_from_main_readme content)) ->
  outcome p self self' ->
  sections_counted (parse_papers_from_main_readme content) done self ->
  sections_counted (parse_papers_from_main_readme content) (done ++ [p]) self'.
Proof.
  intros Hp Ho. apply sections_counted_step; [exact Hp|].
  now apply outcome_sections.
Qed.

Lemma sections_counted_only (content : string) (done : list paper) (p : paper)
    (self self' : downloader) :
  In p (all_records (parse_papers_from_main_readme content)) ->
  counted_only p self self' ->
  sections_counted (parse_papers_from_main_readme content) done self ->
  sections_counted (parse_papers_from_main_readme content) (done ++ [p]) self'.
Proof.
  intros Hp Hc. apply sections_counted_step; [exact Hp|].
  now apply counted_only_sections.
Qed.

Lemma outcome_add_up (p : paper) (self self' : downloader) :
  outcome p self self' ->
  sections_add_up (stats self) -> sections_add_up (stats self').
Proof.
  intros Ho (H1 & H2 & H3 & H4). unfold sections_add_up.
  destruct Ho;
    cbn [record_already_existed record_downloaded record_failed append_downloaded
         append_failed count_already_existed count_downloaded count_failed stats
         Stats.sections Stats.total_papers Stats.downloaded Stats.already_existed
         Stats.failed];
    repeat split;
    first [ rewrite (sum_of_update _ _ _ 1) by (try reflexivity; intros v; cbn; lia); lia
          | rewrite (sum_of_update _ _ _ 0) by (try reflexivity; intros v; cbn; lia); lia ].
Qed.

Lemma counted_only_add_up (p : paper) (self self' : downloader) :
  counted_only p self self' ->
  sections_add_up (stats self) -> sections_add_up (stats self').
Proof.
  intros Hc (H1 & H2 & H3 & H4). unfold sections_add_up.
  destruct Hc;
    cbn [count_already_existed count_downloaded count_failed stats
         Stats.sections Stats.total_papers Stats.downloaded Stats.already_existed
         Stats.failed];
    repeat split;
    first [ rewrite (sum_of_update _ _ _ 1) by (try reflexivity; intros v; cbn; lia); lia
          | rewrite (sum_of_update _ _ _ 0) by (try reflexivity; intros v; cbn; lia); lia ].
Qed.

(** The counters and the rows after a turn that raises. *)
Lemma counted_only_balance (done : list paper) (p : paper) (self self' : downloader) :
  counted_only p self self' -> balanced done self ->
  Stats.downloaded (stats self') + Stats.already_existed (stats self')
  + Stats.failed (stats self') = S (List.length done)
  /\ List.length (downloaded_papers self')
     <= Stats.downloaded (stats self') + Stats.already_existed (stats self')
  /\ List.length (failed_papers self') <= Stats.failed (stats self')
  /\ List.length (downloaded_papers self') + List.length (failed_papers self')
     = List.length done.
Proof.
  intros Hc (H1 & H2 & H3).
  destruct Hc;
    cbn [count_already_existed count_downloaded count_failed stats
         downloaded_papers failed_papers Stats.downloaded Stats.already_existed
         Stats.failed];
    repeat split; lia.
Qed.

Lemma counted_only_rows (p : paper) (self self' : downloader) :
  counted_only p self self' ->
  unique_papers self' = unique_papers self
  /\ downloaded_papers self' = downloaded_papers self
  /\ failed_papers self' = failed_papers self
  /\ Stats.unique_papers (stats self') = Stats.unique_papers (stats self)
  /\ Stats.total_papers (stats self') = Stats.total_papers (stats self).
Proof. intros Hc. destruct Hc; repeat split. Qed.

Lemma prepared_add_up (key content : string) :
  sections_add_up (stats (prepared key content)).
Proof.
  unfold sections_add_up, prepared.
  cbn [stats Stats.sections Stats.total_papers Stats.downloaded Stats.already_existed
       Stats.failed].
  apply sum_of_totals.
Qed.

Lemma outcome_rows (done : list paper) (p : paper) (self self' : downloader) :
  outcome p self self' -> rows_written done self -> rows_written (done ++ [p]) self'.
Proof.
  intros Ho (HP & HD & HF). unfold rows_written.
  rewrite map_app. cbn [map].
  assert (Hdown : forall r,
            downloaded_about r = paper_about p ->
            Permutation
              (map downloaded_about (downloaded_papers self ++ [r])
               ++ map failed_about (failed_papers self))%list
              (map paper_about done ++ [paper_about p])).
  { intros r Hr. rewrite map_app, <- app_assoc. cbn [map]. rewrite Hr.
    eapply Permutation_trans;
      [apply Permutation_app_head, Permutation_app_comm|].
    rewrite app_assoc. now apply Permutation_app_tail. }
  assert (Hok : forall r,
            downloaded_about r = paper_about p ->
            Downloaded.filename r = sanitize_filename (title p) (section p) ->
            Downloaded.status r = "Downloaded"
            \/ Downloaded.status r = "Already Existed" ->
            Forall downloaded_row_ok (downloaded_papers self ++ [r])).
  { intros r Hr Hf Hs. apply Forall_app. split; [exact HD|].
    constructor; [|constructor]. split; [|exact Hs].
    unfold downloaded_about, paper_about in Hr. injection Hr as -> ->. exact Hf. }
  destruct Ho as [r Hr Hf Hs | r Hr Hf Hs | r Hr Hf];
    cbn [record_already_existed record_downloaded record_failed append_downloaded
         append_failed count_already_existed count_downloaded count_failed
         downloaded_papers failed_papers].
  - split; [now apply Hdown|]. split; [apply Hok; auto | exact HF].
  - split; [now apply Hdown|]. split; [apply Hok; auto | exact HF].
  - split; [|split; [exact HD|]].
    + rewrite map_app, app_assoc. cbn [map]. rewrite Hr.
      now apply Permutation_app_tail.
    + apply Forall_app. split; [exact HF|]. constructor; [exact Hf | constructor].
Qed.

(** *** The file names of the rows *)

Lemma all_append (f : ascii -> bool) (a b : string) :
  Str.all f (a ++ b) = Str.all f a && Str.all f b.
Proof.
  induction a as [|c a IH]; simpl; [reflexivity|].
  rewrite IH. now rewrite andb_assoc.
Qed.

Lemma sanitize_filename_with_section (t sec : string) :
  Str.truthy sec = true ->
  sanitize_filename t sec = sec ++ "_" ++ filename_body t ++ ".pdf".
Proof.
  intros Hs. unfold sanitize_filename. fold (underscored t).
  rewrite Hs, underscored_body. fold (collapse_spaces).
  set (u := collapse_spaces (Str.strip (str_filter (fun c => negb (invalid_char c)) t))).
  assert (E : (if Nat.ltb 80 (String.length u) then Str.take 80 u else u)
              = filename_body t).
  { unfold filename_body. fold u.
    destruct (Nat.ltb_spec 80 (String.length u)); [reflexivity|].
    now rewrite take_short. }
  rewrite E. now rewrite !append_assoc.
Qed.

Lemma filename_body_chars (t : string) :
  Str.all filename_char (filename_body t) = true
  /\ String.length (filename_body t) <= 80.
Proof.
  split; [|apply take_length].
  unfold filename_body, filename_char. apply take_all, all_and.
  - apply collapse_keeps; [reflexivity|]. apply strip_all, str_filter_all.
  - apply collapse_no_space.
Qed.

Lemma section_names_chars (sec : string) :
  In sec section_names ->
  Str.truthy sec = true /\ Str.all filename_char sec = true
  /\ String.length sec <= 19.
Proof.
  unfold section_names. cbn [keys map fst initial_sections In].
  intros H.
  repeat (destruct H as [<-|H];
          [split; [reflexivity|]; split; [reflexivity | cbn; lia]|]).
  destruct H.
Qed.

Lemma parse_record_section (content : string) (p : paper) :
  In p (all_records (parse_papers_from_main_readme content)) ->
  In (section p) section_names.
Proof.
  intros Hp. apply all_records_in in Hp. destruct Hp as (k & v & Hin & Hpv).
  rewrite (parse_well_filed content k v p Hin Hpv).
  unfold parse_papers_from_main_readme in Hin.
  destruct (negb (Str.truthy content)); [destruct Hin|].
  pose proof (scan_lines_inv (lines_of content) _ scan_inv_init) as (Hk & _).
  unfold scan in Hin. fold (lines_of content) in Hin.
  rewrite <- Hk. unfold keys. apply (in_map fst) in Hin. exact Hin.
Qed.

Section RunProperties.

Context {world : Type}.
Variable requests_get :
  string -> list (string * string) -> world -> (string + nat * string) * world.
Variable search_semantic_scholar : string -> string -> world -> Answer.t * world.
Variable download_pdf : value -> string -> world -> (bool * string) * world.
Variable generate_reports : downloader -> world -> completion * world.
Variable create_excel_report : downloader -> world -> completion * world.

Local Notation "'step'" :=
  (download_step requests_get search_semantic_scholar download_pdf).
Local Notation "'loop'" :=
  (download_loop requests_get search_semantic_scholar download_pdf).
Local Notation "'run'" :=
  (process_papers requests_get search_semantic_scholar download_pdf
     generate_reports create_excel_report).
Local Notation "'fetched_text'" := (fetched requests_get).
Local Notation "'after'" :=
  (first_run requests_get search_semantic_scholar download_pdf
     generate_reports create_excel_report).
Local Notation "'ended'" :=
  (first_run_ended requests_get search_semantic_scholar download_pdf
     generate_reports create_excel_report).

(** *** The third loop *)

Lemma join_values_raises (sep : string) (l : list value) (e : exn) :
  join_values sep l = inl e -> e = TypeError.
Proof.
  unfold join_values. destruct (strings_of l); [discriminate|].
  now intros [= <-].
Qed.

(** A turn returns with one of the three outcomes, or raises a
    [TypeError] with its paper counted. *)
Lemma download_step_cases (self : downloader) (w : world) (item : string * paper) :
  match snd (step (self, w) item) with
  | Returned => outcome (snd item) self (fst (fst (step (self, w) item)))
  | Raised e =>
      e = TypeError /\ counted_only (snd item) self (fst (fst (step (self, w) item)))
  end.
Proof.
  unfold download_step.
  destruct (search_semantic_scholar _ _ w) as [r1 w1].
  destruct (if negb (Answer.found r1)
            then let '(r, w0) := search_arxiv requests_get (title (snd item)) w1 in
                 (Answer.of_result r, w0)
            else (r1, w1)) as [result w2].
  destruct (Answer.found result && truthy (Answer.pdf_url result)) eqn:Eu.
  - destruct (download_pdf _ _ w2) as [[success status] w3].
    destruct success; [destruct (String.eqb status "already_exists")|];
      destruct (join_values "; " (Answer.authors result)) as [e|authors] eqn:Ej;
      cbn [fst snd];
      try (split; [exact (join_values_raises _ _ _ Ej) | constructor]).
    + now apply Already_existed.
    + now apply Newly_downloaded.
    + apply Not_downloaded; [reflexivity|]. right. exists status.
      split; [reflexivity|]. cbn [Failed.pdf_url].
      now apply andb_prop in Eu.
  - destruct (Answer.authors result) as [|a l].
    + cbn [fst snd]. apply Not_downloaded; [reflexivity|]. left. split; reflexivity.
    + destruct (join_values "; " (a :: l)) as [e|authors] eqn:Ej; cbn [fst snd].
      * split; [exact (join_values_raises _ _ _ Ej) | constructor].
      * apply Not_downloaded; [reflexivity|]. left. split; reflexivity.
Qed.

(** What holds of the object after the loop holds by induction over the
    items that have had their turn; when a turn raises, it holds of the
    object before that turn, for the items before it. *)
Lemma download_loop_ind (items : list (string * paper))
    (P : list paper -> downloader -> Prop) (self0 : downloader) :
  P [] self0 ->
  (forall done p self self',
      In p (map snd items) -> outcome p self self' -> P done self ->
      P (done ++ [p])%list self') ->
  forall w,
    match snd (loop items (self0, w)) with
    | Returned => P (map snd items) (fst (fst (loop items (self0, w))))
    | Raised e =>
        e = TypeError
        /\ exists done p rest self,
             map snd items = (done ++ p :: rest)%list /\ P done self
             /\ counted_only p self (fst (fst (loop items (self0, w))))
    end.
Proof.
  intros H0 Hstep w.
  assert (G : forall rest done self w,
             incl (map snd rest) (map snd items) -> P done self ->
             match snd (loop rest (self, w)) with
             | Returned =>
                 P (done ++ map snd rest)%list (fst (fst (loop rest (self, w))))
             | Raised e =>
                 e = TypeError
                 /\ exists done' p rest' self1,
                      (done ++ map snd rest)%list = (done' ++ p :: rest')%list
                      /\ P done' self1
                      /\ counted_only p self1 (fst (fst (loop rest (self, w))))
             end).
  { clear w. induction rest as [|item rest IH]; intros done self w Hin HP.
    - cbn [download_loop snd fst map]. now rewrite app_nil_r.
    - cbn [download_loop map].
      pose proof (download_step_cases self w item) as Hc.
      destruct (step (self, w) item) as [[self' w'] [|e]]; cbn [fst snd] in Hc.
      + replace (done ++ snd item :: map snd rest)%list
          with ((done ++ [snd item]) ++ map snd rest)%list
          by (now rewrite <- app_assoc).
        apply IH.
        * intros x Hx. apply Hin. now right.
        * eapply Hstep; eauto. apply Hin. now left.
      + cbn [fst snd]. destruct Hc as [-> Hc]. split; [reflexivity|].
        exists done, (snd item), (map snd rest), self. auto. }
  apply (G items [] self0 w (incl_refl _) H0).
Qed.

(** *** A first run as a whole *)

Lemma all_records_nil_totals (d : sections_dict) :
  all_records d = [] -> section_totals d = [].
Proof.
  unfold all_records, section_totals.
  induction d as [|[k v] d IH]; simpl; [reflexivity|].
  destruct v as [|p v]; [exact IH | discriminate].
Qed.

(** A first run either stops before the second loop, and then there are
    no records, the object is as it was made and the call returns, or it
    goes through the third loop from the object [prepared]; what the loop
    raises, the call raises. *)
Lemma process_papers_first_run (key : string) (w : world) :
  let records := all_records (parse_papers_from_main_readme (fetched_text w)) in
  (records = [] /\ after key w = PaperDownloader key /\ ended key w = Returned)
  \/ (records <> []
      /\ exists w1,
           after key w
           = fst (fst (loop (dedup records) (prepared key (fetched_text w), w1)))
           /\ forall e,
                snd (loop (dedup records) (prepared key (fetched_text w), w1))
                = Raised e ->
                ended key w = Raised e).
Proof.
  cbn zeta. unfold first_run, first_run_ended, process_papers, fetched.
  destruct (fetch_main_readme requests_get w) as [[content|] w1]; cbn [fst snd];
    [|left; repeat split; reflexivity].
  destruct content as [|c content]; cbn [Str.truthy negb];
    [left; repeat split; reflexivity|].
  set (text := String c content).
  set (d := parse_papers_from_main_readme text).
  pose proof (count_sections_records d (stats (PaperDownloader key)) []) as Hr.
  pose proof (count_sections_stats d (stats (PaperDownloader key)) []) as Hs.
  pose proof (count_sections_sections d (stats (PaperDownloader key)) []
                (parse_keys_nodup text) (fun _ _ H => H)) as Hc.
  cbn zeta in Hs.
  destruct (fold_left count_section d (stats (PaperDownloader key), []))
    as [s records] eqn:E.
  cbn [fst snd app] in Hr, Hs, Hc. destruct Hs as (H1 & H2 & H3 & H4 & H5).
  cbn [PaperDownloader stats Stats.total_papers Stats.unique_papers Stats.downloaded
       Stats.already_existed Stats.failed Stats.sections app Nat.add] in *.
  subst records.
  unfold set_stats. cbn [stats ss_api_key unique_papers downloaded_papers failed_papers].
  rewrite H1.
  destruct (all_records d) as [|p l] eqn:Ea.
  - left. split; [reflexivity|]. cbn [List.length Nat.eqb fst snd].
    destruct s as [a b c0 e f g].
    cbn [Stats.total_papers Stats.unique_papers Stats.downloaded Stats.already_existed
         Stats.failed Stats.sections] in *. subst.
    rewrite (all_records_nil_totals d Ea). split; reflexivity.
  - right. split; [discriminate|]. cbn [List.length Nat.eqb].
    exists w1. unfold prepared, dedup. fold d. rewrite Ea.
    destruct s as [a b c0 e f g].
    cbn [Stats.total_papers Stats.unique_papers Stats.downloaded Stats.already_existed
         Stats.failed Stats.sections PaperDownloader stats ss_api_key unique_papers
         downloaded_papers failed_papers List.length] in *.
    subst.
    match goal with |- context [loop ?u ?a0] =>
      destruct (loop u a0) as [[self' w'] [|e0]] end; cbn [fst snd].
    + split; [|discriminate].
      destruct (generate_reports self' w') as [[|e1] w2]; [|reflexivity].
      destruct (create_excel_report self' w2) as [c1 w3]. reflexivity.
    + split; [reflexivity|]. now intros e1 [= <-].
Qed.

(** What the third loop keeps true holds after a first run, when it
    holds of the new object and of the object [prepared]; unless a turn
    of the loop raised: it then holds of the object before that turn,
    for the papers before it. *)
Lemma first_run_ind (key : string) (w : world)
    (P : list paper -> downloader -> Prop) :
  let records := all_records (parse_papers_from_main_readme (fetched_text w)) in
  (records = [] -> P [] (PaperDownloader key)) ->
  P [] (prepared key (fetched_text w)) ->
  (forall done p self self',
      In p records -> outcome p self self' -> P done self ->
      P (done ++ [p])%list self') ->
  unique_papers (after key w) = dedup records
  /\ (P (map snd (dedup records)) (after key w)
      \/ ended key w = Raised TypeError
         /\ exists done p rest self,
              map snd (dedup records) = (done ++ p :: rest)%list
              /\ In p records /\ P done self
              /\ counted_only p self (after key w)).
Proof.
  cbn zeta. intros Hnew Hprep Hstep.
  destruct (process_papers_first_run key w) as [(Hr & E & _) | [Hr (w1 & E & Hended)]];
    rewrite E; clear E.
  - rewrite Hr. split; [reflexivity | left; now apply Hnew].
  - set (A := all_records (parse_papers_from_main_readme (fetched_text w))) in *.
    pose proof (download_loop_ind (dedup A)
                  (fun done self => P done self /\ unique_papers self = dedup A)
                  (prepared key (fetched_text w)) (conj Hprep eq_refl)) as L.
    assert (S : forall done p self self',
              In p (map snd (dedup A)) -> outcome p self self' ->
              P done self /\ unique_papers self = dedup A ->
              P (done ++ [p])%list self' /\ unique_papers self' = dedup A).
    { intros done p self self' Hp Ho [HP HU]. split.
      - apply (Hstep done p self self'); auto. now apply dedup_in.
      - destruct Ho; exact HU. }
    specialize (L S w1).
    destruct (snd (loop (dedup A) (prepared key (fetched_text w), w1))) as [|e] eqn:El.
    + destruct L as [HP HU]. split; [exact HU | now left].
    + destruct L as (-> & done & p & rest & self & Hd & [HP HU] & Hc).
      destruct (counted_only_rows p self _ Hc) as (U' & _).
      split; [now rewrite U'|]. right. split; [now apply Hended|].
      exists done, p, rest, self. repeat split; auto.
      apply dedup_in. rewrite Hd. apply in_or_app. right. now left.
Qed.

(** X3: after [process_papers] on a new object, the number of unique
    papers is the size of [unique_papers] and at most the number of
    papers found, which is the number of records of the parse result; the
    papers counted as downloaded, as already there or as failed are at
    most the unique papers; the first sheet has at most one row for every
    paper downloaded or already there and the second at most one for
    every failure, and at most one counted paper has no row.  Unless the
    call raises a [TypeError], and so whenever it returns, every unique
    paper has been counted once and has its row. *)
Theorem process_papers_accounting (key : string) (w : world) :
  Stats.unique_papers (stats (after key w)) = List.length (unique_papers (after key w))
  /\ Stats.unique_papers (stats (after key w)) <= Stats.total_papers (stats (after key w))
  /\ Stats.total_papers (stats (after key w))
     = total_papers (parse_papers_from_main_readme (fetched_text w))
  /\ Stats.downloaded (stats (after key w)) + Stats.already_existed (stats (after key w))
     + Stats.failed (stats (after key w))
     <= Stats.unique_papers (stats (after key w))
  /\ List.length (downloaded_papers (after key w))
     <= Stats.downloaded (stats (after key w))
        + Stats.already_existed (stats (after key w))
  /\ List.length (failed_papers (after key w)) <= Stats.failed (stats (after key w))
  /\ Stats.downloaded (stats (after key w)) + Stats.already_existed (stats (after key w))
     + Stats.failed (stats (after key w))
     <= List.length (downloaded_papers (after key w))
        + List.length (failed_papers (after key w)) + 1
  /\ (ended key w <> Raised TypeError ->
      Stats.downloaded (stats (after key w)) + Stats.already_existed (stats (after key w))
      + Stats.failed (stats (after key w))
      = Stats.unique_papers (stats (after key w))
      /\ List.length (downloaded_papers (after key w))
         = Stats.downloaded (stats (after key w))
           + Stats.already_existed (stats (after key w))
      /\ List.length (failed_papers (after key w)) = Stats.failed (stats (after key w))).
Proof.
  rewrite total_papers_records.
  set (A := all_records (parse_papers_from_main_readme (fetched_text w))).
  assert (Hl : List.length (dedup A) <= List.length A)
    by apply (keep_all_length A []).
  destruct (first_run_ind key w
              (fun done self =>
                 balanced done self
                 /\ Stats.unique_papers (stats self) = List.length (dedup A)
                 /\ Stats.total_papers (stats self) = List.length A))
    as (HU & [((H1 & H2 & H3) & H4 & H5)
             | (He & done & p & rest & self & Hd & _ & ((H1 & H2 & H3) & H4 & H5) & Hc)]).
  - fold A. intros ->. repeat split.
  - repeat split.
  - intros done p self self' _ Ho (Hb & H4 & H5).
    split; [now apply (outcome_balanced done p self)|].
    destruct Ho; split; assumption.
  - fold A in HU, H1. rewrite length_map in H1.
    rewrite H1, H2, H3, H4, H5, HU. repeat split; lia.
  - fold A in HU, Hd.
    destruct (counted_only_balance done p self _ Hc (conj H1 (conj H2 H3)))
      as (B1 & B2 & B3 & B4).
    destruct (counted_only_rows p self _ Hc) as (_ & _ & _ & U1 & U2).
    assert (Hn : S (List.length done) <= List.length (dedup A)).
    { rewrite <- (length_map snd (dedup A)), Hd, length_app. cbn [List.length]. lia. }
    rewrite U1, U2, H4, H5, HU, B1. rewrite He.
    repeat split; try lia. all: congruence.
Qed.

(** X4: the papers that [process_papers] keeps on a new object: no two
    of them have the same hash, every record of the parse result has its
    hash among theirs, and each of them is the first record, in the order
    of the sections and then of the document, that has its hash. *)
Theorem process_papers_unique (key : string) (w : world) :
  NoDup (map fst (unique_papers (after key w)))
  /\ (forall q, In q (all_records (parse_papers_from_main_readme (fetched_text w))) ->
        In (paper_key q) (map fst (unique_papers (after key w))))
  /\ (forall h p, In (h, p) (unique_papers (after key w)) ->
        first_with_key h p
          (all_records (parse_papers_from_main_readme (fetched_text w)))).
Proof.
  destruct (first_run_ind key w (fun _ _ => True)) as [E _]; auto.
  rewrite E. apply dedup_kept.
Qed.

Lemma section_count_prefix (name : string) (l1 l2 : list paper) :
  section_count name l1 <= section_count name (l1 ++ l2).
Proof. rewrite section_count_app. lia. Qed.

(** X5: after [process_papers] on a new object, the keys of the counters
    of the sections are distinct, and the entry of a section has: as its
    total the number of records of that section, which is not zero; and
    as the sum of its three other counters at most the number of unique
    papers of that section, which is at most the total.  Unless the call
    raises a [TypeError], and so whenever it returns, the sum is the
    number of unique papers of the section. *)
Theorem process_papers_section_counters (key : string) (w : world)
    (name : string) (s : SectionStats.t) :
  In (name, s) (Stats.sections (stats (after key w))) ->
  NoDup (map fst (Stats.sections (stats (after key w))))
  /\ 0 < SectionStats.total s
  /\ SectionStats.total s
     = section_count name (all_records (parse_papers_from_main_readme (fetched_text w)))
  /\ SectionStats.downloaded s + SectionStats.already_existed s + SectionStats.failed s
     <= section_count name (map snd (unique_papers (after key w)))
  /\ section_count name (map snd (unique_papers (after key w))) <= SectionStats.total s
  /\ (ended key w <> Raised TypeError ->
      SectionStats.downloaded s + SectionStats.already_existed s + SectionStats.failed s
      = section_count name (map snd (unique_papers (after key w)))).
Proof.
  set (d := parse_papers_from_main_readme (fetched_text w)).
  assert (H : unique_papers (after key w) = dedup (all_records d)
              /\ exists counted rest,
                   map snd (dedup (all_records d)) = (counted ++ rest)%list
                   /\ sections_counted d counted (after key w)
                   /\ (ended key w <> Raised TypeError -> rest = [])).
  { destruct (first_run_ind key w (sections_counted d))
      as (HU & [HP | (He & done & p & rest & self & Hd & Hp & HP & Hc)]).
    - intros Hr. split; [now rewrite (all_records_nil_totals d Hr)|].
      intros name0 s0 [].
    - apply sections_counted_prepared.
    - intros done p self self' Hp Ho Hc.
      exact (sections_counted_outcome (fetched_text w) done p self self' Hp Ho Hc).
    - split; [exact HU|]. exists (map snd (dedup (all_records d))), [].
      rewrite app_nil_r. split; [reflexivity|]. split; [exact HP | reflexivity].
    - split; [exact HU|]. exists (done ++ [p])%list, rest.
      split; [now rewrite <- app_assoc|]. split.
      + exact (sections_counted_only (fetched_text w) done p self _ Hp Hc HP).
      + intros Hne. now destruct Hne. }
  destruct H as (HU & counted & rest & Hd & [Hk Hs] & Hret). intros Hin.
  destruct (Hs name s Hin) as (T1 & T2 & T3).
  split; [rewrite Hk; apply section_totals_nodup, parse_keys_nodup|].
  split; [exact T1|]. split; [exact T2|]. rewrite HU, T3, T2.
  split; [rewrite Hd; apply section_count_prefix|].
  split; [apply (keep_all_filter (fun p => String.eqb name (section p))
                   (all_records d) [])|].
  intros Hr. rewrite Hd, (Hret Hr), app_nil_r. reflexivity.
Qed.

(** X6: after [process_papers] on a new object, the counters of the
    sections add up to the counters of the object: the totals to the
    number of papers found, and the three others to the numbers of papers
    downloaded, already there, and failed. *)
Theorem process_papers_sections_add_up (key : string) (w : world) :
  sum_of SectionStats.total (Stats.sections (stats (after key w)))
  = Stats.total_papers (stats (after key w))
  /\ sum_of SectionStats.downloaded (Stats.sections (stats (after key w)))
     = Stats.downloaded (stats (after key w))
  /\ sum_of SectionStats.already_existed (Stats.sections (stats (after key w)))
     = Stats.already_existed (stats (after key w))
  /\ sum_of SectionStats.failed (Stats.sections (stats (after key w)))
     = Stats.failed (stats (after key w)).
Proof.
  destruct (first_run_ind key w (fun _ self => sections_add_up (stats self)))
    as (_ & [H | (_ & done & p & rest & self & _ & _ & H & Hc)]).
  - intros _. repeat split.
  - apply prepared_add_up.
  - intros done p self self' _ Ho H. now apply (outcome_add_up p self).
  - exact H.
  - now apply (counted_only_add_up p self).
Qed.

(** X7: after [process_papers] on a new object, the rows of the two
    sheets are, up to their order, the first unique papers, one row for
    each, with its title and its section; they are all the unique papers
    unless the call raises a [TypeError], and so whenever it returns; a
    row of the first sheet has the file name that
    [sanitize_filename] makes of its title and its section, and the
    status Downloaded or Already Existed; a row of the second sheet has
    no address and the reason that none was found, or an address and the
    reason that its download failed. *)
Theorem process_papers_rows (key : string) (w : world) :
  exists done rest,
    map snd (unique_papers (after key w)) = (done ++ rest)%list
    /\ Permutation
         (map downloaded_about (downloaded_papers (after key w))
          ++ map failed_about (failed_papers (after key w)))%list
         (map paper_about done)
    /\ Forall downloaded_row_ok (downloaded_papers (after key w))
    /\ Forall failed_row_ok (failed_papers (after key w))
    /\ (ended key w <> Raised TypeError -> rest = []).
Proof.
  destruct (first_run_ind key w rows_written)
    as (HU & [HP | (He & done & p & rest & self & Hd & _ & HP & Hc)]).
  - intros _. repeat split; constructor.
  - repeat split; constructor.
  - intros done p self self' _ Ho H. now apply (outcome_rows done p self).
  - exists (map snd (unique_papers (after key w))), [].
    rewrite app_nil_r, HU. destruct HP as (H1 & H2 & H3). repeat split; auto.
  - exists done, (p :: rest). rewrite HU.
    destruct (counted_only_rows p self _ Hc) as (_ & D' & F' & _).
    rewrite D', F'. destruct HP as (H1 & H2 & H3).
    repeat split; auto. intros Hne. now destruct Hne.
Qed.

(** X8: after [process_papers] on a new object, every row of the first
    sheet is about a record of the parse result; its section is one of
    the configured names, and its file name is that section, an
    underscore, the body made of the title and the suffix, has none of
    the nine invalid characters and no space, and has at most 104
    characters. *)
Theorem process_papers_filenames (key : string) (w : world) (r : Downloaded.row) :
  In r (downloaded_papers (after key w)) ->
  (exists p, In p (all_records (parse_papers_from_main_readme (fetched_text w)))
             /\ paper_about p = downloaded_about r)
  /\ In (Downloaded.conference_section r) section_names
  /\ Downloaded.filename r
     = Downloaded.conference_section r ++ "_"
       ++ filename_body (Downloaded.paper_title r) ++ ".pdf"
  /\ Str.all filename_char (Downloaded.filename r) = true
  /\ String.length (Downloaded.filename r) <= 104.
Proof.
  set (A := all_records (parse_papers_from_main_readme (fetched_text w))).
  assert (H : Forall (fun r => downloaded_row_ok r
                               /\ exists p, In p A /\ paper_about p = downloaded_about r)
                (downloaded_papers (after key w))).
  { destruct (first_run_ind key w
                (fun _ self =>
                   Forall (fun r => downloaded_row_ok r
                                    /\ exists p, In p A /\ paper_about p = downloaded_about r)
                     (downloaded_papers self)))
      as (_ & [H | (_ & done & p & rest & self & _ & _ & H & Hc)]);
      [| | | exact H
       | destruct (counted_only_rows p self _ Hc) as (_ & D' & _);
         rewrite D'; exact H].
    - intros _. constructor.
    - constructor.
    - intros done p self self' Hp Ho H.
      assert (G : forall r0,
                downloaded_about r0 = paper_about p ->
                Downloaded.filename r0 = sanitize_filename (title p) (section p) ->
                Downloaded.status r0 = "Downloaded"
                \/ Downloaded.status r0 = "Already Existed" ->
                Forall (fun r => downloaded_row_ok r
                                 /\ exists p, In p A /\ paper_about p = downloaded_about r)
                  (downloaded_papers self ++ [r0])).
      { intros r0 Hr Hf Hs. apply Forall_app. split; [exact H|].
        constructor; [|constructor]. split; [|exists p; split; [exact Hp | now symmetry]].
        split; [|exact Hs].
        unfold downloaded_about, paper_about in Hr. injection Hr as -> ->. exact Hf. }
      destruct Ho as [r0 Hr Hf Hs | r0 Hr Hf Hs | r0 Hr Hf];
        cbn [record_already_existed record_downloaded record_failed append_downloaded
             append_failed count_already_existed count_downloaded count_failed
             downloaded_papers];
        [apply G; auto | apply G; auto | exact H]. }
  intros Hin. rewrite Forall_forall in H.
  destruct (H r Hin) as ((Hf & _) & p & Hp & Hab).
  split; [exists p; split; assumption|].
  assert (Hsec : In (Downloaded.conference_section r) section_names).
  { unfold paper_about, downloaded_about in Hab. injection Hab as _ <-.
    now apply (parse_record_section (fetched_text w)). }
  split; [exact Hsec|].
  destruct (section_names_chars _ Hsec) as (Ht & Hc & Hl).
  destruct (filename_body_chars (Downloaded.paper_title r)) as (Hbc & Hbl).
  rewrite Hf, (sanitize_filename_with_section _ _ Ht).
  split; [reflexivity|]. split.
  - rewrite !all_append, Hc, Hbc. reflexivity.
  - rewrite !length_append. cbn [String.length]. lia.
Qed.

Lemma count_sections_none (d : sections_dict) (acc : Stats.t * list paper) :
  all_records d = [] -> fold_left count_section d acc = acc.
Proof.
  unfold all_records. revert acc.
  induction d as [|[k v] d IH]; intros acc; simpl; [reflexivity|].
  destruct v as [|p v]; [|discriminate].
  intros H. destruct acc as [s l]. now apply IH.
Qed.

Lemma parse_no_records (content : string) :
  filter accepted (title_lines None (lines_of content)) = [] ->
  all_records (parse_papers_from_main_readme content) = [].
Proof.
  intros H. apply length_zero_iff_nil. rewrite <- total_papers_records.
  unfold parse_papers_from_main_readme.
  destruct (negb (Str.truthy content)); [reflexivity|].
  unfold scan. fold (lines_of content).
  rewrite scan_lines_total by exact scan_inv_init. rewrite H. reflexivity.
Qed.

(** X9: when the text that was fetched has no title line that is
    accepted, and the object has counted no paper so far, [process_papers]
    returns and leaves the object as it is and the world as the fetch
    left it: nothing is searched, downloaded or reported. *)
Theorem process_papers_nothing_found (self : downloader) (w : world) :
  Stats.total_papers (stats self) = 0 ->
  filter accepted (title_lines None (lines_of (fetched_text w))) = [] ->
  run self w = ((self, snd (fetch_main_readme requests_get w)), Returned).
Proof.
  intros H0 Hno. apply parse_no_records in Hno. revert Hno.
  unfold process_papers, fetched.
  destruct (fetch_main_readme requests_get w) as [[content|] w1]; cbn [fst snd];
    [|reflexivity].
  destruct (negb (Str.truthy content)); [reflexivity|].
  intros Hno. rewrite (count_sections_none _ _ Hno).
  unfold set_stats. destruct self as [k s u dl fl]. cbn [stats] in *.
  rewrite H0. reflexivity.
Qed.

End RunProperties.

(** The examples, in the small world. *)
Lemma process_papers_section_counters_witness :
  1 + 0 + 1 = section_count "CVPR" (map snd (unique_papers Demo.after_run))
  /\ section_count "CVPR" (map snd (unique_papers Demo.after_run)) <= 2.
Proof.
  destruct (process_papers_section_counters
              Demo.requests_get Demo.search_semantic_scholar Demo.download_pdf
              Demo.report Demo.report "key" [] "CVPR" (SectionStats.Make 2 1 0 1))
    as (_ & _ & _ & _ & H2 & H3).
  - vm_compute. left. reflexivity.
  - split; [apply H3; vm_compute; discriminate | exact H2].
Defined.

Lemma process_papers_filenames_witness :
  Str.all filename_char "CVPR_Awesome_Detection_Method.pdf" = true
  /\ String.length "CVPR_Awesome_Detection_Method.pdf" <= 104.
Proof.
  destruct (process_papers_filenames
              Demo.requests_get Demo.search_semantic_scholar Demo.download_pdf
              Demo.report Demo.report "key" []
              (Downloaded.Row "Awesome Detection Method" "C. Author" "CVPR"
                 "CVPR_Awesome_Detection_Method.pdf" "semantic_scholar" "Downloaded"))
    as (_ & _ & _ & H1 & H2).
  - vm_compute. left. reflexivity.
  - split; [exact H1 | exact H2].
Defined.

Lemma process_papers_nothing_found_witness :
  process_papers Demo.requests_get_short Demo.search_semantic_scholar
    Demo.download_pdf Demo.report Demo.report (PaperDownloader "key") []
  = ((PaperDownloader "key", [readme_url]), Returned).
Proof.
  apply (process_papers_nothing_found
           Demo.requests_get_short Demo.search_semantic_scholar Demo.download_pdf
           Demo.report Demo.report (PaperDownloader "key") []).
  - reflexivity.
  - vm_compute. reflexivity.
Defined.

(** The run in the small world: it returns, with three papers found,
    two of them unique, one downloaded and one failed; the third title
    line, whose title differs from the first by its final mark only, is
    dropped. *)
Example demo_run :
  first_run_ended Demo.requests_get Demo.search_semantic_scholar Demo.download_pdf
    Demo.report Demo.report "key" [] = Returned
  /\ Stats.total_papers (stats Demo.after_run) = 3
  /\ map (fun kv => paper_about (snd kv)) (unique_papers Demo.after_run)
     = [("Awesome Detection Method", "CVPR"); ("Another Great Paper Title", "CVPR")]
  /\ map Downloaded.filename (downloaded_papers Demo.after_run)
     = ["CVPR_Awesome_Detection_Method.pdf"]
  /\ map Failed.reason (failed_papers Demo.after_run) = ["Download failed: 404"].
Proof. vm_compute. repeat split. Qed.

(** The same run when Semantic Scholar sends [null] as the name of an
    author of the first paper: the file is downloaded and counted, the
    row of the paper is not written, and the call raises a [TypeError]
    before the second paper has its turn and before the reports. *)
Example demo_null_author :
  first_run_ended Demo.requests_get Demo.search_semantic_scholar_null
    Demo.download_pdf Demo.report Demo.report "key" [] = Raised TypeError
  /\ List.length (unique_papers Demo.after_null) = 2
  /\ Stats.downloaded (stats Demo.after_null) = 1
  /\ Stats.sections (stats Demo.after_null)
     = [("CVPR", SectionStats.Make 2 1 0 0); ("ICLR", SectionStats.Make 1 0 0 0)]
  /\ downloaded_papers Demo.after_null = []
  /\ failed_papers Demo.after_null = []
  /\ snd (process_papers Demo.requests_get Demo.search_semantic_scholar_null
            Demo.download_pdf Demo.report Demo.report (PaperDownloader "key") [])
     = Raised TypeError
  /\ snd (fst (process_papers Demo.requests_get Demo.search_semantic_scholar_null
                 Demo.download_pdf Demo.report Demo.report (PaperDownloader "key") []))
     = [readme_url; "semantic scholar"; "https://example.org/adm.pdf"].
Proof. vm_compute. repeat split. Qed.

(** ** Which lines are headers *)

Lemma drop_hashes_split (s : string) :
  exists hs, s = hs ++ drop_hashes s /\ hashes hs.
Proof.
  unfold hashes. induction s as [|c s IH]; simpl.
  - exists EmptyString. split; reflexivity.
  - destruct (Ascii.eqb_spec c "#") as [->|Hc].
    + destruct IH as (hs & E & H). exists (String "#" hs). simpl.
      split; [now rewrite <- E | exact H].
    + exists EmptyString. split; reflexivity.
Qed.

Lemma lstrip_split (s : string) :
  exists ws, s = ws ++ Str.lstrip s /\ spaces ws.
Proof.
  unfold spaces. induction s as [|c s IH]; simpl.
  - exists EmptyString. split; reflexivity.
  - destruct (Chr.isspace c) eqn:Hc.
    + destruct IH as (ws & E & H). exists (String c ws). simpl.
      rewrite Hc. split; [now rewrite <- E | exact H].
    + exists EmptyString. split; reflexivity.
Qed.

Lemma first_word_split (s : string) :
  exists rest, s = first_word s ++ rest /\ ends_word rest.
Proof.
  unfold ends_word. induction s as [|c s IH]; simpl.
  - exists EmptyString. split; [reflexivity | now left].
  - destruct (Chr.isspace c) eqn:Hc.
    + exists (String c s). split; [reflexivity|]. right. eauto.
    + destruct IH as (rest & E & H). exists rest. simpl.
      split; [now rewrite <- E | exact H].
Qed.

Lemma first_word_append (w rest : string) :
  Str.all (fun a => negb (Chr.isspace a)) w = true -> ends_word rest ->
  first_word (w ++ rest) = w.
Proof.
  intros Hw Hr. induction w as [|c w IH]; simpl in *.
  - destruct Hr as [->|(c & r & -> & Hc)]; [reflexivity|]. simpl. now rewrite Hc.
  - apply andb_prop in Hw. destruct Hw as [Hc Hw].
    apply negb_true_iff in Hc. rewrite Hc, IH by exact Hw. reflexivity.
Qed.

Lemma lower_all_no_space (w : string) :
  Str.all (fun a => negb (Chr.isspace a)) (Str.lower w)
  = Str.all (fun a => negb (Chr.isspace a)) w.
Proof.
  induction w as [|c w IH]; simpl; [reflexivity|].
  now rewrite lower_isspace, IH.
Qed.

Lemma plain_name_inv (n : string) :
  plain_name n = true ->
  exists x n', n = String x n' /\ Ascii.eqb x "#" = false /\ Chr.isspace x = false
               /\ Str.all (fun a => negb (Chr.isspace a)) n = true.
Proof.
  destruct n as [|x n']; [discriminate|]. unfold plain_name.
  intros H. apply andb_prop in H. destruct H as [H1 H2].
  exists x, n'. split; [reflexivity|]. apply negb_true_iff in H1.
  split; [exact H1|]. split; [|exact H2].
  simpl in H2. apply andb_prop in H2. destruct H2 as [H2 _].
  now apply negb_true_iff in H2.
Qed.

(** A word that is a plain name up to case. *)
Lemma lower_plain (n w : string) :
  plain_name n = true -> Str.lower w = Str.lower n ->
  exists a r, w = String a r /\ Ascii.eqb a "#" = false /\ Chr.isspace a = false
              /\ Str.all (fun a => negb (Chr.isspace a)) w = true.
Proof.
  intros Hn E. apply plain_name_inv in Hn.
  destruct Hn as (x & n' & -> & Hx & Hs & Hall).
  destruct w as [|a r]; [discriminate|]. exists a, r. split; [reflexivity|].
  simpl in E. injection E as Ea Er.
  split; [now rewrite <- lower_is_hash, Ea, lower_is_hash|].
  split; [now rewrite <- lower_isspace, Ea, lower_isspace|].
  rewrite <- lower_all_no_space. simpl. rewrite Ea, Er.
  rewrite <- lower_all_no_space in Hall. exact Hall.
Qed.

(** What can follow the name in a header: a space, or the end. *)
Lemma lang_end_of_name (p : nat) (w rest : string) :
  lang true (Alt (Chr (Is Space)) Eol) p w rest -> ends_word (w ++ rest).
Proof.
  intros [(a & -> & Ha)|[-> He]].
  - right. exists a, rest. split; [reflexivity | exact Ha].
  - simpl. destruct rest as [|c [|d rest]]; [now left | | discriminate].
    right. exists c, EmptyString. split; [reflexivity|].
    simpl in He. apply Ascii.eqb_eq in He. now subst.
Qed.

Lemma ends_word_lang (tail : string) :
  ends_word tail ->
  exists e rest, tail = e ++ rest
                 /\ forall p, lang true (Alt (Chr (Is Space)) Eol) p e rest.
Proof.
  intros [->|(c & r & -> & Hc)].
  - exists EmptyString, EmptyString. split; [reflexivity|].
    intros p. right. split; reflexivity.
  - exists (String c EmptyString), r. split; [reflexivity|].
    intros p. left. exists c. split; [reflexivity | exact Hc].
Qed.

Lemma hashes_start (hs s : string) :
  hs <> EmptyString -> hashes hs -> Str.startswith "#" (hs ++ s) = true.
Proof.
  unfold hashes. destruct hs as [|c hs]; [congruence|]. simpl.
  intros _ H. apply andb_prop in H. destruct H as [H _].
  apply Ascii.eqb_eq in H. subst c. unfold Str.startswith. simpl.
  destruct (ascii_dec "#" "#"); [|congruence]. now destruct (hs ++ s).
Qed.

(** The pattern of a plain name matches the lines that start with a
    marker and have the name, in any case, as their word. *)
Lemma pat_section_header_word (n s : string) :
  plain_name n = true ->
  matched (re_match true (pat_section n) s) = true
  <-> Str.startswith "#" s = true /\ header_word s = Str.lower n.
Proof.
  intros Hn. split.
  - intros E. apply re_match_sound in E. destruct E as (w & rest & -> & L).
    unfold pat_section in L. cbn [seq plus star] in L.
    destruct L as (w1 & r1 & -> & (L1 & N1 & _) & w2 & r2 & -> & (L2 & _)
                   & w3 & w4 & -> & L3 & L4).
    rewrite all_lit_hash in L1. apply lang_lit_ci in L3.
    apply lang_end_of_name in L4.
    destruct (lower_plain n w3 Hn L3) as (a & r & -> & Ha & Hs & Hall).
    rewrite !append_assoc. split.
    + apply hashes_start; [now apply not_empty_length | exact L1].
    + unfold header_word.
      cbn [append]. rewrite after_marks_decomposed by assumption.
      change (String a (r ++ w4 ++ rest)) with (String a r ++ (w4 ++ rest)).
      rewrite first_word_append by assumption. exact L3.
  - intros [Hstart Hw]. unfold header_word, after_marks in Hw.
    destruct (drop_hashes_split s) as (hs & Es & Hh).
    destruct (lstrip_split (drop_hashes s)) as (ws & Er & Hws).
    destruct (first_word_split (Str.lstrip (drop_hashes s))) as (tail & Ef & Ht).
    destruct (ends_word_lang tail Ht) as (e & rest & -> & He).
    remember (first_word (Str.lstrip (drop_hashes s))) as fw eqn:Efw.
    assert (Ed : drop_hashes s = ws ++ fw ++ e ++ rest) by (rewrite <- Ef; exact Er).
    rewrite Ed in Es. clear Er Ef Ed Efw.
    assert (Hne : hs <> EmptyString).
    { intros ->. simpl in Es. subst s.
      destruct (lower_plain n fw Hn Hw) as (a & r & -> & Ha & Hsa & _).
      unfold Str.startswith in Hstart.
      destruct ws as [|b ws]; cbn [append String.prefix] in Hstart.
      - destruct (ascii_dec "#" a) as [<-|]; [discriminate Ha | discriminate Hstart].
      - destruct (ascii_dec "#" b) as [<-|]; [|discriminate].
        unfold spaces in Hws. simpl in Hws. discriminate. }
    rewrite Es.
    replace (hs ++ ws ++ fw ++ e ++ rest) with ((hs ++ ws ++ fw ++ e) ++ rest)
      by (now rewrite !append_assoc).
    apply re_match_complete. unfold pat_section. cbn [seq].
    seq_step ltac:(simpl; rewrite all_lit_hash; repeat split;
                   [exact Hh | now apply not_empty_length]).
    seq_step ltac:(simpl; repeat split; [exact Hws | lia]).
    apply lang_seq_intro; [now apply lang_lit_ci | apply He].
Qed.

Lemma lang_opt_s (p : nat) (w s' : string) :
  lang true (opt (ch "s")) p w s' -> w = EmptyString \/ Str.lower w = "s".
Proof.
  simpl. intros (Hall & _ & Hlen).
  destruct w as [|a [|b w]]; [now left | right | simpl in Hlen; lia].
  simpl in Hall. rewrite andb_true_r in Hall. apply Ascii.eqb_eq in Hall.
  simpl. now rewrite Hall.
Qed.

Lemma lang_plus_space (p : nat) (w s' : string) :
  lang true (plus (Is Space)) p w s' -> w <> EmptyString /\ spaces w.
Proof.
  simpl. intros (Hall & Hlen & _). split; [now apply not_empty_length | exact Hall].
Qed.

(** The pattern of the Test-of-Time section matches only the header
    lines of that section. *)
Lemma pat_test_of_time_header (s : string) :
  matched (re_match true pat_test_of_time s) = true -> test_of_time_header s.
Proof.
  intros E. apply re_match_sound in E. destruct E as (w & rest & -> & L).
  unfold pat_test_of_time in L. cbn [seq] in L.
  destruct L as (hs & r0 & -> & (Lh & Nh & _) & ws0 & r1 & -> & (L0 & _)
                 & w1 & r2 & -> & L1 & ws1 & r3 & -> & S1
                 & w2 & r4 & -> & L2 & ws2 & r5 & -> & S2
                 & w3 & r6 & -> & L3 & ws3 & r7 & -> & S3
                 & w4 & r8 & -> & L4 & plural & e & -> & Lp & Le).
  rewrite all_lit_hash in Lh.
  apply lang_lit_ci in L1, L2, L3, L4.
  apply lang_plus_space in S1, S2, S3. apply lang_opt_s in Lp.
  apply lang_end_of_name in Le.
  exists hs, ws0, w1, ws1, w2, ws2, w3, ws3, w4, plural, (e ++ rest).
  rewrite !append_assoc. repeat split; try tauto.
  now apply not_empty_length.
Qed.

Lemma test_of_time_header_word (s : string) :
  test_of_time_header s -> Str.startswith "#" s = true /\ header_word s = "test".
Proof.
  intros (hs & ws0 & w1 & ws1 & w2 & ws2 & w3 & ws3 & w4 & plural & rest & -> & Hne & Hh
          & H0 & E1 & N1 & S1 & _).
  split; [now apply hashes_start|].
  destruct (lower_plain "test" w1 eq_refl E1) as (a & r & -> & Ha & Hs & Hall).
  unfold header_word. cbn [append].
  rewrite after_marks_decomposed by assumption.
  change (String a (r ++ ws1 ++ w2 ++ ws2 ++ w3 ++ ws3 ++ w4 ++ plural ++ rest))
    with (String a r ++ (ws1 ++ w2 ++ ws2 ++ w3 ++ ws3 ++ w4 ++ plural ++ rest)).
  rewrite first_word_append; [exact E1 | exact Hall |].
  right. destruct ws1 as [|c ws1]; [congruence|]. exists c. eexists.
  split; [reflexivity|]. unfold spaces in S1. simpl in S1.
  apply andb_prop in S1. tauto.
Qed.

(** The section that [find_section] returns is one whose pattern
    matches. *)
Lemma find_section_some (names : list string) (s name : string) :
  find_section names s = Some name ->
  (name = test_of_time /\ matched (re_match true pat_test_of_time s) = true)
  \/ (name <> test_of_time /\ matched (re_match true (pat_section name) s) = true).
Proof.
  induction names as [|n names IH]; cbn [find_section]; [discriminate|].
  fold test_of_time. destruct (String.eqb_spec n test_of_time) as [->|Hn].
  - destruct (matched (re_match true pat_test_of_time s)) eqn:E; [|exact IH].
    intros [= <-]. now left.
  - destruct (matched (re_match true (pat_section n) s)) eqn:E; [|exact IH].
    intros [= <-]. now right.
Qed.

(** The first name whose pattern matches is the section. *)
Lemma find_section_first (names : list string) (s name : string) :
  In name names -> name <> test_of_time ->
  matched (re_match true (pat_section name) s) = true ->
  (forall n, In n names -> n <> name ->
             if String.eqb n test_of_time
             then matched (re_match true pat_test_of_time s) = false
             else matched (re_match true (pat_section n) s) = false) ->
  find_section names s = Some name.
Proof.
  intros Hin Hname Hm Hothers.
  induction names as [|n names IH]; [destruct Hin|].
  cbn [find_section]. fold test_of_time.
  destruct (String.eqb_spec n name) as [->|Hn].
  - destruct (String.eqb_spec name test_of_time); [congruence|]. now rewrite Hm.
  - pose proof (Hothers n (or_introl eq_refl) Hn) as Ho.
    destruct (String.eqb n test_of_time); rewrite Ho; apply IH.
    + destruct Hin; [congruence | assumption].
    + intros n' Hn'. apply Hothers. now right.
    + destruct Hin; [congruence | assumption].
    + intros n' Hn'. apply Hothers. now right.
Qed.

Lemma section_names_plain (name : string) :
  In name section_names -> name <> test_of_time -> plain_name name = true.
Proof.
  unfold section_names. cbn [keys map fst initial_sections In].
  intros H Hn. repeat (destruct H as [<-|H]; [reflexivity || congruence|]).
  destruct H.
Qed.

Lemma section_names_lower (n name : string) :
  In n section_names -> In name section_names ->
  Str.lower n = Str.lower name -> n = name.
Proof.
  unfold section_names. cbn [keys map fst initial_sections In].
  intros H1 H2.
  repeat (destruct H1 as [<-|H1]);
    try (destruct H1);
    repeat (destruct H2 as [<-|H2]);
    try (destruct H2); intros E; solve [reflexivity | discriminate E].
Qed.

Lemma section_names_not_test (name : string) :
  In name section_names -> Str.lower name <> "test".
Proof.
  unfold section_names. cbn [keys map fst initial_sections In].
  intros H. repeat (destruct H as [<-|H]; [discriminate|]). destruct H.
Qed.

(** X10: for a line whose characters are code points below 256, the
    texts of this model: for each of the nine conference names, the
    trimmed line is recognised as the header of that section exactly when
    it starts with a header marker and the text after the markers and the
    spaces that follow them, up to the next space or the end, is the name
    in any case. *)
Theorem find_section_header (s name : string) :
  In name section_names -> name <> test_of_time ->
  find_section section_names s = Some name
  <-> Str.startswith "#" s = true /\ header_word s = Str.lower name.
Proof.
  intros Hin Hname. pose proof (section_names_plain name Hin Hname) as Hp. split.
  - intros H. apply find_section_some in H. destruct H as [[H _]|[_ H]]; [congruence|].
    now apply pat_section_header_word.
  - intros [Hs Hw]. apply find_section_first; auto.
    + apply pat_section_header_word; auto.
    + intros n Hn Hne. destruct (String.eqb_spec n test_of_time) as [->|Hnt].
      * destruct (matched (re_match true pat_test_of_time s)) eqn:E; [|reflexivity].
        apply pat_test_of_time_header, test_of_time_header_word in E.
        destruct E as [_ E]. rewrite E in Hw.
        exfalso. now apply (section_names_not_test name Hin).
      * destruct (matched (re_match true (pat_section n) s)) eqn:E; [|reflexivity].
        apply pat_section_header_word in E; [|now apply section_names_plain].
        destruct E as [_ E]. rewrite Hw in E. symmetry in E.
        exfalso. apply Hne. now apply section_names_lower.
Qed.

Lemma find_section_header_witness :
  find_section section_names "## iclr 2024" = Some "ICLR".
Proof.
  apply (find_section_header "## iclr 2024" "ICLR").
  - right. left. reflexivity.
  - discriminate.
  - split; reflexivity.
Defined.

(** X11: for a line whose characters are code points below 256, the
    texts of this model: the trimmed line is recognised as the header of
    the section stored under [Test-of-Time-Papers] exactly when it is made
    of header markers, optional spaces, the words test, of, time and paper
    in any case with spaces between them, an optional plural, and then the
    end or a space; the key itself, with its hyphens, is no such
    header. *)
Theorem find_section_test_of_time_iff (s : string) :
  (find_section section_names s = Some test_of_time <-> test_of_time_header s)
  /\ find_section section_names ("# " ++ test_of_time) = None.
Proof.
  split; [split|].
  - intros H. apply find_section_some in H. destruct H as [[_ H]|[H _]]; [|congruence].
    now apply pat_test_of_time_header.
  - apply find_section_test_of_time.
  - vm_compute. reflexivity.
Qed.

(** X12: a line that is recognised as a section header is never
    classified as a paper title line, so the headers would be kept out of
    the records also without the [continue] of the loop. *)
Theorem header_line_not_title_line (line : string) :
  is_header_line line = true -> is_paper_title_line line = false.
Proof.
  unfold is_header_line.
  destruct (find_section section_names (Str.strip line)) as [name|] eqn:E;
    [intros _ | discriminate].
  assert (Hs : Str.startswith "#" (Str.strip line) = true).
  { pose proof (find_section_in _ _ _ E) as Hin.
    apply find_section_some in E. destruct E as [[_ E]|[Hn E]].
    - now apply pat_test_of_time_header, test_of_time_header_word in E.
    - apply pat_section_header_word in E; [tauto | now apply section_names_plain]. }
  unfold is_paper_title_line.
  destruct (Str.strip line) as [|c r] eqn:El; [reflexivity|].
  unfold Str.startswith in Hs. cbn [String.prefix] in Hs.
  destruct (ascii_dec "#" c) as [<-|]; [|discriminate].
  cbn [Str.truthy negb]. unfold skip_patterns. cbn [existsb].
  replace (matched (re_match true (seq [Bol; lit "#"]) (String "#" r))) with true
    by reflexivity.
  now rewrite orb_true_r.
Qed.

Lemma header_line_not_title_line_witness :
  is_paper_title_line "#### CVPR 2023 best papers with a long line" = false.
Proof.
  apply (header_line_not_title_line "#### CVPR 2023 best papers with a long line").
  vm_compute. reflexivity.
Defined.

(** ** The clean-up of a title *)

Lemma unbold_keep (a : ascii) (s : string) :
  Ascii.eqb a "*" = false -> unbold (String a s) = String a (unbold s).
Proof.
  intros Ha. destruct s as [|b s]; [reflexivity|].
  change (unbold (String a (String b s)))
    with (if Ascii.eqb a "*" && Ascii.eqb b "*" then unbold s
          else String a (unbold (String b s))).
  now rewrite Ha.
Qed.

Lemma unbold_pair (s : string) : unbold (String "*" (String "*" s)) = unbold s.
Proof. reflexivity. Qed.

Lemma unbold_star (b : ascii) (s : string) :
  Ascii.eqb b "*" = false ->
  unbold (String "*" (String b s)) = String "*" (String b (unbold s)).
Proof.
  intros Hb.
  change (unbold (String "*" (String b s)))
    with (if Ascii.eqb "*" "*" && Ascii.eqb b "*" then unbold s
          else String "*" (unbold (String b s))).
  rewrite Hb, andb_false_r. now rewrite unbold_keep.
Qed.

(** The three shapes of a text for [unbold]. *)
Lemma unbold_cases (P : string -> Prop) :
  P EmptyString ->
  (forall a, P (String a EmptyString)) ->
  (forall s, P s -> P (String "*" (String "*" s))) ->
  (forall a s, Ascii.eqb a "*" = false -> P s -> P (String a s)) ->
  (forall b s, Ascii.eqb b "*" = false -> P (String b s) ->
               P (String "*" (String b s))) ->
  forall s, P s.
Proof.
  intros H0 H1 Hpair Hkeep Hstar s.
  assert (G : P s /\ forall a, P (String a s)).
  { induction s as [|b s [IH1 IH2]]; [split; [exact H0 | exact H1]|].
    split; [apply IH2|]. intros a.
    destruct (Ascii.eqb_spec a "*") as [->|Ha].
    - destruct (Ascii.eqb_spec b "*") as [->|Hb].
      + now apply Hpair.
      + apply Hstar; [now apply Ascii.eqb_neq | apply IH2].
    - apply Hkeep; [now apply Ascii.eqb_neq | apply IH2]. }
  exact (proj1 G).
Qed.

Lemma match_at_bold (p : nat) (s : string) :
  match_at false pat_bold false p s
  = match s with
    | String a (String b _) =>
        if two_stars a b then Some (MObj p (S (S p)) None) else None
    | _ => None
    end.
Proof.
  unfold match_at, pat_bold, whole, two_stars. cbn [lit rmatch m_rest m_pos m_grp cmatch imatch].
  destruct s as [|a [|b s]]; cbn [option_map]; [reflexivity | |].
  - destruct (Ascii.eqb a "*"); reflexivity.
  - destruct (Ascii.eqb a "*"); cbn [andb]; [|reflexivity].
    destruct (Ascii.eqb b "*"); reflexivity.
Qed.

(** Where the pattern does not match, [re.sub] keeps the character. *)
Lemma sub_scan_miss ic r repl p (a : ascii) (s : string) :
  match_at ic r false p (String a s) = None ->
  sub_scan ic r repl p 0 (String a s) = String a (sub_scan ic r repl (S p) 0 s).
Proof. intros H. cbn [sub_scan]. now rewrite H. Qed.

(** [re.sub] of the pair of stars by nothing. *)
Lemma sub_scan_bold (s : string) : forall p,
  sub_scan false pat_bold EmptyString p 0 s = unbold s.
Proof.
  pattern s. apply unbold_cases; clear s.
  - reflexivity.
  - intros a p. now rewrite sub_scan_miss by (now rewrite match_at_bold).
  - intros s IH p. cbn [sub_scan]. rewrite match_at_bold.
    cbn [two_stars Ascii.eqb andb Bool.eqb m_stop].
    replace (S (S p) - p) with 2 by lia. cbn [append sub_scan]. apply IH.
  - intros a s Ha IH p. rewrite unbold_keep by exact Ha.
    rewrite sub_scan_miss; [now rewrite IH|].
    rewrite match_at_bold. unfold two_stars. rewrite Ha. now destruct s.
  - intros b s Hb IH p. rewrite unbold_star by exact Hb.
    rewrite sub_scan_miss.
    + rewrite IH. now rewrite unbold_keep.
    + rewrite match_at_bold. unfold two_stars. now rewrite Hb, andb_false_r.
Qed.

Lemma re_sub_bold (s : string) : re_sub false pat_bold EmptyString s = unbold s.
Proof. apply sub_scan_bold. Qed.

(** [re.sub] of [\s+] by a blank. *)
Lemma sub_scan_blank (s : string) :
  (forall p, sub_scan false pat_spaces " " p 0 s = squeeze_from false s)
  /\ (forall p, sub_scan false pat_spaces " " p (run_length Chr.isspace s) s
                = squeeze_from true s).
Proof.
  unfold pat_spaces.
  induction s as [|a s [IHa IHb]].
  - split; intros p; reflexivity.
  - assert (A : forall p, sub_scan false (plus (Is Space)) " " p 0 (String a s)
                          = squeeze_from false (String a s)).
    { intros p. cbn [sub_scan]. rewrite match_at_plus_run.
      change (cmatch false (Is Space)) with Chr.isspace.
      cbn [run_length squeeze_from]. destruct (Chr.isspace a).
      - cbn [m_stop].
        replace (p + S (run_length Chr.isspace s) - p)
          with (S (run_length Chr.isspace s)) by lia.
        rewrite IHb. reflexivity.
      - now rewrite IHa. }
    split; [exact A|].
    intros p. cbn [run_length]. destruct (Chr.isspace a) eqn:Ha.
    + cbn [sub_scan squeeze_from]. rewrite Ha. apply IHb.
    + rewrite A. cbn [squeeze_from]. now rewrite Ha.
Qed.

Lemma re_sub_blank (s : string) :
  re_sub false pat_spaces " " s = squeeze_from false s.
Proof. apply (proj1 (sub_scan_blank s)). Qed.

(** The clean-up, step by step. *)
Lemma clean_up_steps (t : string) :
  clean_up t = Str.strip (squeeze_from false (unbold t)).
Proof. unfold clean_up. now rewrite re_sub_bold, re_sub_blank. Qed.

(** *** Neighbours *)

Lemma no_pair_tail (bad : ascii -> ascii -> bool) (a : ascii) (s : string) :
  no_pair bad (String a s) = true -> no_pair bad s = true.
Proof.
  destruct s as [|b s]; [reflexivity|]. cbn [no_pair].
  intros H. apply andb_prop in H. tauto.
Qed.

Lemma no_pair_cons (bad : ascii -> ascii -> bool) (a : ascii) (s : string) :
  (forall b r, s = String b r -> bad a b = false) -> no_pair bad s = true ->
  no_pair bad (String a s) = true.
Proof.
  intros Hb Hs. destruct s as [|b r]; [reflexivity|].
  change (negb (bad a b) && no_pair bad (String b r) = true).
  now rewrite (Hb b r eq_refl), Hs.
Qed.

Lemma no_pair_lstrip (bad : ascii -> ascii -> bool) (s : string) :
  no_pair bad s = true -> no_pair bad (Str.lstrip s) = true.
Proof.
  induction s as [|a s IH]; [reflexivity|]. intros H. cbn [Str.lstrip].
  destruct (Chr.isspace a); [|exact H]. apply IH. now apply no_pair_tail in H.
Qed.

Lemma rstrip_cons (s : string) (b : ascii) (r : string) :
  Str.rstrip s = String b r -> exists s', s = String b s'.
Proof.
  destruct s as [|a s]; [discriminate|]. cbn [Str.rstrip].
  destruct (Str.rstrip s); [destruct (Chr.isspace a)|]; intros [= <- _]; eauto.
Qed.

Lemma no_pair_rstrip (bad : ascii -> ascii -> bool) (s : string) :
  no_pair bad s = true -> no_pair bad (Str.rstrip s) = true.
Proof.
  induction s as [|a s IH]; [reflexivity|]. intros H.
  pose proof (IH (no_pair_tail _ _ _ H)) as IH'.
  cbn [Str.rstrip]. destruct (Str.rstrip s) as [|b r] eqn:E.
  - destruct (Chr.isspace a); reflexivity.
  - apply rstrip_cons in E. destruct E as (s' & ->).
    change (negb (bad a b) && no_pair bad (String b r) = true).
    cbn [no_pair] in H. apply andb_prop in H. destruct H as [-> _]. exact IH'.
Qed.

Lemma no_pair_strip (bad : ascii -> ascii -> bool) (s : string) :
  no_pair bad s = true -> no_pair bad (Str.strip s) = true.
Proof. intros H. unfold Str.strip. now apply no_pair_rstrip, no_pair_lstrip. Qed.

Lemma prefix_two_stars (a b : ascii) (s : string) :
  String.prefix "**" (String a (String b s)) = two_stars a b.
Proof.
  unfold two_stars. cbn [String.prefix].
  destruct (ascii_dec "*" a) as [<-|Ha].
  - destruct (ascii_dec "*" b) as [<-|Hb].
    + now destruct s.
    + symmetry. apply andb_false_intro2, Ascii.eqb_neq. congruence.
  - symmetry. apply andb_false_intro1, Ascii.eqb_neq. congruence.
Qed.

Lemma contains_two_stars (s : string) :
  Str.contains "**" s = negb (no_pair two_stars s).
Proof.
  induction s as [|a s IH]; [reflexivity|].
  destruct s as [|b s].
  - cbn [Str.contains String.prefix no_pair]. now destruct (ascii_dec "*" a).
  - change (Str.contains "**" (String a (String b s)))
      with (String.prefix "**" (String a (String b s))
            || Str.contains "**" (String b s)).
    rewrite IH, prefix_two_stars.
    change (no_pair two_stars (String a (String b s)))
      with (negb (two_stars a b) && no_pair two_stars (String b s)).
    destruct (two_stars a b), (no_pair two_stars (String b s)); reflexivity.
Qed.

(** *** What each step leaves *)

Lemma unbold_no_pair (s : string) : no_pair two_stars (unbold s) = true.
Proof.
  pattern s. apply unbold_cases; clear s; try reflexivity.
  - intros s IH. now rewrite unbold_pair.
  - intros a s Ha IH. rewrite unbold_keep by exact Ha.
    apply no_pair_cons; [|exact IH]. intros b r _. unfold two_stars. now rewrite Ha.
  - intros b s Hb IH. rewrite unbold_star by exact Hb.
    rewrite unbold_keep in IH by exact Hb.
    apply no_pair_cons; [|exact IH]. intros b' r [= <- _].
    unfold two_stars. now rewrite Hb, andb_false_r.
Qed.

Lemma unbold_fixed (s : string) : no_pair two_stars s = true -> unbold s = s.
Proof.
  induction s as [|a s IH]; [reflexivity|]. intros H.
  pose proof (IH (no_pair_tail _ _ _ H)) as E.
  destruct s as [|b s]; [reflexivity|].
  cbn [no_pair] in H. apply andb_prop in H. destruct H as [H _].
  apply negb_true_iff in H. unfold two_stars in H.
  cbn [unbold] in E |- *. rewrite H. now rewrite E.
Qed.

Lemma squeeze_true_head (s : string) : starts_word (squeeze_from true s).
Proof.
  induction s as [|a s IH]; [now left|]. cbn [squeeze_from].
  destruct (Chr.isspace a) eqn:Ha; [exact IH|]. right. eauto.
Qed.

Lemma squeeze_all (s : string) : forall b,
  Str.all (fun c => negb (Chr.isspace c) || Ascii.eqb c " ") (squeeze_from b s) = true.
Proof.
  induction s as [|a s IH]; intros b; [reflexivity|]. cbn [squeeze_from].
  destruct (Chr.isspace a) eqn:Ha.
  - destruct b; [apply IH|]. cbn [Str.all]. now rewrite IH.
  - cbn [Str.all]. now rewrite Ha, IH.
Qed.

Lemma squeeze_no_two_spaces (s : string) : forall b,
  no_pair two_spaces (squeeze_from b s) = true.
Proof.
  induction s as [|a s IH]; intros b; [reflexivity|]. cbn [squeeze_from].
  destruct (Chr.isspace a) eqn:Ha.
  - destruct b; [apply IH|]. apply no_pair_cons; [|apply IH].
    intros c r E. destruct (squeeze_true_head s) as [E'|(c' & r' & E' & Hc)];
      rewrite E' in E; [discriminate|].
    injection E as <- _. unfold two_spaces. now rewrite Hc, andb_false_r.
  - apply no_pair_cons; [|apply IH]. intros c r _. unfold two_spaces. now rewrite Ha.
Qed.

Lemma squeeze_no_two_stars (s : string) : forall b,
  no_pair two_stars s = true -> no_pair two_stars (squeeze_from b s) = true.
Proof.
  induction s as [|a s IH]; intros b H; [reflexivity|].
  pose proof (no_pair_tail _ _ _ H) as Ht. cbn [squeeze_from].
  destruct (Chr.isspace a) eqn:Ha.
  - destruct b; [now apply IH|]. apply no_pair_cons; [|now apply IH].
    intros c r _. reflexivity.
  - apply no_pair_cons; [|now apply IH]. intros c r E.
    destruct s as [|b0 s0]; [discriminate|]. cbn [squeeze_from] in E.
    cbn [no_pair] in H. apply andb_prop in H. destruct H as [H _].
    apply negb_true_iff in H.
    destruct (Chr.isspace b0) eqn:Hb0.
    + injection E as <- _. unfold two_stars. now rewrite andb_false_r.
    + injection E as <- _. exact H.
Qed.

Lemma squeeze_fixed (s : string) : forall b,
  single_spaced s = true -> (b = true -> starts_word s) -> squeeze_from b s = s.
Proof.
  unfold single_spaced.
  induction s as [|a s IH]; intros b H Hb; [reflexivity|].
  apply andb_prop in H. destruct H as [Hall Hp].
  cbn [Str.all] in Hall. apply andb_prop in Hall. destruct Hall as [Ha Hall].
  pose proof (no_pair_tail _ _ _ Hp) as Hp'.
  cbn [squeeze_from]. destruct (Chr.isspace a) eqn:Hs.
  - destruct b.
    + destruct (Hb eq_refl) as [E|(c & r & [= <- <-] & Hc)]; congruence.
    + cbn [negb orb] in Ha. apply Ascii.eqb_eq in Ha. subst a. f_equal.
      apply IH; [now rewrite Hall, Hp'|]. intros _.
      destruct s as [|c r]; [now left|]. right. exists c, r. split; [reflexivity|].
      cbn [no_pair] in Hp. apply andb_prop in Hp. destruct Hp as [Hp _].
      apply negb_true_iff in Hp. unfold two_spaces in Hp. now rewrite Hs in Hp.
  - f_equal. apply IH; [now rewrite Hall, Hp' | discriminate].
Qed.

Lemma clean_up_normal (t : string) : normal_title (clean_up t).
Proof.
  rewrite clean_up_steps. split; [apply strip_idem|]. split.
  - unfold single_spaced. rewrite strip_all by apply squeeze_all.
    now rewrite no_pair_strip by apply squeeze_no_two_spaces.
  - rewrite contains_two_stars. apply negb_false_iff.
    apply no_pair_strip, squeeze_no_two_stars, unbold_no_pair.
Qed.

Lemma clean_up_fixed (t : string) : normal_title t -> clean_up t = t.
Proof.
  intros (Hs & Hb & Hc). rewrite clean_up_steps.
  rewrite contains_two_stars in Hc. apply negb_false_iff in Hc.
  rewrite unbold_fixed by exact Hc.
  rewrite squeeze_fixed; [exact Hs | exact Hb | discriminate].
Qed.

(** X13: a title that [extract_title_from_line] returns is trimmed, its
    only spaces are single blanks, and it has no pair of stars; so is
    every value of the clean-up. *)
Theorem extract_title_normal (line : string) :
  Str.strip (extract_title_from_line line) = extract_title_from_line line
  /\ single_spaced (extract_title_from_line line) = true
  /\ Str.contains "**" (extract_title_from_line line) = false.
Proof. unfold extract_title_from_line. cbv zeta. apply clean_up_normal. Qed.

(** X14: the clean-up changes nothing the second time, and the titles
    it leaves as they are are exactly those that are trimmed, have single
    blanks as their only spaces, and no pair of stars. *)
Theorem clean_up_idempotent (t : string) :
  clean_up (clean_up t) = clean_up t
  /\ (clean_up t = t <-> normal_title t).
Proof.
  split; [apply clean_up_fixed, clean_up_normal|]. split.
  - intros <-. apply clean_up_normal.
  - apply clean_up_fixed.
Qed.

(** ** The first two rules of the title, against the spec *)

Lemma tidy_clean_up (text : string) : clean_up (Str.strip text) = tidy text.
Proof. apply clean_up_steps. Qed.

(** C5 as the spec states it does not hold: the candidate line
    [Net (v2) [code] (CVPR 2023) [Paper]] reads [text (parenthetical)
    [bracketed]] with the text [Net (v2) [code]], and the title that
    [extract_title_from_line] returns is [Net], the text of another
    reading, the shortest one. *)
Lemma extract_title_paren_bracket_counterexample :
  ~ (forall line text,
       is_paper_title_line (Str.strip line) = true ->
       title_form (Str.strip line) text ->
       extract_title_from_line line = tidy text).
Proof.
  intros H.
  assert (F : title_form (Str.strip line_two_readings) "Net (v2) [code]").
  { split; [discriminate|]. split; [reflexivity|].
    exists " (CVPR 2023) [Paper]". split; [reflexivity|].
    exists " ", "CVPR 2023", " ", "Paper", EmptyString.
    split; [reflexivity|]. repeat split; discriminate. }
  specialize (H line_two_readings "Net (v2) [code]" eq_refl F).
  vm_compute in H. discriminate H.
Qed.

(** C5, amended: for every line that reads [text (parenthetical)
    [bracketed]], where [text] is the shortest text with which the line
    can be read so, [extract_title_from_line] returns the title of
    [text]: [text] trimmed, without its bold markers and with single
    blanks for its runs of white space; when [text] already is such a
    title, it is returned as it is.  The statement does not look at what
    else the line holds: a markdown link in it changes nothing. *)
Theorem extract_title_paren_bracket (line text : string) :
  first_title_form (Str.strip line) text ->
  extract_title_from_line line = tidy text
  /\ (normal_title text -> extract_title_from_line line = text).
Proof.
  intros F. unfold extract_title_from_line.
  rewrite (extract_rule_title _ _ F), tidy_clean_up. split; [reflexivity|].
  intros N. rewrite <- tidy_clean_up.
  destruct N as (S & N). rewrite S. apply clean_up_fixed. now split.
Qed.

Lemma extract_title_paren_bracket_witness :
  first_title_form (Str.strip line_with_link) "Awesome Detection Method"
  /\ (exists pre label, link_form (Str.strip line_with_link) pre label)
  /\ extract_title_from_line line_with_link = "Awesome Detection Method".
Proof.
  assert (F : first_title_form (Str.strip line_with_link) "Awesome Detection Method").
  { assert (E : exists m, re_match false pat_title (Str.strip line_with_link) = Some m
                  /\ group1 (Str.strip line_with_link) m = "Awesome Detection Method").
    { vm_compute. eexists. split; reflexivity. }
    destruct E as (m & E & G).
    destruct (re_match_title_some _ _ E) as (text & F & G').
    rewrite <- G, G'. exact F. }
  split; [exact F|]. split.
  - exists "Awesome Detection Method (CVPR 2023) ", "Paper".
    split; [discriminate|]. split; [reflexivity|].
    exists "](https://example.com/p.pdf)". split; [reflexivity|].
    exists "https://example.com/p.pdf", EmptyString.
    split; [reflexivity|]. split; [discriminate | reflexivity].
  - destruct (extract_title_paren_bracket line_with_link "Awesome Detection Method" F)
      as [_ H].
    apply H. repeat split; vm_compute; reflexivity.
Defined.

(** The two readings of the line above, and the one the program takes. *)
Example extract_title_shortest_text :
  first_title_form line_two_readings "Net"
  /\ extract_title_from_line line_two_readings = "Net".
Proof.
  split; [|vm_compute; reflexivity].
  assert (E : exists m, re_match false pat_title line_two_readings = Some m
                /\ group1 line_two_readings m = "Net").
  { vm_compute. eexists. split; reflexivity. }
  destruct E as (m & E & G).
  destruct (re_match_title_some _ _ E) as (text & F & G').
  rewrite <- G, G'. exact F.
Qed.




(** The link the program takes on the line above starts at the first
    bracket. *)
Example extract_title_leftmost_link :
  first_link_form line_two_brackets "See " "docs] and [Great Paper Title"
  /\ extract_title_from_line line_two_brackets = "docs] and [Great Paper Title".
Proof.
  split; [|vm_compute; reflexivity].
  assert (E : exists m, re_search false pat_link line_two_brackets = Some m
                /\ group1 line_two_brackets m = "docs] and [Great Paper Title"
                /\ m_start m = 4).
  { vm_compute. eexists. repeat split; reflexivity. }
  destruct E as (m & E & G & S0).
  destruct (re_search_link_some _ _ E) as (pre & label & F & G' & S').
  assert (P : pre = "See ").
  { destruct F as [(_ & _ & tail & Et & _) _]. rewrite S0 in S'.
    do 5 (destruct pre as [|? pre]; [try discriminate S'|]); [|discriminate S'].
    cbn in Et. now injection Et as <- <- <- <-. }
  rewrite <- G, G', <- P. exact F.
Qed.

(** ** The parser and the standard output *)









(** What is printed for the document of the spec's example. *)
Example printed_cvpr_iclr :
  printed doc_cvpr_iclr
  = [ "Found section: CVPR"; "   Added paper: Awesome Detection Method...";
      "Found section: ICLR" ].
Proof. vm_compute. reflexivity. Qed.

(** ** Patterns with a group between two fixed texts *)

Lemma lang_lit_cs (word : string) : forall p w s',
  lang false (lit word) p w s' <-> w = word.
Proof.
  induction word as [|c word IH]; intros p w s'; [reflexivity|].
  destruct word as [|d word].
  - apply lang_lit_char.
  - change (lit (String c (String d word)))
      with (Seq (Chr (Is (Lit c))) (lit (String d word))).
    cbn [lang]. split.
    + intros (w1 & w2 & -> & H1 & H2). apply lang_lit_char in H1. apply IH in H2.
      now subst.
    + intros ->. exists (String c EmptyString), (String d word).
      split; [reflexivity|]. split; [now apply lang_lit_char | now apply IH].
Qed.

Lemma lang_chr_cs (x : ascii) (p : nat) (w s' : string) :
  lang false (Chr (ch x)) p w s' <-> w = String x EmptyString.
Proof. apply lang_lit_char. Qed.

Lemma lang_seq_fixed (r1 r2 : regex) (c1 c2 : string) :
  (forall p w s', lang false r1 p w s' <-> w = c1) ->
  (forall p w s', lang false r2 p w s' <-> w = c2) ->
  forall p w s', lang false (Seq r1 r2) p w s' <-> w = c1 ++ c2.
Proof.
  intros H1 H2 p w s'. cbn [lang]. split.
  - intros (w1 & w2 & -> & L1 & L2). apply H1 in L1. apply H2 in L2. now subst.
  - intros ->. exists c1, c2. split; [reflexivity|].
    split; [now apply H1 | now apply H2].
Qed.

Lemma slice_middle (a u b : string) :
  Str.slice (String.length a) (String.length a + String.length u) (a ++ u ++ b) = u.
Proof.
  unfold Str.slice.
  replace (String.length a + String.length u - String.length a)
    with (String.length u) by lia.
  replace (Str.drop (String.length a) (a ++ u ++ b)) with (u ++ b).
  - apply take_append.
  - induction a as [|x a IH]; simpl; [now destruct (u ++ b) | exact IH].
Qed.

Lemma whole_some (ne : bool) (p : nat) (st res : mstate) :
  whole ne p st = Some res -> res = st.
Proof. unfold whole. destruct (ne && _); [discriminate | now intros [= <-]]. Qed.

Lemma all_prefix (f : ascii -> bool) (a b : string) :
  Str.all f (a ++ b) = true -> Str.all f a = true.
Proof.
  induction a as [|c a IH]; simpl; [reflexivity|].
  intros H. apply andb_prop in H. destruct H as [-> H]. now apply IH.
Qed.

(** Every element of [re.findall] is the group of an attempt that
    succeeded somewhere in the subject. *)
Lemma findall_scan_in ic r (s0 : string) (s : string) : forall pre0 p skip g,
  s0 = pre0 ++ s -> p = String.length pre0 ->
  In g (findall_scan ic r s0 p skip s) ->
  exists pre s1 ne m,
    s = pre ++ s1 /\ match_at ic r ne (p + String.length pre) s1 = Some m
    /\ g = group1 s0 m.
Proof.
  induction s as [|a s IH]; intros pre0 p skip g E0 Ep Hin.
  - destruct skip as [|n]; cbn [findall_scan] in Hin; [|destruct Hin].
    destruct (match_at ic r false p EmptyString) as [m|] eqn:Em; [|destruct Hin].
    assert (Hg : g = group1 s0 m)
      by (destruct (m_stop m - p); destruct Hin as [<-|[]]; reflexivity).
    exists EmptyString, EmptyString, false, m. cbn [String.length].
    rewrite Nat.add_0_r. auto.
  - assert (Hnext : forall skip',
              In g (findall_scan ic r s0 (S p) skip' s) ->
              exists pre s1 ne m,
                String a s = pre ++ s1
                /\ match_at ic r ne (p + String.length pre) s1 = Some m
                /\ g = group1 s0 m).
    { intros skip' H.
      destruct (IH (pre0 ++ String a EmptyString) (S p) skip' g) as
        (pre & s1 & ne & m & -> & Hm & Hg); auto.
      - rewrite E0, append_assoc. reflexivity.
      - rewrite length_append, Ep. cbn [String.length]. lia.
      - exists (String a pre), s1, ne, m. cbn [String.length append].
        rewrite Nat.add_succ_r. auto. }
    assert (Hhere : forall ne m,
              match_at ic r ne p (String a s) = Some m -> g = group1 s0 m ->
              exists pre s1 ne m,
                String a s = pre ++ s1
                /\ match_at ic r ne (p + String.length pre) s1 = Some m
                /\ g = group1 s0 m).
    { intros ne m Hm Hg. exists EmptyString, (String a s), ne, m.
      cbn [String.length]. rewrite Nat.add_0_r. auto. }
    destruct skip as [|n]; cbn [findall_scan] in Hin; [|now apply Hnext in Hin].
    destruct (match_at ic r false p (String a s)) as [m|] eqn:Em;
      [|now apply Hnext in Hin].
    destruct (m_stop m - p).
    + destruct Hin as [<-|Hin]; [now apply (Hhere false m)|].
      destruct (match_at ic r true p (String a s)) as [m'|] eqn:Em';
        [|now apply Hnext in Hin].
      destruct Hin as [<-|Hin]; [now apply (Hhere true m') | now apply Hnext in Hin].
    + destruct Hin as [<-|Hin]; [now apply (Hhere false m) | now apply Hnext in Hin].
Qed.

Lemma re_findall_in ic r (s g : string) :
  In g (re_findall ic r s) ->
  exists pre s1 ne m,
    s = pre ++ s1 /\ match_at ic r ne (String.length pre) s1 = Some m
    /\ g = group1 s m.
Proof.
  unfold re_findall. intros H.
  apply (findall_scan_in ic r s s EmptyString 0 0 g eq_refl eq_refl) in H.
  exact H.
Qed.

Section Delimited.

Variables ropen rclose : regex.
Variables sopen sclose : string.
Hypothesis open_lang : forall p w s', lang false ropen p w s' <-> w = sopen.
Hypothesis close_lang : forall p w s', lang false rclose p w s' <-> w = sclose.
Hypothesis open_groupless : groupless ropen = true.
Hypothesis close_groupless : groupless rclose = true.
Hypothesis open_not_empty : sopen <> EmptyString.

Lemma delimited_accepts (ne : bool) (p q : nat) (s : string) :
  p < q -> accepts (whole ne p) q s.
Proof.
  intros Hlt g. unfold whole. cbn [m_pos].
  replace (Nat.eqb q p) with false by (symmetry; apply Nat.eqb_neq; lia).
  rewrite andb_false_r. discriminate.
Qed.

(** An attempt that succeeds reads the subject as the opening, the
    shortest body after which the closing follows, and the closing; the
    group is the body. *)
Lemma match_at_delimited_some (ne : bool) (p : nat) (s : string) (m : mobj) :
  match_at false (pat_delimited ropen rclose) ne p s = Some m ->
  exists body rest,
    s = sopen ++ body ++ sclose ++ rest /\ without Chr.nl body
    /\ m_span m = Some (p + String.length sopen,
                        p + String.length sopen + String.length body)
    /\ m_stop m = p + String.length sopen + String.length body + String.length sclose
    /\ forall body' rest', s = sopen ++ body' ++ sclose ++ rest' ->
         String.length body <= String.length body'.
Proof.
  unfold match_at, pat_delimited. cbn [rmatch].
  destruct (rmatch false ropen _ _) as [res|] eqn:E; [|discriminate].
  intros [= <-].
  apply rmatch_sound in E. destruct E as (w & s1 & g1 & -> & L & E & G).
  apply open_lang in L. subst w. rewrite (G open_groupless) in E. clear G g1.
  cbn [rmatch m_pos m_rest m_grp star_lazy] in E.
  apply rep_lazy_first in E.
  destruct E as (body & s2 & -> & Hall & _ & Hk & Hmin).
  cbv beta in Hk. unfold set_grp in Hk. cbn [m_pos m_rest] in Hk.
  apply rmatch_sound in Hk. destruct Hk as (w2 & rest & g2 & -> & L2 & Hk & G2).
  apply close_lang in L2. subst w2. rewrite (G2 close_groupless) in Hk.
  apply whole_some in Hk. subst res.
  exists body, rest. split; [reflexivity|]. split; [exact Hall|].
  split; [reflexivity|]. split; [reflexivity|].
  intros body' rest' E'.
  apply append_same_length in E'; [|reflexivity]. destruct E' as [_ E'].
  destruct (Nat.le_gt_cases (String.length body) (String.length body')) as [|Hlt];
    [assumption | exfalso].
  specialize (Hmin body' _ E' (Nat.le_0_l _) Hlt).
  cbv beta in Hmin. unfold set_grp in Hmin. cbn [m_pos m_rest] in Hmin.
  revert Hmin. apply rmatch_complete; [now apply close_lang|].
  apply delimited_accepts.
  apply not_empty_length in open_not_empty. lia.
Qed.

Lemma match_at_delimited_none (ne : bool) (p : nat) (s : string) :
  match_at false (pat_delimited ropen rclose) ne p s = None ->
  forall body rest, s = sopen ++ body ++ sclose ++ rest -> ~ without Chr.nl body.
Proof.
  intros H body rest -> Hnl. revert H.
  unfold match_at, pat_delimited. cbn [rmatch].
  destruct (rmatch false ropen _ _) as [res|] eqn:E; [discriminate|]. intros _.
  revert E. apply rmatch_complete; [now apply open_lang|].
  intros g. cbn [rmatch m_pos m_rest m_grp star_lazy].
  apply rep_complete; [exact Hnl | apply Nat.le_0_l | exact I|].
  cbv beta. unfold set_grp. cbn [m_pos m_rest].
  apply rmatch_complete; [now apply close_lang|].
  apply delimited_accepts.
  apply not_empty_length in open_not_empty. lia.
Qed.

(** [re.search] returns the group of the first reading. *)
Lemma re_search_delimited_some (s : string) (m : mobj) :
  re_search false (pat_delimited ropen rclose) s = Some m ->
  exists pre body, first_delimited sopen sclose s pre body /\ group1 s m = body.
Proof.
  unfold re_search. intros H. apply search_from_some in H.
  destruct H as (pre & s1 & -> & Hm & Hmin). cbn [Nat.add] in Hm, Hmin.
  apply match_at_delimited_some in Hm.
  destruct Hm as (body & rest & -> & Hnl & Hspan & _ & Hshort).
  exists pre, body. split; [split|].
  - exists rest. split; [reflexivity | exact Hnl].
  - intros pre' body' (rest' & E' & Hnl').
    destruct (Nat.lt_trichotomy (String.length pre) (String.length pre'))
      as [Hlt | [Heq | Hgt]].
    + now left.
    + right. split; [exact Heq|].
      apply append_same_length in E'; [|exact Heq]. destruct E' as [_ E'].
      apply (Hshort body' rest' E').
    + exfalso. specialize (Hmin pre' _ E' Hgt).
      apply (match_at_delimited_none _ _ _ Hmin body' rest' eq_refl Hnl').
  - unfold group1. rewrite Hspan.
    replace (pre ++ sopen ++ body ++ sclose ++ rest)
      with ((pre ++ sopen) ++ body ++ sclose ++ rest) by (now rewrite append_assoc).
    rewrite <- length_append. apply slice_middle.
Qed.

Lemma re_search_delimited_none (s : string) :
  re_search false (pat_delimited ropen rclose) s = None ->
  forall pre body, ~ delimited sopen sclose s pre body.
Proof.
  unfold re_search. intros H pre body (rest & E & Hnl).
  pose proof (search_from_none _ _ _ _ H pre _ E) as Hm.
  apply (match_at_delimited_none _ _ _ Hm body rest eq_refl Hnl).
Qed.

(** The elements of [re.findall] are bodies of readings, and none of
    them holds the closing. *)
Lemma re_findall_delimited (s g : string) :
  sclose <> EmptyString ->
  In g (re_findall false (pat_delimited ropen rclose) s) ->
  (exists pre, delimited sopen sclose s pre g) /\ ~ holds sclose g.
Proof.
  intros Hc H. apply re_findall_in in H.
  destruct H as (pre & s1 & ne & m & -> & Hm & ->).
  apply match_at_delimited_some in Hm.
  destruct Hm as (body & rest & -> & Hnl & Hspan & _ & Hshort).
  assert (Eg : group1 (pre ++ sopen ++ body ++ sclose ++ rest) m = body).
  { unfold group1. rewrite Hspan.
    replace (pre ++ sopen ++ body ++ sclose ++ rest)
      with ((pre ++ sopen) ++ body ++ sclose ++ rest) by (now rewrite append_assoc).
    rewrite <- length_append. apply slice_middle. }
  rewrite Eg. split.
  - exists pre, rest. split; [reflexivity | exact Hnl].
  - intros (b1 & b2 & ->).
    specialize (Hshort b1 (b2 ++ sclose ++ rest)).
    rewrite !length_append in Hshort. apply not_empty_length in Hc.
    assert (String.length b1 + (String.length sclose + String.length b2)
            <= String.length b1); [|lia].
    apply Hshort. now rewrite !append_assoc.
Qed.

End Delimited.

(** ** The answer of arXiv *)

Lemma search_from_ext (ic : bool) (r1 r2 : regex) :
  (forall p s, match_at ic r1 false p s = match_at ic r2 false p s) ->
  forall s p, search_from ic r1 p s = search_from ic r2 p s.
Proof.
  intros H. induction s as [|a s IH]; intros p; cbn [search_from]; rewrite H.
  - reflexivity.
  - destruct (match_at ic r2 false p (String a s)); [reflexivity | apply IH].
Qed.

Lemma pat_arxiv_pdf_delimited (s : string) :
  re_search false pat_arxiv_pdf s
  = re_search false (pat_delimited pat_arxiv_pdf_open (Chr (ch Chr.dquote))) s.
Proof. unfold re_search. apply search_from_ext. reflexivity. Qed.

Lemma pat_arxiv_pdf_open_lang (p : nat) (w s' : string) :
  lang false pat_arxiv_pdf_open p w s' <-> w = arxiv_link_prefix.
Proof.
  revert p w s'. unfold pat_arxiv_pdf_open. cbn [seq].
  apply (lang_seq_fixed _ _ "<link title="); [apply lang_lit_cs|].
  apply (lang_seq_fixed _ _ (String Chr.dquote EmptyString)); [apply lang_chr_cs|].
  apply (lang_seq_fixed _ _ "pdf"); [apply lang_lit_cs|].
  apply (lang_seq_fixed _ _ (String Chr.dquote EmptyString)); [apply lang_chr_cs|].
  apply (lang_seq_fixed _ _ " href="); [apply lang_lit_cs|].
  apply lang_chr_cs.
Qed.

Lemma arxiv_link_prefix_not_empty : arxiv_link_prefix <> EmptyString.
Proof. discriminate. Qed.

Lemma without_split (c : ascii) (u : string) :
  without c u \/ exists u1 u2, u = u1 ++ String c u2.
Proof.
  unfold without. induction u as [|a u IH]; [now left|]. cbn [Str.all].
  destruct (Ascii.eqb_spec a c) as [->|Ha].
  - right. exists EmptyString, u. reflexivity.
  - destruct IH as [IH|(u1 & u2 & ->)]; [left; exact IH|].
    right. exists (String a u1), u2. reflexivity.
Qed.

(** The shortest body before a closing character has no such
    character. *)
Lemma first_delimited_without (opening content pre body : string) (c : ascii) :
  first_delimited opening (String c EmptyString) content pre body -> without c body.
Proof.
  intros [(rest & E & Hnl) Hmin].
  destruct (without_split c body) as [H|(u1 & u2 & ->)]; [exact H | exfalso].
  assert (D : delimited opening (String c EmptyString) content pre u1).
  { exists (u2 ++ String c rest). split.
    - rewrite E. rewrite (append_assoc u1). reflexivity.
    - unfold without in *. now apply all_prefix in Hnl. }
  destruct (Hmin pre u1 D) as [H|[_ H]]; [lia|].
  rewrite length_append in H. cbn [String.length] in H. lia.
Qed.

Section ArxivProperties.

Context {world : Type}.
Variable requests_get :
  string -> list (string * string) -> world -> (string + nat * string) * world.

(** X15: what [search_arxiv] returns names arXiv as its source.  When it
    has an address, a paper was found: the answer had status 200 and the
    text of an entry, and the address is the text between the first
    [<link title=.pdf. href=.] (each dot a double quote) that is followed
    on its line by a double quote, and the next double quote; it has no
    double quote and no newline.  When it has no
    address, nothing was found, and an answer with status 200 and an
    entry has no such link. *)
Theorem search_arxiv_pdf_url (query_title : string) (w : world) :
  Result.source (fst (search_arxiv requests_get query_title w)) = "arxiv"
  /\ match Result.pdf_url (fst (search_arxiv requests_get query_title w)) with
     | Some url =>
         Result.found (fst (search_arxiv requests_get query_title w)) = true
         /\ without Chr.dquote url /\ without Chr.nl url
         /\ exists content pre,
              fst (requests_get arxiv_base_url (arxiv_params query_title) w)
              = inr (200, content)
              /\ Str.contains "<entry>" content = true
              /\ first_delimited arxiv_link_prefix (String Chr.dquote EmptyString)
                   content pre url
     | None =>
         Result.found (fst (search_arxiv requests_get query_title w)) = false
         /\ forall content pre url,
              fst (requests_get arxiv_base_url (arxiv_params query_title) w)
              = inr (200, content) ->
              Str.contains "<entry>" content = true ->
              ~ delimited arxiv_link_prefix (String Chr.dquote EmptyString)
                  content pre url
     end.
Proof.
  unfold search_arxiv.
  destruct (requests_get arxiv_base_url (arxiv_params query_title) w)
    as [[e|[status_code content]] w'] eqn:Eg; cbn [fst].
  - split; [reflexivity|]. split; [reflexivity|]. discriminate.
  - destruct (Nat.eqb_spec status_code 200) as [->|Hs]; cbn [fst].
    + unfold arxiv_entry.
      destruct (Str.contains "<entry>" content) eqn:Ec.
      * rewrite pat_arxiv_pdf_delimited.
        destruct (re_search false (pat_delimited _ _) content) as [m|] eqn:Em.
        -- apply (re_search_delimited_some _ _ _ _ pat_arxiv_pdf_open_lang
                    (lang_chr_cs Chr.dquote) eq_refl eq_refl) in Em;
             [|discriminate].
           destruct Em as (pre & body & F & ->).
           split; [reflexivity|]. cbn [Result.pdf_url Result.found].
           split; [reflexivity|].
           split; [now apply first_delimited_without in F|].
           split; [destruct F as [(rest & _ & Hnl) _]; exact Hnl|].
           exists content, pre. auto.
        -- split; [reflexivity|]. cbn [Result.pdf_url Result.found].
           split; [reflexivity|]. intros content0 pre url [= <-] _.
           apply (re_search_delimited_none _ _ _ _ pat_arxiv_pdf_open_lang
                    (lang_chr_cs Chr.dquote) arxiv_link_prefix_not_empty _ Em).
      * split; [reflexivity|]. split; [reflexivity|].
        intros content0 pre url [= <-]. congruence.
    + split; [reflexivity|]. split; [reflexivity|].
      intros content0 pre url [= E _]. congruence.
Qed.

(** X16: the title and the authors that [search_arxiv] returns.  The
    title is the text of the first [<title>...</title>] of the answer
    that is on one line, or the title that was asked for when the answer
    has none.  Every author is the text of a [<name>...</name>] of the
    answer, on one line, and does not hold [</name>].  When nothing was
    found there is no title and there are no authors. *)
Theorem search_arxiv_title_authors (query_title : string) (w : world) :
  match Result.title (fst (search_arxiv requests_get query_title w)) with
  | Some t =>
      Result.found (fst (search_arxiv requests_get query_title w)) = true
      /\ exists content,
           fst (requests_get arxiv_base_url (arxiv_params query_title) w)
           = inr (200, content)
           /\ ((exists pre, first_delimited "<title>" "</title>" content pre t)
               \/ (t = query_title
                   /\ forall pre body, ~ delimited "<title>" "</title>" content pre body))
           /\ Forall (fun a => (exists pre, delimited "<name>" "</name>" content pre a)
                               /\ ~ holds "</name>" a)
                (Result.authors (fst (search_arxiv requests_get query_title w)))
  | None =>
      Result.found (fst (search_arxiv requests_get query_title w)) = false
      /\ Result.authors (fst (search_arxiv requests_get query_title w)) = []
  end.
Proof.
  unfold search_arxiv.
  destruct (requests_get arxiv_base_url (arxiv_params query_title) w)
    as [[e|[status_code content]] w'] eqn:Eg; cbn [fst]; [split; reflexivity|].
  destruct (Nat.eqb_spec status_code 200) as [->|Hs]; cbn [fst];
    [|split; reflexivity].
  unfold arxiv_entry.
  destruct (Str.contains "<entry>" content); [|split; reflexivity].
  destruct (re_search false pat_arxiv_pdf content) as [m|]; [|split; reflexivity].
  cbn [Result.title Result.found Result.authors].
  split; [reflexivity|]. exists content. split; [reflexivity|]. split.
  - change pat_arxiv_title with (pat_delimited (lit "<title>") (lit "</title>")).
    destruct (re_search false (pat_delimited _ _) content) as [tm|] eqn:Et.
    + left.
      apply (re_search_delimited_some _ _ _ _ (lang_lit_cs "<title>")
               (lang_lit_cs "</title>") eq_refl eq_refl) in Et; [|discriminate].
      destruct Et as (pre & body & F & ->). eauto.
    + right. split; [reflexivity|].
      apply (re_search_delimited_none _ _ _ _ (lang_lit_cs "<title>")
               (lang_lit_cs "</title>")); [discriminate | exact Et].
  - apply Forall_forall. intros a Ha.
    change pat_arxiv_name with (pat_delimited (lit "<name>") (lit "</name>")) in Ha.
    apply (re_findall_delimited _ _ _ _ (lang_lit_cs "<name>")
             (lang_lit_cs "</name>") eq_refl eq_refl) in Ha;
      [exact Ha | discriminate | discriminate].
Qed.

End ArxivProperties.

(** On the answer of the small world the title is that of the feed,
    which comes first, and not that of the entry. *)
Example arxiv_entry_feed_title :
  Result.title (arxiv_entry "Another Great Paper Title" Demo.arxiv_answer)
  = Some "ArXiv Query"
  /\ Result.pdf_url (arxiv_entry "Another Great Paper Title" Demo.arxiv_answer)
     = Some "http://arxiv.org/pdf/0000.00000"
  /\ Result.authors (arxiv_entry "Another Great Paper Title" Demo.arxiv_answer)
     = ["A. Author"; "B. Author"].
Proof. vm_compute. repeat split. Qed.

(** ** The third rule of [extract_title_from_line] *)

(** *** [re.sub] where the pattern matches nowhere, or once up to the end *)







(** *** Lines without an opening parenthesis *)






(** *** The pattern of the trailing bracket *)
























(** ** The hash: its authors and its shape *)

(** X18: the authors enter the hash through their keys only: two lists
    of authors that are not empty and have the same keys up to order,
    once the empty names are left out, give the same hash; each key is
    the name in lower case and trimmed.  The empty list of authors gives
    the hash of the title alone. *)
Theorem generate_paper_hash_authors (t : string) (l1 l2 : list string) :
  l1 <> [] -> l2 <> [] -> Permutation (author_keys l1) (author_keys l2) ->
  generate_paper_hash t (Some l1) = generate_paper_hash t (Some l2)
  /\ generate_paper_hash t (Some []) = generate_paper_hash t None.
Proof.
  intros H1 H2 Hp. split; [|reflexivity].
  unfold generate_paper_hash.
  destruct l1 as [|a1 l1]; [congruence|]. destruct l2 as [|a2 l2]; [congruence|].
  change (map (fun a => Str.strip (Str.lower a)) (filter Str.truthy (a1 :: l1)))
    with (author_keys (a1 :: l1)).
  change (map (fun a => Str.strip (Str.lower a)) (filter Str.truthy (a2 :: l2)))
    with (author_keys (a2 :: l2)).
  now rewrite (sorted_permutation _ _ Hp).
Qed.

Lemma generate_paper_hash_authors_witness :
  generate_paper_hash "Deep Learning" (Some ["  Yann LeCun "; ""; "YOSHUA BENGIO"])
  = generate_paper_hash "Deep Learning" (Some ["yoshua bengio"; "yann lecun"]).
Proof.
  apply (generate_paper_hash_authors "Deep Learning"
           ["  Yann LeCun "; ""; "YOSHUA BENGIO"] ["yoshua bengio"; "yann lecun"]).
  - discriminate.
  - discriminate.
  - apply perm_swap.
Defined.

Lemma hex_digit_is_hex (n : N) : (n < 16)%N -> is_hex (Md5.hex_digit n) = true.
Proof.
  intros H. remember (N.to_nat n) as k eqn:Ek.
  assert (Hk : k < 16) by lia.
  assert (En : n = N.of_nat k) by lia.
  subst n. clear Ek H.
  do 16 (destruct k as [|k]; [reflexivity|]). lia.
Qed.

Lemma le_bytes_small (n : nat) : forall x, Forall (fun b => (b < 256)%N) (Md5.le_bytes n x).
Proof.
  induction n as [|n IH]; intros x; cbn [Md5.le_bytes]; constructor; [|apply IH].
  apply N.mod_lt. discriminate.
Qed.

Lemma le_bytes_length (n : nat) : forall x, List.length (Md5.le_bytes n x) = n.
Proof.
  induction n as [|n IH]; intros x; cbn [Md5.le_bytes List.length];
    [reflexivity | now rewrite IH].
Qed.

Lemma hex_shape (bs : list N) :
  Forall (fun b => (b < 256)%N) bs ->
  String.length (Md5.hex bs) = 2 * List.length bs
  /\ Str.all is_hex (Md5.hex bs) = true.
Proof.
  induction 1 as [|b bs Hb _ [IH1 IH2]]; [split; reflexivity|].
  cbn [Md5.hex String.length List.length Str.all]. rewrite IH1, IH2.
  split; [lia|].
  rewrite !hex_digit_is_hex; [reflexivity | |].
  - apply N.mod_lt. discriminate.
  - apply N.Div0.div_lt_upper_bound. exact Hb.
Qed.

Lemma digest_shape (msg : list N) :
  List.length (Md5.digest msg) = 16
  /\ Forall (fun b => (b < 256)%N) (Md5.digest msg).
Proof.
  unfold Md5.digest. cbv zeta.
  destruct (fold_left _ _ Md5.init) as [[[a b] c] d].
  split.
  - rewrite !length_app, !le_bytes_length. reflexivity.
  - repeat (apply Forall_app; split); apply le_bytes_small.
Qed.

(** X19: whatever the title and the authors, the hash is a text of 32
    lower-case hexadecimal digits. *)
Theorem generate_paper_hash_shape (t : string) (authors : option (list string)) :
  String.length (generate_paper_hash t authors) = 32
  /\ Str.all is_hex (generate_paper_hash t authors) = true.
Proof.
  unfold generate_paper_hash. cbv zeta. unfold Md5.hexdigest.
  match goal with |- context [Md5.digest ?m] =>
    destruct (digest_shape m) as [Hl Hs];
    destruct (hex_shape (Md5.digest m) Hs) as [H1 H2] end.
  rewrite H1, H2, Hl. split; reflexivity.
Qed.
